(** * containerd client: task lifecycle (client/task.go)

    A shallow embedding of the task controller of the containerd client:
    [task.Status], [task.Pause], [task.Resume], [task.Wait], [task.Delete],
    [task.Exec], [task.Checkpoint], [task.Metrics] and
    [task.isCheckpointPathExist].

    Every call that leaves the client (an RPC of the task service, a call on
    an IO handle, the content store, the image catalog, the lease manager,
    the clock) is an operation [Op]; a method is a finite tree [Prog] of
    such operations whose branches are the possible answers.  [run] executes
    a tree against a handler over an arbitrary world and records the
    operations, each with its answer, in the order they were issued.

    Left out: the context argument and the tracing spans
    (tracing.StartSpan, SetAttributes, End), which observe a call and do
    not change it.  A fallible call of a service answers with its payload
    or with an error; the message-typed fields of a response are present. *)

From Stdlib Require Import NArith ZArith Ascii String List Lia.
From stdpp Require Import base decidable option list strings gmap.
Import ListNotations.

Local Open Scope string_scope.
Local Open Scope list_scope.

(** ** Errors *)

(** The domain error kinds of errdefs that the client distinguishes. *)
Inductive ErrKind : Type :=
| NotFound
| AlreadyExists
| InvalidArgument
| FailedPrecondition
| Unavailable
| Internal.

Global Instance ErrKind_eq_dec : EqDecision ErrKind.
Proof. solve_decision. Defined.

(** A Go [error] value (never nil; a nilable error is an [option error]). *)
Inductive error : Type :=
| ErrSentinel (k : ErrKind)                (* errdefs.ErrNotFound, ... *)
| ErrNew (msg : string)                    (* errors.New(msg) *)
| ErrWrap (msg : string) (inner : error)   (* fmt.Errorf("...%w", inner) *)
| ErrTransport (code : N) (desc : string). (* transport-native status error *)

Definition kind_message (k : ErrKind) : string :=
  match k with
  | NotFound => "not found"
  | AlreadyExists => "already exists"
  | InvalidArgument => "invalid argument"
  | FailedPrecondition => "failed precondition"
  | Unavailable => "unavailable"
  | Internal => "internal"
  end.

(** [err.Error()] *)
Definition Error (e : error) : string :=
  match e with
  | ErrSentinel k => kind_message k
  | ErrNew msg => msg
  | ErrWrap msg _ => msg
  | ErrTransport _ desc => desc
  end.

(** [fmt.Errorf(prefix + "%w", inner)]: the message ends with the message
    of the wrapped error, which stays reachable through Unwrap. *)
Definition Errorf_w (prefix : string) (inner : error) : error :=
  ErrWrap (prefix +:+ Error inner) inner.

(** [errors.Is(e, sentinel k)]: walks the Unwrap chain. *)
Fixpoint errors_Is (e : error) (k : ErrKind) : bool :=
  match e with
  | ErrSentinel k' => bool_decide (k' = k)
  | ErrWrap _ inner => errors_Is inner k
  | ErrNew _ | ErrTransport _ _ => false
  end.

Definition IsNotFound (e : error) : bool := errors_Is e NotFound.
Definition IsFailedPrecondition (e : error) : bool := errors_Is e FailedPrecondition.
Definition IsInvalidArgument (e : error) : bool := errors_Is e InvalidArgument.

(** ** Data of the task service and of the client *)

(** time.Time and *timestamppb.Timestamp; both are only carried around. *)
Definition Time : Type := Z.
Definition Timestamp : Type := (Z * Z)%type.

(** ProcessStatus is a string type in the source. *)
Definition ProcessStatus : Type := string.

Definition Running : ProcessStatus := "running".
Definition Created : ProcessStatus := "created".
Definition Stopped : ProcessStatus := "stopped".
Definition Paused : ProcessStatus := "paused".
Definition Pausing : ProcessStatus := "pausing".
Definition Unknown : ProcessStatus := "unknown".

(** UnknownExitStatus *)
Definition UnknownExitStatus : N := 255%N.

Definition checkpointNamePrefix : string := "containerd.io/checkpoint/".

(** The zero value of time.Time. *)
Definition zeroTime : Time := 0%Z.

Record Status : Type := mkStatus {
  st_Status : ProcessStatus;
  st_ExitStatus : N;
  st_ExitTime : Time
}.

Definition zeroStatus : Status :=
  {| st_Status := ""; st_ExitStatus := 0%N; st_ExitTime := zeroTime |}.

(** ExitStatus, as built at lines 344-353 and 421. *)
Record ExitStatus : Type := mkExitStatus {
  code : N;
  exitedAt : Time;
  err : option error
}.

(** The status enumeration of the task API (api/types/task): the six
    values the API defines.  A number outside them, which the generated
    [String()] prints in digits, is not modelled. *)
Inductive TaskStatus : Type :=
| UNKNOWN | CREATED | RUNNING | STOPPED | PAUSED | PAUSING.

(** The generated [String()] of the enumeration. *)
Definition TaskStatus_String (s : TaskStatus) : string :=
  match s with
  | UNKNOWN => "UNKNOWN"
  | CREATED => "CREATED"
  | RUNNING => "RUNNING"
  | STOPPED => "STOPPED"
  | PAUSED => "PAUSED"
  | PAUSING => "PAUSING"
  end.

(** strings.ToLower, on the ASCII range. *)
Definition lower_ascii (c : ascii) : ascii :=
  let n := N_of_ascii c in
  if ((65 <=? n) && (n <=? 90))%N then ascii_of_N (n + 32) else c.

Fixpoint ToLower (s : string) : string :=
  match s with
  | EmptyString => EmptyString
  | String c r => String (lower_ascii c) (ToLower r)
  end.

(** A cio.IO handle; its methods are operations below. *)
Inductive IO : Type := mkIO (n : nat).

(** cio.Config *)
Record Config : Type := mkConfig {
  cfg_Terminal : bool;
  cfg_Stdin : string;
  cfg_Stdout : string;
  cfg_Stderr : string
}.

(** *anypb.Any: a type URL and the marshalled bytes. *)
Record Any : Type := mkAny {
  any_TypeUrl : string;
  any_Value : string
}.

(** The process of a tasks.GetResponse. *)
Record ProcessPB : Type := mkProcessPB {
  pb_Status : TaskStatus;
  pb_ExitStatus : N;
  pb_ExitedAt : option Timestamp
}.

Record GetResponse : Type := mkGetResponse { get_Process : ProcessPB }.

Record WaitResponse : Type := mkWaitResponse {
  wait_ExitStatus : N;
  wait_ExitedAt : option Timestamp
}.

Record DeleteResponse : Type := mkDeleteResponse {
  del_ExitStatus : N;
  del_ExitedAt : option Timestamp
}.

Record ExecProcessRequest : Type := mkExecProcessRequest {
  exec_ContainerID : string;
  exec_ExecID : string;
  exec_Terminal : bool;
  exec_Stdin : string;
  exec_Stdout : string;
  exec_Stderr : string;
  exec_Spec : option Any
}.

(** types.Metric *)
Record Metric : Type := mkMetric {
  metric_ID : string;
  metric_Data : option Any
}.

(** A repeated field of a decoded message is the nil slice exactly when it
    has no element: nil is the empty list. *)
Record MetricsResponse : Type := mkMetricsResponse { Metrics_ : list Metric }.

(** ** Data of the checkpoint protocol *)

(** v1.Platform *)
Record Platform : Type := mkPlatform {
  plat_OS : string;
  plat_Architecture : string
}.

(** types.Descriptor, as returned by the checkpoint RPC. *)
Record ApiDescriptor : Type := mkApiDescriptor {
  api_MediaType : string;
  api_Digest : string;
  api_Size : Z;
  api_Annotations : gmap string string
}.

(** v1.Descriptor *)
Record Descriptor : Type := mkDescriptor {
  desc_MediaType : string;
  desc_Digest : string;
  desc_Size : Z;
  desc_Platform : option Platform;
  desc_Annotations : gmap string string
}.

Definition zeroDescriptor : Descriptor :=
  {| desc_MediaType := ""; desc_Digest := ""; desc_Size := 0%Z;
     desc_Platform := None; desc_Annotations := ∅ |}.

(** v1.Index *)
Record Index : Type := mkIndex {
  idx_SchemaVersion : Z;
  idx_Manifests : list Descriptor;
  idx_Annotations : gmap string string
}.

(** images.Image *)
Record Image : Type := mkImage {
  img_Name : string;
  img_Target : Descriptor;
  img_Labels : gmap string string
}.

(** images.Image{} *)
Definition zeroImage : Image :=
  {| img_Name := ""; img_Target := zeroDescriptor; img_Labels := ∅ |}.

(** containers.Container, the fields Checkpoint reads. *)
Record Container : Type := mkContainer {
  cr_Image : string;
  cr_RuntimeName : string;
  cr_SnapshotKey : string;
  cr_Snapshotter : string
}.

(** options.CheckpointOptions of the runc runtime. *)
Record CheckpointOptions : Type := mkCheckpointOptions {
  co_Exit : bool;
  co_ImagePath : string;
  co_WorkPath : string
}.

(** specs.Process, the fields an exec carries. *)
Record ProcessSpec : Type := mkProcessSpec {
  ps_Terminal : bool;
  ps_Args : list string;
  ps_Cwd : string
}.

(** A non-nil [interface{}] value, by dynamic type: what the type
    assertions of the source can tell apart. *)
Inductive Dyn : Type :=
| DynCheckpointOptions (o : CheckpointOptions)   (* *options.CheckpointOptions *)
| DynProcess (p : option ProcessSpec)            (* *specs.Process *)
| DynOther (typeName payload : string).

Record CheckpointTaskInfo : Type := mkCheckpointTaskInfo {
  cti_Name : string;
  cti_ParentCheckpoint : string;
  cti_Options : option Dyn;
  cti_runtime : string
}.

(** CheckpointTaskOpts: a function on a pointer to CheckpointTaskInfo that
    returns an error; the info is updated in place. *)
Definition CheckpointTaskOpts : Type :=
  CheckpointTaskInfo -> CheckpointTaskInfo * option error.

Record CheckpointTaskRequest : Type := mkCheckpointTaskRequest {
  cp_ContainerID : string;
  cp_ParentCheckpoint : string;
  cp_Options : option Any
}.

Record CheckpointTaskResponse : Type := mkCheckpointTaskResponse {
  cp_Descriptors : list ApiDescriptor
}.

(** ** Operations and programs *)

(** The answer of a fallible external call: the payload or the error. *)
Inductive reply (A : Type) : Type :=
| Done (a : A)
| Failed (e : error).
Arguments Done {A} a.
Arguments Failed {A} e.

Inductive Op : Type :=
(* t.client.TaskService() *)
| TaskGet (ContainerID ExecID : string)
| TaskWait (ContainerID : string)
| TaskDelete (ContainerID : string)
| TaskExec (request : ExecProcessRequest)
| TaskPause (ContainerID : string)
| TaskResume (ContainerID : string)
| TaskCheckpoint (request : CheckpointTaskRequest)
| TaskMetrics (Filters : list string)
(* t.client *)
| ClientDefaultRuntime
| ClientWithLease
| LeaseDone
| ContainerGet (id : string)
| ImageGet (name : string)
| ImageCreate (im : Image)
| CreateDiff (snapshotterName id reference : string)
| WriteIndex (index : Index) (id : string)
| TimeNow
(* cio.IO *)
| IOConfig (i : IO)
| IOCancel (i : IO)
| IOWait (i : IO)
| IOClose (i : IO)
(* the channel of Wait *)
| ChanSend (v : ExitStatus)
| ChanClose.

(** What each operation answers. *)
Definition resp (o : Op) : Type :=
  match o with
  | TaskGet _ _ => reply GetResponse
  | TaskWait _ => reply WaitResponse
  | TaskDelete _ => reply DeleteResponse
  | TaskExec _ => reply unit
  | TaskPause _ => option error
  | TaskResume _ => option error
  | TaskCheckpoint _ => reply CheckpointTaskResponse
  | TaskMetrics _ => reply MetricsResponse
  | ClientDefaultRuntime => reply string
  | ClientWithLease => reply unit
  | LeaseDone => unit
  | ContainerGet _ => reply Container
  | ImageGet _ => reply Image
  | ImageCreate _ => reply Image
  | CreateDiff _ _ _ => reply Descriptor
  | WriteIndex _ _ => reply Descriptor
  | TimeNow => Time
  | IOConfig _ => Config
  | IOCancel _ | IOWait _ | IOClose _ => unit
  | ChanSend _ | ChanClose => unit
  end.

(** A method body: it returns, panics, or issues an operation and goes on
    with the answer. *)
Inductive Prog (A : Type) : Type :=
| Ret (a : A)
| Panic
| Vis (o : Op) (k : resp o -> Prog A).
Arguments Ret {A} a.
Arguments Panic {A}.
Arguments Vis {A} o k.

Fixpoint bind {A B : Type} (p : Prog A) (f : A -> Prog B) : Prog B :=
  match p with
  | Ret a => f a
  | Panic => Panic
  | Vis o k => Vis o (fun r => bind (k r) f)
  end.

Definition call (o : Op) : Prog (resp o) := Vis o Ret.

(** [defer d] followed by [body]: [d] runs when the function exits, after
    the results are set, whether [body] returns ([Some] results) or panics
    ([None]). *)
Fixpoint defer {A : Type} (d : option A -> Prog unit) (body : Prog A) : Prog A :=
  match body with
  | Ret a => bind (d (Some a)) (fun _ => Ret a)
  | Panic => bind (d None) (fun _ => Panic)
  | Vis o k => Vis o (fun r => defer d (k r))
  end.

Notation "'let*' x ':=' p 'in' q" := (bind p (fun x => q))
  (at level 10, x pattern, p at level 100, q at level 200, only parsing).
Notation "p ';;;' q" := (bind p (fun _ => q))
  (at level 100, q at level 200, right associativity, only parsing).

(** An operation that was issued, with its answer. *)
Record Event : Type := Ev {
  ev_op : Op;
  ev_reply : resp ev_op
}.

(** The operations of a trace, without the answers. *)
Definition ops (tr : list Event) : list Op := map ev_op tr.

(** How a call ended. *)
Inductive Outcome (A : Type) : Type :=
| Returned (a : A)
| Panicked.
Arguments Returned {A} a.
Arguments Panicked {A}.

(** ** Running a program *)

Section Run.
Context {World : Type}.
(** The environment: what each operation answers in a world, and the
    world after it. *)
Variable handle : forall o : Op, World -> resp o * World.

(** The outcome, the final world, and the operations issued with their
    answers, in order. *)
Fixpoint run {A : Type} (p : Prog A) (w : World)
  : Outcome A * World * list Event :=
  match p with
  | Ret a => (Returned a, w, [])
  | Panic => (Panicked, w, [])
  | Vis o k =>
      let '(r, w1) := handle o w in
      let '(out, w2, tr) := run (k r) w1 in
      (out, w2, Ev o r :: tr)
  end.
End Run.

(** ** What the client imports *)

(** Functions and constants that the methods take from other packages;
    the methods are read for any choice of them.  [ToNative] is
    errgrpc.ToNative on a non-nil error, the normalization step that
    translates a transport error into a domain error kind; [FromTimestamp]
    is protobuf.FromTimestamp; [MarshalAnyToProto] is
    typeurl.MarshalAnyToProto; [RuntimePlugin] is
    plugins.RuntimePlugin.String() and [RuntimeRuncV2] is
    plugins.RuntimeRuncV2; [GOOS] and [GOARCH] are the platform of the
    build; [FormatTime] is Format(checkpointDateFormat) of time.Time. *)
Class Deps : Type := {
  ToNative : error -> error;
  FromTimestamp : option Timestamp -> Time;
  MarshalAnyToProto : Dyn -> reply Any;
  RuntimePlugin : string;
  RuntimeRuncV2 : string;
  GOOS : string;
  GOARCH : string;
  FormatTime : Time -> string
}.

(** errgrpc.ToNative on a nilable error: nil stays nil. *)
Definition ToNative_nilable `{Deps} (e : option error) : option error :=
  match e with
  | None => None
  | Some e => Some (ToNative e)
  end.

(** [err != nil && pred(err)] *)
Definition nonnil_and (pred : error -> bool) (err : option error) : bool :=
  match err with
  | Some e => pred e
  | None => false
  end.

(** ** The task *)

(** The struct [task]; the client and the container are reached through
    the operations. *)
Record task : Type := mkTask {
  t_io : option IO;
  t_id : string;
  t_pid : N
}.

(** The struct [process] that Exec returns. *)
Record process : Type := mkProcess {
  p_id : string;
  p_task : task;
  p_io : option IO
}.

(** ProcessDeleteOpts: a function of the context and the process that may
    do anything the client can do, and returns an error or nil. *)
Definition ProcessDeleteOpts : Type := task -> Prog (option error).

(** cio.Creator: the IO factory; it returns an IO (nil or not) and an
    error (nil or not). *)
Definition Creator : Type := string -> Prog (option IO * option error).

(** The range loop over [opts] that returns at the first error. *)
Fixpoint applyDeleteOpts (opts : list ProcessDeleteOpts) (t : task) : Prog (option error) :=
  match opts with
  | [] => Ret None
  | o :: rest =>
      let* e := o t in
      match e with
      | Some err => Ret (Some err)
      | None => applyDeleteOpts rest t
      end
  end.

(** The range loop over the checkpoint options, which returns at the first
    error. *)
Fixpoint applyCheckpointOpts (opts : list CheckpointTaskOpts)
         (i : CheckpointTaskInfo) : CheckpointTaskInfo * option error :=
  match opts with
  | [] => (i, None)
  | o :: rest =>
      let '(i, e) := o i in
      match e with
      | Some err => (i, Some err)
      | None => applyCheckpointOpts rest i
      end
  end.

(** ** The channel of Wait *)

(** A buffered channel of ExitStatus values: its capacity, the values
    sent and not yet received (oldest first), and whether it is closed. *)
Record Chan : Type := mkChan {
  ch_cap : nat;
  ch_buf : list ExitStatus;
  ch_closed : bool
}.

(** make(chan ExitStatus, n) *)
Definition make_chan (n : nat) : Chan :=
  {| ch_cap := n; ch_buf := []; ch_closed := false |}.

(** What a call of Wait leaves behind: the channel it returns, the body of
    the goroutine it started, and the error it returns. *)
Record Started : Type := mkStarted {
  w_chan : Chan;
  w_go : Prog unit;
  w_err : option error
}.

(** ** The rest of the task service *)

(** tasks.StartResponse *)
Record StartResponse : Type := mkStartResponse { start_Pid : N }.

(** KillInfo (fields read at lines 277-284) and KillOpts: a function of the
    context and a pointer to the info, which it updates in place. *)
Record KillInfo : Type := mkKillInfo {
  ki_All : bool;
  ki_ExecID : string
}.

Definition KillOpts : Type := KillInfo -> Prog (KillInfo * option error).

(** tasks.KillRequest; the signal is a uint32. *)
Record KillRequest : Type := mkKillRequest {
  kill_Signal : Z;
  kill_ContainerID : string;
  kill_ExecID : string;
  kill_All : bool
}.

(** The process entries of a tasks.ListPidsResponse. *)
Record ProcessDetails : Type := mkProcessDetails {
  pd_Pid : N;
  pd_Info : option Any
}.

Record ListPidsResponse : Type := mkListPidsResponse {
  pids_Processes : list ProcessDetails
}.

(** ProcessInfo, lines 74-80. *)
Record ProcessInfo : Type := mkProcessInfo {
  pi_Pid : N;
  pi_Info : option Any
}.

(** IOCloseInfo and IOCloserOpts, lines 103-108. *)
Record IOCloseInfo : Type := mkIOCloseInfo { ioc_Stdin : bool }.

Definition IOCloserOpts : Type := IOCloseInfo -> IOCloseInfo.

(** WithStdinCloser, lines 111-113. *)
Definition WithStdinCloser : IOCloserOpts := fun _ => {| ioc_Stdin := true |}.

Record CloseIORequest : Type := mkCloseIORequest {
  cio_ContainerID : string;
  cio_Stdin : bool
}.

Record ResizePtyRequest : Type := mkResizePtyRequest {
  rsz_ContainerID : string;
  rsz_Width : N;
  rsz_Height : N
}.

(** UpdateTaskInfo, lines 616-621; a nil map is [None]. *)
Record UpdateTaskInfo : Type := mkUpdateTaskInfo {
  uti_Resources : option Dyn;
  uti_Annotations : option (gmap string string)
}.

(** UpdateTaskOpts: a function of the context, the client and a pointer to
    the info. *)
Definition UpdateTaskOpts : Type :=
  UpdateTaskInfo -> Prog (UpdateTaskInfo * option error).

Record UpdateTaskRequest : Type := mkUpdateTaskRequest {
  upd_ContainerID : string;
  upd_Resources : option Any;
  upd_Annotations : option (gmap string string)
}.

(** The methods of the task service that the operations above do not
    cover, as the interface they are in the source: each is any program
    that answers with its payload or with an error (for the methods whose
    payload the client drops, with an error or nil). *)
Class TasksClient : Type := {
  svc_Start : string -> Prog (reply StartResponse);
  svc_Kill : KillRequest -> Prog (option error);
  svc_ListPids : string -> Prog (reply ListPidsResponse);
  svc_CloseIO : CloseIORequest -> Prog (option error);
  svc_ResizePty : ResizePtyRequest -> Prog (option error);
  svc_Update : UpdateTaskRequest -> Prog (option error)
}.

(** The range loop over the kill options, which returns at the first
    error. *)
Fixpoint applyKillOpts (opts : list KillOpts) (i : KillInfo)
  : Prog (KillInfo * option error) :=
  match opts with
  | [] => Ret (i, None)
  | o :: rest =>
      let* (i, e) := o i in
      match e with
      | Some err => Ret (i, Some err)
      | None => applyKillOpts rest i
      end
  end.

(** The range loop over the update options, which returns at the first
    error. *)
Fixpoint applyUpdateOpts (opts : list UpdateTaskOpts) (i : UpdateTaskInfo)
  : Prog (UpdateTaskInfo * option error) :=
  match opts with
  | [] => Ret (i, None)
  | o :: rest =>
      let* (i, e) := o i in
      match e with
      | Some err => Ret (i, Some err)
      | None => applyUpdateOpts rest i
      end
  end.

(** What LoadProcess returns behind the Process interface: the task itself
    or a process of it. *)
Inductive Process : Type :=
| ProcessTask (t : task)
| ProcessExec (p : process).

(** attachExistingIO(response, ioAttach) for a non-nil attach function
    [ioAttach]: any program that, from the get response, returns an IO (nil
    or not) and an error (nil or not). *)
Definition Attach : Type := GetResponse -> Prog (option IO * option error).

(** [ioAttach == nil] *)
Definition isNil {A : Type} (x : option A) : bool :=
  match x with
  | None => true
  | Some _ => false
  end.

(** The struct [Status], under a name that the method [task.Status] does
    not hide. *)
Abbreviation StatusStruct := Status (only parsing).

Module task.
Section Methods.
Context `{Deps}.

(** The runtime name under which Created counts as Stopped. *)
Definition windowsRuntime : string := RuntimePlugin +:+ ".windows".

(** task.Status, lines 314-330. *)
Definition Status (t : task) : Prog (Status * option error) :=
  let* r := call (TaskGet (t_id t) "") in
  match r with
  | Failed err => Ret (zeroStatus, Some (ToNative err))
  | Done r =>
      let status := ToLower (TaskStatus_String (pb_Status (get_Process r))) in
      let exitStatus := pb_ExitStatus (get_Process r) in
      let exitTime := FromTimestamp (pb_ExitedAt (get_Process r)) in
      Ret ({| st_Status := status;
              st_ExitStatus := exitStatus;
              st_ExitTime := exitTime |}, None)
  end.

(** task.Pause, lines 292-301. *)
Definition Pause (t : task) : Prog (option error) :=
  let* err := call (TaskPause (t_id t)) in
  Ret (ToNative_nilable err).

(** task.Resume, lines 303-312. *)
Definition Resume (t : task) : Prog (option error) :=
  let* err := call (TaskResume (t_id t)) in
  Ret (ToNative_nilable err).

(** task.Delete from line 376 on: what the method does once the status
    lookup has left [status]. *)
Definition deleteWithStatus (t : task) (status : StatusStruct)
  : Prog (option ExitStatus * option error) :=
  let* rt := call ClientDefaultRuntime in
  match rt with
  | Failed err =>
      Ret (None, Some (Errorf_w "failed to get default runtime: " err))
  | Done runtime =>
      let reject : Prog (option ExitStatus * option error) :=
        Ret (None,
             Some (Errorf_w ("task must be stopped before deletion: "
                             +:+ st_Status status +:+ ": ")
                            (ErrSentinel FailedPrecondition))) in
      let proceed : Prog (option ExitStatus * option error) :=
        (match t_io t with
         | Some io =>
             (if decide (runtime = windowsRuntime)
              then call (IOClose io) else Ret tt) ;;;
             call (IOCancel io) ;;;
             call (IOWait io)
         | None => Ret tt
         end) ;;;
        let* r := call (TaskDelete (t_id t)) in
        match r with
        | Failed err => Ret (None, Some (ToNative err))
        | Done r =>
            (* Only cleanup the IO after a successful Delete *)
            (match t_io t with
             | Some io => call (IOClose io)
             | None => Ret tt
             end) ;;;
            Ret (Some {| code := del_ExitStatus r;
                         exitedAt := FromTimestamp (del_ExitedAt r);
                         err := None |}, None)
        end in
      (* switch status.Status *)
      if decide (st_Status status = Stopped \/ st_Status status = Unknown
                 \/ st_Status status = "")
      then proceed
      else if decide (st_Status status = Created) then
        if decide (runtime = windowsRuntime) then proceed   (* break *)
        else if decide (t_pid t = 0%N) then proceed         (* break *)
        else reject                                         (* fallthrough *)
      else reject                                           (* default *)
  end.

(** task.Delete, lines 361-422. *)
Definition Delete (t : task) (opts : list ProcessDeleteOpts)
  : Prog (option ExitStatus * option error) :=
  let* oerr := applyDeleteOpts opts t in
  match oerr with
  | Some err => Ret (None, Some err)
  | None =>
      let* (status, err) := Status t in
      if nonnil_and IsNotFound err then Ret (None, err)
      else deleteWithStatus t status
  end.

(** The goroutine that task.Wait starts, lines 334-354; [c] is the
    channel the operations [ChanSend] and [ChanClose] act on. *)
Definition Wait_goroutine (t : task) : Prog unit :=
  defer (fun _ => call ChanClose)                       (* defer close(c) *)
    (let* r := call (TaskWait (t_id t)) in
     match r with
     | Failed err =>
         call (ChanSend {| code := UnknownExitStatus;
                           exitedAt := zeroTime;
                           err := Some err |})          (* return *)
     | Done r =>
         call (ChanSend {| code := wait_ExitStatus r;
                           exitedAt := FromTimestamp (wait_ExitedAt r);
                           err := None |})
     end).

(** task.Wait, lines 332-356: makes the channel, starts the goroutine and
    returns the channel and a nil error at once. *)
Definition Wait (t : task) : Started :=
  {| w_chan := make_chan 1;
     w_go := Wait_goroutine t;
     w_err := None |}.

(** task.Exec, lines 424-468. *)
Definition Exec (t : task) (id : string) (spec : option ProcessSpec)
           (ioCreate : Creator) : Prog (option process * option error) :=
  if decide (id = "") then
    Ret (None, Some (Errorf_w "exec id must not be empty: "
                              (ErrSentinel InvalidArgument)))
  else
    let* (i, err) := ioCreate id in
    match err with
    | Some err => Ret (None, Some err)
    | None =>
        defer
          (fun results =>
             (* if retErr != nil && i != nil *)
             match results, i with
             | Some (_, Some _), Some io =>
                 call (IOCancel io) ;;; call (IOClose io)
             | _, _ => Ret tt
             end)
          (match MarshalAnyToProto (DynProcess spec) with
           | Failed err => Ret (None, Some err)
           | Done pSpec =>
               match i with
               | None => Panic        (* i.Config() on a nil interface *)
               | Some io =>
                   let* cfg := call (IOConfig io) in
                   let request :=
                     {| exec_ContainerID := t_id t;
                        exec_ExecID := id;
                        exec_Terminal := cfg_Terminal cfg;
                        exec_Stdin := cfg_Stdin cfg;
                        exec_Stdout := cfg_Stdout cfg;
                        exec_Stderr := cfg_Stderr cfg;
                        exec_Spec := Some pSpec |} in
                   let* r := call (TaskExec request) in
                   match r with
                   | Failed err =>
                       call (IOCancel io) ;;;
                       call (IOWait io) ;;;
                       call (IOClose io) ;;;
                       Ret (None, Some (ToNative err))
                   | Done _ =>
                       Ret (Some {| p_id := id; p_task := t; p_io := i |},
                            None)
                   end
               end
           end)
    end.

(** task.Metrics, lines 682-701. *)
Definition Metrics (t : task) : Prog (option Metric * option error) :=
  let* response := call (TaskMetrics ["id==" +:+ t_id t]) in
  match response with
  | Failed err => Ret (None, Some (ToNative err))
  | Done response =>
      match Metrics_ response with
      | [] =>
          let* (_, err) := Status t in
          if nonnil_and IsNotFound err then Ret (None, err)
          else Ret (None, Some (ErrNew "no metrics received"))
      | m :: _ => Ret (Some m, None)
      end
  end.

(** task.checkpointTask, lines 703-723; the index is updated in place and
    comes back with the error. *)
Definition checkpointTask (t : task) (index : Index)
           (request : CheckpointTaskRequest) : Prog (Index * option error) :=
  let* response := call (TaskCheckpoint request) in
  match response with
  | Failed err => Ret (index, Some (ToNative err))
  | Done response =>
      let added :=
        map (fun d =>
               {| desc_MediaType := api_MediaType d;
                  desc_Digest := api_Digest d;
                  desc_Size := api_Size d;
                  desc_Platform :=
                    Some {| plat_OS := GOOS; plat_Architecture := GOARCH |};
                  desc_Annotations := api_Annotations d |})
            (cp_Descriptors response) in
      Ret ({| idx_SchemaVersion := idx_SchemaVersion index;
              idx_Manifests := idx_Manifests index ++ added;
              idx_Annotations := idx_Annotations index |}, None)
  end.

(** task.checkpointRWSnapshot, lines 725-739. *)
Definition checkpointRWSnapshot (t : task) (index : Index)
           (snapshotterName id : string) : Prog (Index * option error) :=
  let* rw := call (CreateDiff snapshotterName id ("checkpoint-rw-" +:+ id)) in
  match rw with
  | Failed err => Ret (index, Some err)
  | Done rw =>
      let rw :=
        {| desc_MediaType := desc_MediaType rw;
           desc_Digest := desc_Digest rw;
           desc_Size := desc_Size rw;
           desc_Platform :=
             Some {| plat_OS := GOOS; plat_Architecture := GOARCH |};
           desc_Annotations := desc_Annotations rw |} in
      Ret ({| idx_SchemaVersion := idx_SchemaVersion index;
              idx_Manifests := idx_Manifests index ++ [rw];
              idx_Annotations := idx_Annotations index |}, None)
  end.

(** task.checkpointImage, lines 741-751. *)
Definition checkpointImage (t : task) (index : Index) (image : string)
  : Prog (Index * option error) :=
  if decide (image = "") then
    Ret (index, Some (ErrNew "cannot checkpoint image with empty name"))
  else
    let* ir := call (ImageGet image) in
    match ir with
    | Failed err => Ret (index, Some err)
    | Done ir =>
        Ret ({| idx_SchemaVersion := idx_SchemaVersion index;
                idx_Manifests := idx_Manifests index ++ [img_Target ir];
                idx_Annotations := idx_Annotations index |}, None)
    end.

(** isCheckpointPathExist, lines 776-790. *)
Definition isCheckpointPathExist (runtime : string) (v : option Dyn) : bool :=
  match v with
  | None => false
  | Some v =>
      if decide (runtime = RuntimeRuncV2) then
        match v with
        | DynCheckpointOptions opts =>
            if decide (co_ImagePath opts <> "") then true else false
        | _ => false
        end
      else false
  end.

(** task.Checkpoint from line 572 on: the capture steps, run while the
    task is paused. *)
Definition checkpointSteps (t : task) (cr : Container)
           (i : CheckpointTaskInfo) (request : CheckpointTaskRequest)
  : Prog (option Image * option error) :=
  let index :=
    {| idx_SchemaVersion := 2; idx_Manifests := [];
       idx_Annotations := ∅ |} in
  let* (index, err) := checkpointTask t index request in
  match err with
  | Some err => Ret (None, Some err)
  | None =>
  (* if checkpoint image path passed, jump checkpoint image,
     return an empty image *)
  if isCheckpointPathExist (cr_RuntimeName cr) (cti_Options i) then
    Ret (Some zeroImage, None)
  else
  let* (index, err) :=
    (if decide (cr_Image cr <> "") then
       let* (index, err) := checkpointImage t index (cr_Image cr) in
       match err with
       | Some err => Ret (index, Some err)
       | None =>
           Ret ({| idx_SchemaVersion := idx_SchemaVersion index;
                   idx_Manifests := idx_Manifests index;
                   idx_Annotations :=
                     <["image.name" := cr_Image cr]>
                       (idx_Annotations index) |}, None)
       end
     else Ret (index, None)) in
  match err with
  | Some err => Ret (None, Some err)
  | None =>
  let* (index, err) :=
    (if decide (cr_SnapshotKey cr <> "") then
       checkpointRWSnapshot t index (cr_Snapshotter cr) (cr_SnapshotKey cr)
     else Ret (index, None)) in
  match err with
  | Some err => Ret (None, Some err)
  | None =>
  let* desc := call (WriteIndex index (t_id t)) in
  match desc with
  | Failed err => Ret (None, Some err)
  | Done desc =>
  let im :=
    {| img_Name := cti_Name i;
       img_Target := desc;
       img_Labels := {["containerd.io/checkpoint" := "true"]} |} in
  let* im := call (ImageCreate im) in
  match im with
  | Failed err => Ret (None, Some err)
  | Done im => Ret (Some im, None)
  end end end end end.

(** task.Checkpoint from line 559 on: the status lookup, the pause with
    its deferred resume, and the capture steps. *)
Definition checkpointPaused (t : task) (cr : Container)
           (i : CheckpointTaskInfo) (request : CheckpointTaskRequest)
  : Prog (option Image * option error) :=
  let* (status, err) := Status t in
  match err with
  | Some err => Ret (None, Some err)
  | None =>
      if decide (st_Status status <> Paused) then
        (* make sure we pause it and resume after all other filesystem
           operations are completed *)
        let* perr := Pause t in
        match perr with
        | Some err => Ret (None, Some err)
        | None =>
            defer (fun _ => Resume t ;;; Ret tt)      (* defer t.Resume(ctx) *)
                  (checkpointSteps t cr i request)
        end
      else checkpointSteps t cr i request
  end.

(** task.Checkpoint, lines 524-613. *)
Definition Checkpoint (t : task) (opts : list CheckpointTaskOpts)
  : Prog (option Image * option error) :=
  let* lease := call ClientWithLease in
  match lease with
  | Failed err => Ret (None, Some err)
  | Done _ =>
  defer (fun _ => call LeaseDone) (                   (* defer done(ctx) *)
  let* cr := call (ContainerGet (t_id t)) in
  match cr with
  | Failed err => Ret (None, Some err)
  | Done cr =>
  let request :=
    {| cp_ContainerID := t_id t; cp_ParentCheckpoint := "";
       cp_Options := None |} in
  let i :=
    {| cti_Name := ""; cti_ParentCheckpoint := ""; cti_Options := None;
       cti_runtime := cr_RuntimeName cr |} in
  let '(i, oerr) := applyCheckpointOpts opts i in
  match oerr with
  | Some err => Ret (None, Some err)
  | None =>
  (* set a default name *)
  let* i :=
    (if decide (cti_Name i = "") then
       let* now := call TimeNow in
       Ret {| cti_Name := checkpointNamePrefix +:+ t_id t +:+ ":"
                          +:+ FormatTime now;
              cti_ParentCheckpoint := cti_ParentCheckpoint i;
              cti_Options := cti_Options i;
              cti_runtime := cti_runtime i |}
     else Ret i) in
  let request :=
    {| cp_ContainerID := cp_ContainerID request;
       cp_ParentCheckpoint := cti_ParentCheckpoint i;
       cp_Options := cp_Options request |} in
  match
    (match cti_Options i with
     | Some o =>
         match MarshalAnyToProto o with
         | Failed err => Failed err
         | Done o =>
             Done {| cp_ContainerID := cp_ContainerID request;
                     cp_ParentCheckpoint := cp_ParentCheckpoint request;
                     cp_Options := Some o |}
         end
     | None => Done request
     end)
  with
  | Failed err => Ret (None, Some err)
  | Done request => checkpointPaused t cr i request
  end end end)
  end.

Context `{TasksClient}.

(** task.ID and task.Pid, lines 234-241. *)
Definition ID (t : task) : string := t_id t.
Definition Pid (t : task) : N := t_pid t.

(** task.IO, lines 505-507. *)
Definition IO (t : task) : option IO := t_io t.

(** task.Start, lines 243-261; the task comes back with the pid the method
    has stored in it. *)
Definition Start (t : task) : Prog (task * option error) :=
  let* r := svc_Start (t_id t) in
  match r with
  | Failed err =>
      (match t_io t with
       | Some io => call (IOCancel io) ;;; call (IOClose io)
       | None => Ret tt
       end) ;;;
      Ret (t, Some (ToNative err))
  | Done r =>
      Ret ({| t_io := t_io t; t_id := t_id t; t_pid := start_Pid r |}, None)
  end.

(** task.Kill, lines 263-290; [s] is the signal, an int. *)
Definition Kill (t : task) (s : Z) (opts : list KillOpts) : Prog (option error) :=
  let* (i, oerr) := applyKillOpts opts {| ki_All := false; ki_ExecID := "" |} in
  match oerr with
  | Some err => Ret (Some err)
  | None =>
      let* err :=
        svc_Kill {| kill_Signal := s mod 2 ^ 32;       (* uint32(s) *)
                    kill_ContainerID := t_id t;
                    kill_ExecID := ki_ExecID i;
                    kill_All := ki_All i |} in
      match err with
      | Some err => Ret (Some (ToNative err))
      | None => Ret None
      end
  end.

(** task.Pids, lines 470-485. *)
Definition Pids (t : task) : Prog (list ProcessInfo * option error) :=
  let* response := svc_ListPids (t_id t) in
  match response with
  | Failed err => Ret ([], Some (ToNative err))
  | Done response =>
      let processList :=
        fold_left
          (fun processList p =>
             processList ++ [{| pi_Pid := pd_Pid p; pi_Info := pd_Info p |}])
          (pids_Processes response) [] in
      Ret (processList, None)
  end.

(** task.CloseIO, lines 487-503. *)
Definition CloseIO (t : task) (opts : list IOCloserOpts) : Prog (option error) :=
  let i := fold_left (fun i o => o i) opts {| ioc_Stdin := false |} in
  let r := {| cio_ContainerID := t_id t; cio_Stdin := ioc_Stdin i |} in
  let* err := svc_CloseIO r in
  Ret (ToNative_nilable err).

(** task.Resize, lines 509-520. *)
Definition Resize (t : task) (w h : N) : Prog (option error) :=
  let* err :=
    svc_ResizePty {| rsz_ContainerID := t_id t; rsz_Width := w;
                     rsz_Height := h |} in
  Ret (ToNative_nilable err).

(** task.Update, lines 626-652; typeurl.MarshalProto after
    typeurl.MarshalAny is [MarshalAnyToProto]. *)
Definition Update (t : task) (opts : list UpdateTaskOpts) : Prog (option error) :=
  let request :=
    {| upd_ContainerID := t_id t; upd_Resources := None;
       upd_Annotations := None |} in
  let* (i, oerr) :=
    applyUpdateOpts opts {| uti_Resources := None; uti_Annotations := None |} in
  match oerr with
  | Some err => Ret (Some err)
  | None =>
      match
        (match uti_Resources i with
         | Some resources =>
             match MarshalAnyToProto resources with
             | Failed err => Failed err
             | Done r =>
                 Done {| upd_ContainerID := upd_ContainerID request;
                         upd_Resources := Some r;
                         upd_Annotations := upd_Annotations request |}
             end
         | None => Done request
         end)
      with
      | Failed err => Ret (Some err)
      | Done request =>
          let request :=
            match uti_Annotations i with
            | Some annotations =>
                {| upd_ContainerID := upd_ContainerID request;
                   upd_Resources := upd_Resources request;
                   upd_Annotations := Some annotations |}
            | None => request
            end in
          let* err := svc_Update request in
          Ret (ToNative_nilable err)
      end
  end.

(** task.LoadProcess, lines 654-680. *)
Definition LoadProcess (t : task) (id : string) (ioAttach : option Attach)
  : Prog (option Process * option error) :=
  if bool_decide (id = t_id t) && isNil ioAttach then
    Ret (Some (ProcessTask t), None)
  else
    let* response := call (TaskGet (t_id t) id) in
    match response with
    | Failed err =>
        let err := ToNative err in
        if IsNotFound err then
          Ret (None, Some (Errorf_w "no running process found: " err))
        else Ret (None, Some err)
    | Done response =>
        let* (i, err) :=
          (match ioAttach with
           | Some attach => attach response
           | None => Ret (None, None)
           end) in
        match err with
        | Some err => Ret (None, Some err)
        | None =>
            Ret (Some (ProcessExec {| p_id := id; p_task := t; p_io := i |}),
                 None)
        end
    end.

End Methods.
End task.

(** ** Reading a trace *)

Definition is_TaskDelete (o : Op) : bool :=
  match o with TaskDelete _ => true | _ => false end.

Definition is_IOClose (o : Op) : bool :=
  match o with IOClose _ => true | _ => false end.

(** No operation of the trace satisfies [f]. *)
Definition never (f : Op -> bool) (tr : list Event) : Prop :=
  existsb f (ops tr) = false.

(** The world after the operations of [tr] have been answered in turn. *)
Definition world_after {World : Type}
           (handle : forall o : Op, World -> resp o * World)
           (tr : list Event) (w : World) : World :=
  fold_left (fun w o => snd (handle o w)) (ops tr) w.

(** The calls Delete makes on the task's IO before the delete RPC. *)
Definition ioBeforeDelete `{Deps} (t : task) (runtime : string) : list Event :=
  match t_io t with
  | Some io =>
      (if decide (runtime = task.windowsRuntime)
       then [Ev (IOClose io) tt] else [])
      ++ [Ev (IOCancel io) tt; Ev (IOWait io) tt]
  | None => []
  end.

(** The call Delete makes on the task's IO after a successful delete RPC. *)
Definition ioAfterDelete (t : task) : list Event :=
  match t_io t with
  | Some io => [Ev (IOClose io) tt]
  | None => []
  end.

(** The test of the switch at line 381 that lets Delete go on. *)
Definition deletable `{Deps} (t : task) (status : ProcessStatus)
           (runtime : string) : Prop :=
  status = Stopped \/ status = Unknown \/ status = "" \/
  (status = Created /\ (runtime = task.windowsRuntime \/ t_pid t = 0%N)).

(** The error with which Delete refuses a task in status [status]. *)
Definition deleteRejection (status : ProcessStatus) : error :=
  Errorf_w ("task must be stopped before deletion: " +:+ status +:+ ": ")
           (ErrSentinel FailedPrecondition).

(** ** A scripted environment

    A world that answers every operation from a fixed table, for running the
    methods on concrete inputs. *)
Record Script : Type := mkScript {
  s_Get : reply GetResponse;
  s_Wait : reply WaitResponse;
  s_Delete : reply DeleteResponse;
  s_Exec : reply unit;
  s_Pause : option error;
  s_Resume : option error;
  s_Checkpoint : reply CheckpointTaskResponse;
  s_Metrics : reply MetricsResponse;
  s_DefaultRuntime : reply string;
  s_WithLease : reply unit;
  s_ContainerGet : reply Container;
  s_ImageGet : reply Image;
  s_ImageCreate : reply Image;
  s_CreateDiff : reply Descriptor;
  s_WriteIndex : reply Descriptor;
  s_Now : Time;
  s_Config : Config
}.

Definition scripted (o : Op) (s : Script) : resp o * Script :=
  match o return resp o * Script with
  | TaskGet _ _ => (s_Get s, s)
  | TaskWait _ => (s_Wait s, s)
  | TaskDelete _ => (s_Delete s, s)
  | TaskExec _ => (s_Exec s, s)
  | TaskPause _ => (s_Pause s, s)
  | TaskResume _ => (s_Resume s, s)
  | TaskCheckpoint _ => (s_Checkpoint s, s)
  | TaskMetrics _ => (s_Metrics s, s)
  | ClientDefaultRuntime => (s_DefaultRuntime s, s)
  | ClientWithLease => (s_WithLease s, s)
  | LeaseDone => (tt, s)
  | ContainerGet _ => (s_ContainerGet s, s)
  | ImageGet _ => (s_ImageGet s, s)
  | ImageCreate _ => (s_ImageCreate s, s)
  | CreateDiff _ _ _ => (s_CreateDiff s, s)
  | WriteIndex _ _ => (s_WriteIndex s, s)
  | TimeNow => (s_Now s, s)
  | IOConfig _ => (s_Config s, s)
  | IOCancel _ | IOWait _ | IOClose _ => (tt, s)
  | ChanSend _ | ChanClose => (tt, s)
  end.

(** A transport status code becomes the domain kind of the same name; the
    codes are those of the transport (5 not found, 6 already exists,
    3 invalid argument, 9 failed precondition, 14 unavailable,
    13 internal). *)
Definition sampleToNative (e : error) : error :=
  match e with
  | ErrTransport 5 desc => ErrWrap desc (ErrSentinel NotFound)
  | ErrTransport 6 desc => ErrWrap desc (ErrSentinel AlreadyExists)
  | ErrTransport 3 desc => ErrWrap desc (ErrSentinel InvalidArgument)
  | ErrTransport 9 desc => ErrWrap desc (ErrSentinel FailedPrecondition)
  | ErrTransport 14 desc => ErrWrap desc (ErrSentinel Unavailable)
  | ErrTransport 13 desc => ErrWrap desc (ErrSentinel Internal)
  | _ => e
  end.

Definition sampleDeps : Deps := {|
  ToNative := sampleToNative;
  FromTimestamp := fun ts =>
    match ts with
    | Some (s, n) => (s * 1000000000 + n)%Z
    | None => zeroTime
    end;
  MarshalAnyToProto := fun v =>
    match v with
    | DynCheckpointOptions o =>
        Done {| any_TypeUrl := "containerd.runc.v1.CheckpointOptions";
                any_Value := co_ImagePath o |}
    | DynProcess (Some p) =>
        Done {| any_TypeUrl := "types.containerd.io/opencontainers/runtime-spec/1/Process";
                any_Value := ps_Cwd p |}
    | DynProcess None => Failed (ErrNew "nil process spec")
    | DynOther n v => Done {| any_TypeUrl := n; any_Value := v |}
    end;
  RuntimePlugin := "io.containerd.runtime.v1";
  RuntimeRuncV2 := "io.containerd.runc.v2";
  GOOS := "linux";
  GOARCH := "amd64";
  FormatTime := fun _ => "01-02-2006-15:04:05"
|}.

Definition sampleScript : Script := {|
  s_Get := Done {| get_Process := {| pb_Status := RUNNING; pb_ExitStatus := 0%N;
                                     pb_ExitedAt := None |} |};
  s_Wait := Done {| wait_ExitStatus := 0%N; wait_ExitedAt := None |};
  s_Delete := Done {| del_ExitStatus := 7%N; del_ExitedAt := Some (5, 0)%Z |};
  s_Exec := Done tt;
  s_Pause := None;
  s_Resume := None;
  s_Checkpoint := Done {| cp_Descriptors := [] |};
  s_Metrics := Done {| Metrics_ := [] |};
  s_DefaultRuntime := Done "io.containerd.runc.v2";
  s_WithLease := Done tt;
  s_ContainerGet := Done {| cr_Image := "docker.io/library/busybox:latest";
                            cr_RuntimeName := "io.containerd.runc.v2";
                            cr_SnapshotKey := "c1";
                            cr_Snapshotter := "overlayfs" |};
  s_ImageGet := Done zeroImage;
  s_ImageCreate := Done zeroImage;
  s_CreateDiff := Done zeroDescriptor;
  s_WriteIndex := Done zeroDescriptor;
  s_Now := 0%Z;
  s_Config := {| cfg_Terminal := false; cfg_Stdin := "in"; cfg_Stdout := "out";
                 cfg_Stderr := "err" |}
|}.

(** The script [s] with one answer replaced. *)
Definition with_Get (v : reply GetResponse) (s : Script) : Script :=
  {| s_Get := v; s_Wait := s_Wait s; s_Delete := s_Delete s; s_Exec :=
     s_Exec s; s_Pause := s_Pause s; s_Resume := s_Resume s; s_Checkpoint :=
     s_Checkpoint s; s_Metrics := s_Metrics s; s_DefaultRuntime :=
     s_DefaultRuntime s; s_WithLease := s_WithLease s; s_ContainerGet :=
     s_ContainerGet s; s_ImageGet := s_ImageGet s; s_ImageCreate :=
     s_ImageCreate s; s_CreateDiff := s_CreateDiff s; s_WriteIndex :=
     s_WriteIndex s; s_Now := s_Now s; s_Config := s_Config s |}.

Definition with_Wait (v : reply WaitResponse) (s : Script) : Script :=
  {| s_Get := s_Get s; s_Wait := v; s_Delete := s_Delete s; s_Exec := s_Exec
     s; s_Pause := s_Pause s; s_Resume := s_Resume s; s_Checkpoint :=
     s_Checkpoint s; s_Metrics := s_Metrics s; s_DefaultRuntime :=
     s_DefaultRuntime s; s_WithLease := s_WithLease s; s_ContainerGet :=
     s_ContainerGet s; s_ImageGet := s_ImageGet s; s_ImageCreate :=
     s_ImageCreate s; s_CreateDiff := s_CreateDiff s; s_WriteIndex :=
     s_WriteIndex s; s_Now := s_Now s; s_Config := s_Config s |}.

Definition with_Delete (v : reply DeleteResponse) (s : Script) : Script :=
  {| s_Get := s_Get s; s_Wait := s_Wait s; s_Delete := v; s_Exec := s_Exec
     s; s_Pause := s_Pause s; s_Resume := s_Resume s; s_Checkpoint :=
     s_Checkpoint s; s_Metrics := s_Metrics s; s_DefaultRuntime :=
     s_DefaultRuntime s; s_WithLease := s_WithLease s; s_ContainerGet :=
     s_ContainerGet s; s_ImageGet := s_ImageGet s; s_ImageCreate :=
     s_ImageCreate s; s_CreateDiff := s_CreateDiff s; s_WriteIndex :=
     s_WriteIndex s; s_Now := s_Now s; s_Config := s_Config s |}.

Definition with_Exec (v : reply unit) (s : Script) : Script :=
  {| s_Get := s_Get s; s_Wait := s_Wait s; s_Delete := s_Delete s; s_Exec :=
     v; s_Pause := s_Pause s; s_Resume := s_Resume s; s_Checkpoint :=
     s_Checkpoint s; s_Metrics := s_Metrics s; s_DefaultRuntime :=
     s_DefaultRuntime s; s_WithLease := s_WithLease s; s_ContainerGet :=
     s_ContainerGet s; s_ImageGet := s_ImageGet s; s_ImageCreate :=
     s_ImageCreate s; s_CreateDiff := s_CreateDiff s; s_WriteIndex :=
     s_WriteIndex s; s_Now := s_Now s; s_Config := s_Config s |}.

Definition with_Pause (v : option error) (s : Script) : Script :=
  {| s_Get := s_Get s; s_Wait := s_Wait s; s_Delete := s_Delete s; s_Exec :=
     s_Exec s; s_Pause := v; s_Resume := s_Resume s; s_Checkpoint :=
     s_Checkpoint s; s_Metrics := s_Metrics s; s_DefaultRuntime :=
     s_DefaultRuntime s; s_WithLease := s_WithLease s; s_ContainerGet :=
     s_ContainerGet s; s_ImageGet := s_ImageGet s; s_ImageCreate :=
     s_ImageCreate s; s_CreateDiff := s_CreateDiff s; s_WriteIndex :=
     s_WriteIndex s; s_Now := s_Now s; s_Config := s_Config s |}.

Definition with_Checkpoint (v : reply CheckpointTaskResponse) (s : Script) : Script :=
  {| s_Get := s_Get s; s_Wait := s_Wait s; s_Delete := s_Delete s; s_Exec :=
     s_Exec s; s_Pause := s_Pause s; s_Resume := s_Resume s; s_Checkpoint :=
     v; s_Metrics := s_Metrics s; s_DefaultRuntime := s_DefaultRuntime s;
     s_WithLease := s_WithLease s; s_ContainerGet := s_ContainerGet s;
     s_ImageGet := s_ImageGet s; s_ImageCreate := s_ImageCreate s;
     s_CreateDiff := s_CreateDiff s; s_WriteIndex := s_WriteIndex s; s_Now
     := s_Now s; s_Config := s_Config s |}.

Definition with_Metrics (v : reply MetricsResponse) (s : Script) : Script :=
  {| s_Get := s_Get s; s_Wait := s_Wait s; s_Delete := s_Delete s; s_Exec :=
     s_Exec s; s_Pause := s_Pause s; s_Resume := s_Resume s; s_Checkpoint :=
     s_Checkpoint s; s_Metrics := v; s_DefaultRuntime := s_DefaultRuntime s;
     s_WithLease := s_WithLease s; s_ContainerGet := s_ContainerGet s;
     s_ImageGet := s_ImageGet s; s_ImageCreate := s_ImageCreate s;
     s_CreateDiff := s_CreateDiff s; s_WriteIndex := s_WriteIndex s; s_Now
     := s_Now s; s_Config := s_Config s |}.

Definition with_DefaultRuntime (v : reply string) (s : Script) : Script :=
  {| s_Get := s_Get s; s_Wait := s_Wait s; s_Delete := s_Delete s; s_Exec :=
     s_Exec s; s_Pause := s_Pause s; s_Resume := s_Resume s; s_Checkpoint :=
     s_Checkpoint s; s_Metrics := s_Metrics s; s_DefaultRuntime := v;
     s_WithLease := s_WithLease s; s_ContainerGet := s_ContainerGet s;
     s_ImageGet := s_ImageGet s; s_ImageCreate := s_ImageCreate s;
     s_CreateDiff := s_CreateDiff s; s_WriteIndex := s_WriteIndex s; s_Now
     := s_Now s; s_Config := s_Config s |}.

Definition with_ContainerGet (v : reply Container) (s : Script) : Script :=
  {| s_Get := s_Get s; s_Wait := s_Wait s; s_Delete := s_Delete s; s_Exec :=
     s_Exec s; s_Pause := s_Pause s; s_Resume := s_Resume s; s_Checkpoint :=
     s_Checkpoint s; s_Metrics := s_Metrics s; s_DefaultRuntime :=
     s_DefaultRuntime s; s_WithLease := s_WithLease s; s_ContainerGet := v;
     s_ImageGet := s_ImageGet s; s_ImageCreate := s_ImageCreate s;
     s_CreateDiff := s_CreateDiff s; s_WriteIndex := s_WriteIndex s; s_Now
     := s_Now s; s_Config := s_Config s |}.

Definition with_ImageGet (v : reply Image) (s : Script) : Script :=
  {| s_Get := s_Get s; s_Wait := s_Wait s; s_Delete := s_Delete s; s_Exec :=
     s_Exec s; s_Pause := s_Pause s; s_Resume := s_Resume s; s_Checkpoint :=
     s_Checkpoint s; s_Metrics := s_Metrics s; s_DefaultRuntime :=
     s_DefaultRuntime s; s_WithLease := s_WithLease s; s_ContainerGet :=
     s_ContainerGet s; s_ImageGet := v; s_ImageCreate := s_ImageCreate s;
     s_CreateDiff := s_CreateDiff s; s_WriteIndex := s_WriteIndex s; s_Now
     := s_Now s; s_Config := s_Config s |}.

Definition with_ImageCreate (v : reply Image) (s : Script) : Script :=
  {| s_Get := s_Get s; s_Wait := s_Wait s; s_Delete := s_Delete s; s_Exec :=
     s_Exec s; s_Pause := s_Pause s; s_Resume := s_Resume s; s_Checkpoint :=
     s_Checkpoint s; s_Metrics := s_Metrics s; s_DefaultRuntime :=
     s_DefaultRuntime s; s_WithLease := s_WithLease s; s_ContainerGet :=
     s_ContainerGet s; s_ImageGet := s_ImageGet s; s_ImageCreate := v;
     s_CreateDiff := s_CreateDiff s; s_WriteIndex := s_WriteIndex s; s_Now
     := s_Now s; s_Config := s_Config s |}.

Definition with_CreateDiff (v : reply Descriptor) (s : Script) : Script :=
  {| s_Get := s_Get s; s_Wait := s_Wait s; s_Delete := s_Delete s; s_Exec :=
     s_Exec s; s_Pause := s_Pause s; s_Resume := s_Resume s; s_Checkpoint :=
     s_Checkpoint s; s_Metrics := s_Metrics s; s_DefaultRuntime :=
     s_DefaultRuntime s; s_WithLease := s_WithLease s; s_ContainerGet :=
     s_ContainerGet s; s_ImageGet := s_ImageGet s; s_ImageCreate :=
     s_ImageCreate s; s_CreateDiff := v; s_WriteIndex := s_WriteIndex s;
     s_Now := s_Now s; s_Config := s_Config s |}.

Definition with_WriteIndex (v : reply Descriptor) (s : Script) : Script :=
  {| s_Get := s_Get s; s_Wait := s_Wait s; s_Delete := s_Delete s; s_Exec :=
     s_Exec s; s_Pause := s_Pause s; s_Resume := s_Resume s; s_Checkpoint :=
     s_Checkpoint s; s_Metrics := s_Metrics s; s_DefaultRuntime :=
     s_DefaultRuntime s; s_WithLease := s_WithLease s; s_ContainerGet :=
     s_ContainerGet s; s_ImageGet := s_ImageGet s; s_ImageCreate :=
     s_ImageCreate s; s_CreateDiff := s_CreateDiff s; s_WriteIndex := v;
     s_Now := s_Now s; s_Config := s_Config s |}.

Definition sampleTask : task :=
  {| t_io := Some (mkIO 1); t_id := "c1"; t_pid := 42%N |}.

(** A task without an IO handle, never started. *)
Definition freshTask : task :=
  {| t_io := None; t_id := "c2"; t_pid := 0%N |}.

Definition stoppedProcess : GetResponse :=
  {| get_Process := {| pb_Status := STOPPED; pb_ExitStatus := 7%N;
                       pb_ExitedAt := Some (5, 0)%Z |} |}.

Definition createdProcess : GetResponse :=
  {| get_Process := {| pb_Status := CREATED; pb_ExitStatus := 0%N;
                       pb_ExitedAt := None |} |}.

Definition pausedProcess : GetResponse :=
  {| get_Process := {| pb_Status := PAUSED; pb_ExitStatus := 0%N;
                       pb_ExitedAt := None |} |}.

(** The windows-variant runtime name under [sampleDeps]. *)
Definition sampleWindows : string := "io.containerd.runtime.v1.windows".

(** ** The goroutine of Wait and the caller

    The goroutine and the caller share the channel only.  A state holds what
    is left of the goroutine, the channel, and the values the caller has
    received so far; a schedule says whose turn it is. *)
Record Sys : Type := mkSys {
  producer : Prog unit;
  chan : Chan;
  received : list ExitStatus
}.

(** The state right after the call of Wait has returned. *)
Definition start (st : Started) : Sys :=
  {| producer := w_go st; chan := w_chan st; received := [] |}.

Inductive Move : Type :=
| Moved (s : Sys)   (* the goroutine took a step *)
| Blocked           (* the goroutine waits for room in the channel *)
| Finished          (* the goroutine has returned *)
| Crashed.          (* the goroutine panicked *)

Inductive Turn : Type := Producer | Consumer.

Global Instance Turn_eq_dec : EqDecision Turn.
Proof. solve_decision. Defined.

Section Goroutine.
(** What the calls other than the channel operations answer. *)
Variable answer : forall o : Op, resp o.

(** One step of the goroutine.  A send needs an open channel with room
    (a send on a closed channel panics, one on a full channel blocks); a
    close needs an open channel. *)
Definition producer_step (s : Sys) : Move :=
  match producer s with
  | Ret _ => Finished
  | Panic => Crashed
  | Vis o k =>
      match o as o' return (resp o' -> Prog unit) -> Move with
      | ChanSend v => fun k =>
          if ch_closed (chan s) then Crashed
          else if decide (length (ch_buf (chan s)) < ch_cap (chan s))%nat then
            Moved {| producer := k tt;
                     chan := {| ch_cap := ch_cap (chan s);
                                ch_buf := ch_buf (chan s) ++ [v];
                                ch_closed := false |};
                     received := received s |}
          else Blocked
      | ChanClose => fun k =>
          if ch_closed (chan s) then Crashed
          else
            Moved {| producer := k tt;
                     chan := {| ch_cap := ch_cap (chan s);
                                ch_buf := ch_buf (chan s);
                                ch_closed := true |};
                     received := received s |}
      | o' => fun k =>
          Moved {| producer := k (answer o');
                   chan := chan s;
                   received := received s |}
      end k
  end.

(** The caller receives the oldest value of the channel, if there is one
    (from an open or a closed channel alike). *)
Definition receive (s : Sys) : option Sys :=
  match ch_buf (chan s) with
  | v :: rest =>
      Some {| producer := producer s;
              chan := {| ch_cap := ch_cap (chan s);
                         ch_buf := rest;
                         ch_closed := ch_closed (chan s) |};
              received := received s ++ [v] |}
  | [] => None
  end.

(** The state a schedule leads to; [None] when the schedule asks for a
    turn that cannot be taken. *)
Fixpoint play (sched : list Turn) (s : Sys) : option Sys :=
  match sched with
  | [] => Some s
  | Producer :: rest =>
      match producer_step s with
      | Moved s' => play rest s'
      | _ => None
      end
  | Consumer :: rest =>
      match receive s with
      | Some s' => play rest s'
      | None => None
      end
  end.
End Goroutine.

(** An environment that answers every call from the script. *)
Definition scriptedAnswer (s : Script) (o : Op) : resp o := fst (scripted o s).

(** How far the goroutine of Wait has come after [n] steps of its own: the
    RPC, the send, the close.  [es] is the value it delivers. *)
Definition stage (t : task) (es : ExitStatus) (n : nat) (s : Sys) : Prop :=
  ch_cap (chan s) = 1 /\
  match n with
  | 0 =>
      ch_buf (chan s) = [] /\ ch_closed (chan s) = false /\ received s = []
  | 1 =>
      producer s = defer (fun _ => call ChanClose) (call (ChanSend es)) /\
      ch_buf (chan s) = [] /\ ch_closed (chan s) = false /\ received s = []
  | 2 =>
      producer s = defer (fun _ => call ChanClose) (Ret tt) /\
      ch_closed (chan s) = false /\ received s ++ ch_buf (chan s) = [es]
  | 3 =>
      producer s = Ret tt /\
      ch_closed (chan s) = true /\ received s ++ ch_buf (chan s) = [es]
  | _ => False
  end.

(** An IO factory that hands out the handle [io] without a call of its
    own. *)
Definition creatorOf (io : IO) : Creator := fun _ => Ret (Some io, None).

(** Imports under which the process spec cannot be marshalled: its type
    is not registered. *)
Definition unregisteredDeps : Deps := {|
  ToNative := sampleToNative;
  FromTimestamp := FromTimestamp (Deps := sampleDeps);
  MarshalAnyToProto := fun v =>
    match v with
    | DynProcess _ =>
        Failed (ErrWrap "type specs.Process: not found" (ErrSentinel NotFound))
    | _ => MarshalAnyToProto (Deps := sampleDeps) v
    end;
  RuntimePlugin := RuntimePlugin (Deps := sampleDeps);
  RuntimeRuncV2 := RuntimeRuncV2 (Deps := sampleDeps);
  GOOS := GOOS (Deps := sampleDeps);
  GOARCH := GOARCH (Deps := sampleDeps);
  FormatTime := FormatTime (Deps := sampleDeps)
|}.

Definition sampleSpec : option ProcessSpec :=
  Some {| ps_Terminal := false; ps_Args := ["sh"]; ps_Cwd := "/" |}.

Definition is_IOWait (o : Op) : bool :=
  match o with IOWait _ => true | _ => false end.

(** ** Reading a checkpoint trace *)

(** The pause RPC, answered with a nil error. *)
Definition pause_succeeded (e : Event) : bool :=
  match e with
  | Ev o r =>
      match o return resp o -> bool with
      | TaskPause _ => fun r => match r with None => true | Some _ => false end
      | _ => fun _ => false
      end r
  end.

(** The get RPC, answered with a status other than paused. *)
Definition observed_unpaused (e : Event) : bool :=
  match e with
  | Ev o r =>
      match o return resp o -> bool with
      | TaskGet _ _ => fun r =>
          match r with
          | Done r =>
              negb (bool_decide
                      (ToLower (TaskStatus_String (pb_Status (get_Process r)))
                       = Paused))
          | Failed _ => false
          end
      | _ => fun _ => false
      end r
  end.

(** The checkpoint RPC, answered with a response. *)
Definition checkpoint_succeeded (e : Event) : bool :=
  match e with
  | Ev o r =>
      match o return resp o -> bool with
      | TaskCheckpoint _ => fun r =>
          match r with Done _ => true | Failed _ => false end
      | _ => fun _ => false
      end r
  end.

Definition is_TaskPause (o : Op) : bool :=
  match o with TaskPause _ => true | _ => false end.

Definition is_TaskCheckpoint (o : Op) : bool :=
  match o with TaskCheckpoint _ => true | _ => false end.

(** The operations that build or publish the index or write to the content
    store or the image catalog: the image lookup for the index, the diff,
    the publication of the index, the registration of the image. *)
Definition is_index_step (o : Op) : bool :=
  match o with
  | ImageGet _ | CreateDiff _ _ _ | WriteIndex _ _ | ImageCreate _ => true
  | _ => false
  end.

(** The events after the first one that satisfies [f], if there is one. *)
Fixpoint after_first (f : Event -> bool) (tr : list Event) : option (list Event) :=
  match tr with
  | [] => None
  | e :: rest => if f e then Some rest else after_first f rest
  end.

(** The operations of the last two events of a trace. *)
Fixpoint last_two (tr : list Event) : option (Op * Op) :=
  match tr with
  | [] | [_] => None
  | [a; b] => Some (ev_op a, ev_op b)
  | _ :: rest => last_two rest
  end.

(** The operations with which Checkpoint begins: the lease, the container
    lookup and the clock. *)
Definition is_prologue (o : Op) : bool :=
  match o with
  | ClientWithLease | ContainerGet _ | TimeNow => true
  | _ => false
  end.

(** The operations around the capture steps of a checkpoint: the prologue,
    the status lookup, the pause, the resume and the release of the
    lease. *)
Definition is_bracket (o : Op) : bool :=
  match o with
  | TaskGet _ _ | TaskPause _ | TaskResume _ | LeaseDone => true
  | o => is_prologue o
  end.

(** A checkpoint option that asks the runc runtime to write the checkpoint
    to an external image path. *)
Definition withImagePath (path : string) : CheckpointTaskOpts :=
  fun i =>
    ({| cti_Name := cti_Name i;
        cti_ParentCheckpoint := cti_ParentCheckpoint i;
        cti_Options :=
          Some (DynCheckpointOptions
                  {| co_Exit := false; co_ImagePath := path; co_WorkPath := "" |});
        cti_runtime := cti_runtime i |}, None).

(** The operations of a checkpoint of [sampleTask] under the script [s]. *)
Definition checkpointOps (opts : list CheckpointTaskOpts) (s : Script) : list Op :=
  ops (snd (run scripted (task.Checkpoint (H := sampleDeps) sampleTask opts) s)).

Definition sampleFailure : error := ErrTransport 13 "injected failure".

(** The value the goroutine of Wait delivers, read off the answer of the
    wait RPC. *)
Definition delivers `{Deps} (answer : forall o : Op, resp o) (t : task)
           (es : ExitStatus) : Prop :=
  (forall e, answer (TaskWait (t_id t)) = Failed e ->
     es = {| code := UnknownExitStatus; exitedAt := zeroTime; err := Some e |}) /\
  (forall r, answer (TaskWait (t_id t)) = Done r ->
     es = {| code := wait_ExitStatus r;
             exitedAt := FromTimestamp (wait_ExitedAt r);
             err := None |}).

(** The stage [n], reached from the goroutine of [t]. *)
Definition staged `{Deps} (t : task) (es : ExitStatus) (n : nat) (s : Sys) : Prop :=
  stage t es n s /\ (n = 0 -> producer s = task.Wait_goroutine t).

(** ** writeContent *)

Definition IsAlreadyExists (e : error) : bool := errors_Is e AlreadyExists.

(** content.Writer, the methods writeContent calls; each is any program. *)
Record ContentWriter : Type := mkContentWriter {
  cw_Commit : Z -> string -> list string -> Prog (option error);
  cw_Digest : Prog string;
  cw_Close : Prog (option error)
}.

(** content.Ingester: Writer(ctx, content.WithRef(ref)). *)
Definition Ingester : Type := string -> Prog (reply ContentWriter).

(** io.Copy(writer, r): the number of bytes copied and an error or nil. *)
Definition Copier : Type := ContentWriter -> string -> Prog (Z * option error).

(** writeContent, lines 753-774; [d] is the zero descriptor until the last
    return. *)
Definition writeContent (store : Ingester) (ioCopy : Copier)
           (mediaType ref : string) (r : string) (opts : list string)
  : Prog (Descriptor * option error) :=
  let d := zeroDescriptor in
  let* writer := store ref in
  match writer with
  | Failed err => Ret (d, Some err)
  | Done writer =>
      defer (fun _ => cw_Close writer ;;; Ret tt)         (* defer writer.Close() *)
        (let* (size, err) := ioCopy writer r in
         match err with
         | Some err => Ret (d, Some err)
         | None =>
             let* cerr := cw_Commit writer size "" opts in
             if nonnil_and (fun e => negb (IsAlreadyExists e)) cerr
             then Ret (d, cerr)
             else
               let* digest := cw_Digest writer in
               Ret ({| desc_MediaType := mediaType;
                       desc_Digest := digest;
                       desc_Size := size;
                       desc_Platform := None;
                       desc_Annotations := ∅ |}, None)
         end)
  end.

(** ** TaskInfo and its runtime options *)

(** options.Options of the runc runtime. *)
Record RuncOptions : Type := mkRuncOptions {
  ro_NoPivotRoot : bool;
  ro_NoNewKeyring : bool;
  ro_BinaryName : string;
  ro_Root : string;
  ro_SystemdCgroup : bool
}.

(** &options.Options{} *)
Definition zeroRuncOptions : RuncOptions :=
  {| ro_NoPivotRoot := false; ro_NoNewKeyring := false; ro_BinaryName := "";
     ro_Root := ""; ro_SystemdCgroup := false |}.

(** A non-nil Options value of a TaskInfo, by dynamic type: a pointer to
    runc options, which the caller and the info share and which may itself
    be nil, or anything else. *)
Inductive OptionsValue : Type :=
| OptRunc (p : option nat)
| OptOther (d : Dyn).

(** typeurl.Any; GetValue() may be nil. *)
Record TypeurlAny : Type := mkTypeurlAny {
  ta_TypeUrl : string;
  ta_Value : option string
}.

(** TaskInfo, lines 135-154 (without the mounts). *)
Record TaskInfo : Type := mkTaskInfo {
  ti_Checkpoint : option ApiDescriptor;
  ti_Options : option OptionsValue;
  ti_RuntimePath : string;
  ti_runtime : string;
  ti_runtimeOptions : option TypeurlAny
}.

(** typeurl.UnmarshalTo(any, opts): the options filled from [any], or an
    error. *)
Class Typeurl : Type := {
  UnmarshalTo : TypeurlAny -> RuncOptions -> reply RuncOptions
}.

Module TaskInfo.
Section Methods.
Context `{Typeurl}.

(** TaskInfo.Runtime, lines 157-159. *)
Definition Runtime (i : TaskInfo) : string := ti_runtime i.

(** TaskInfo.getRuncOptions, lines 165-182.  [h] holds the runc options
    that pointers refer to; the method returns the pointer (nil or not),
    the error, the info and the store as it leaves them.  Options that
    could not be filled are dropped with their pointer. *)
Definition getRuncOptions (i : TaskInfo) (h : gmap nat RuncOptions)
  : option nat * option error * TaskInfo * gmap nat RuncOptions :=
  match ti_Options i with
  | Some v =>
      match v with
      | OptRunc opts => (opts, None, i, h)
      | OptOther _ =>
          (None, Some (ErrNew "invalid runtime v2 options format"), i, h)
      end
  | None =>
      let opts := fresh (dom h) in
      let filled :=
        match ti_runtimeOptions i with
        | Some any =>
            match ta_Value any with
            | Some _ => UnmarshalTo any zeroRuncOptions
            | None => Done zeroRuncOptions
            end
        | None => Done zeroRuncOptions
        end in
      match filled with
      | Failed err =>
          (None, Some (Errorf_w "failed to get runtime v2 options: " err), i, h)
      | Done o =>
          (Some opts, None,
           {| ti_Checkpoint := ti_Checkpoint i;
              ti_Options := Some (OptRunc (Some opts));
              ti_RuntimePath := ti_RuntimePath i;
              ti_runtime := ti_runtime i;
              ti_runtimeOptions := ti_runtimeOptions i |},
           <[opts := o]> h)
      end
  end.
End Methods.
End TaskInfo.

(** CheckpointTaskInfo.Runtime, lines 127-129. *)
Definition CheckpointTaskInfo_Runtime (i : CheckpointTaskInfo) : string :=
  cti_runtime i.

(** ** Further samples *)

(** A task service that refuses every call of the remaining methods with
    the error [e], and one that accepts them: it starts the process with
    the pid [pid] and lists the processes [procs].  Neither makes a call of
    its own. *)
Definition refusingClient (e : error) : TasksClient := {|
  svc_Start := fun _ => Ret (Failed e);
  svc_Kill := fun _ => Ret (Some e);
  svc_ListPids := fun _ => Ret (Failed e);
  svc_CloseIO := fun _ => Ret (Some e);
  svc_ResizePty := fun _ => Ret (Some e);
  svc_Update := fun _ => Ret (Some e)
|}.

Definition acceptingClient (pid : N) (procs : list ProcessDetails) : TasksClient := {|
  svc_Start := fun _ => Ret (Done {| start_Pid := pid |});
  svc_Kill := fun _ => Ret None;
  svc_ListPids := fun _ => Ret (Done {| pids_Processes := procs |});
  svc_CloseIO := fun _ => Ret None;
  svc_ResizePty := fun _ => Ret None;
  svc_Update := fun _ => Ret None
|}.

(** Kill options: one that selects all processes, one that selects the
    exec process [execID], and one that fails. *)
Definition killAllOpt : KillOpts :=
  fun i => Ret ({| ki_All := true; ki_ExecID := ki_ExecID i |}, None).
Definition killExecOpt (execID : string) : KillOpts :=
  fun i => Ret ({| ki_All := ki_All i; ki_ExecID := execID |}, None).
Definition failingKillOpt (e : error) : KillOpts := fun i => Ret (i, Some e).

(** A delete option that fails. *)
Definition failingDeleteOpt (e : error) : ProcessDeleteOpts :=
  fun _ => Ret (Some e).

(** A delete option that changes nothing. *)
Definition passingDeleteOpt : ProcessDeleteOpts := fun _ => Ret None.

(** An IO factory that fails. *)
Definition failingCreator (e : error) : Creator := fun _ => Ret (None, Some e).

(** An update option that sets the resources. *)
Definition resourcesOpt (resources : Dyn) : UpdateTaskOpts :=
  fun i =>
    Ret ({| uti_Resources := Some resources;
            uti_Annotations := uti_Annotations i |}, None).

(** An attach function that hands out the handle [io]. *)
Definition attachOf (io : IO) : Attach := fun _ => Ret (Some io, None).

(** A content writer whose commit answers [commit] and which reports the
    digest [digest], a store that opens it, and a copy that counts the
    characters of what it reads. *)
Definition writerOf (commit : option error) (digest : string) : ContentWriter := {|
  cw_Commit := fun _ _ _ => Ret commit;
  cw_Digest := Ret digest;
  cw_Close := Ret None
|}.

(** The same writer over the handle [io]: closing the writer closes the
    handle. *)
Definition closingWriter (io : IO) (commit : option error) (digest : string)
  : ContentWriter := {|
  cw_Commit := fun _ _ _ => Ret commit;
  cw_Digest := Ret digest;
  cw_Close := call (IOClose io) ;;; Ret None
|}.

Definition storeOf (writer : ContentWriter) : Ingester :=
  fun _ => Ret (Done writer).

Definition countingCopy : Copier :=
  fun _ r => Ret (Z.of_nat (String.length r), None).

(** An unmarshaller that takes the value for the name of the runc binary
    and rejects the value "bad". *)
Definition sampleTypeurl : Typeurl := {|
  UnmarshalTo := fun any opts =>
    match ta_Value any with
    | Some v =>
        if decide (v = "bad") then Failed (ErrNew "proto: cannot parse")
        else Done {| ro_NoPivotRoot := ro_NoPivotRoot opts;
                     ro_NoNewKeyring := ro_NoNewKeyring opts;
                     ro_BinaryName := v;
                     ro_Root := ro_Root opts;
                     ro_SystemdCgroup := ro_SystemdCgroup opts |}
    | None => Done opts
    end
|}.

(** A task info without options, whose container has the runtime options
    [value]. *)
Definition infoWith (value : option string) : TaskInfo :=
  {| ti_Checkpoint := None; ti_Options := None; ti_RuntimePath := "";
     ti_runtime := "io.containerd.runc.v2";
     ti_runtimeOptions :=
       Some {| ta_TypeUrl := "containerd.runc.v1.Options";
               ta_Value := value |} |}.

(** A script whose checkpoint RPC, image lookup and diff return
    descriptors that can be told apart. *)
Definition capturingScript : Script :=
  with_Checkpoint
    (Done {| cp_Descriptors :=
               [{| api_MediaType := "application/vnd.containerd.container.criu.checkpoint.criu.tar";
                   api_Digest := "sha256:criu"; api_Size := 100;
                   api_Annotations := ∅ |}] |})
    (with_ImageGet
       (Done {| img_Name := "docker.io/library/busybox:latest";
                img_Target :=
                  {| desc_MediaType := "application/vnd.oci.image.manifest.v1+json";
                     desc_Digest := "sha256:busybox"; desc_Size := 200;
                     desc_Platform := None; desc_Annotations := ∅ |};
                img_Labels := ∅ |})
       (with_CreateDiff
          (Done {| desc_MediaType := "application/vnd.oci.image.layer.v1.tar+gzip";
                   desc_Digest := "sha256:rw"; desc_Size := 300;
                   desc_Platform := None; desc_Annotations := ∅ |})
          (with_WriteIndex
             (Done {| desc_MediaType := "application/vnd.oci.image.index.v1+json";
                      desc_Digest := "sha256:index"; desc_Size := 400;
                      desc_Platform := None; desc_Annotations := ∅ |})
             sampleScript))).

(** ** What a trace of Checkpoint shows *)

Definition is_TaskResume (o : Op) : bool :=
  match o with TaskResume _ => true | _ => false end.

Definition is_LeaseDone (o : Op) : bool :=
  match o with LeaseDone => true | _ => false end.

(** The descriptors an answered operation gives to the index of a
    checkpoint: those of the checkpoint RPC and the diff with the platform
    of the build, the target of the image as it is. *)
Definition contribution `{Deps} (e : Event) : list Descriptor :=
  match e with
  | Ev o r =>
      match o return resp o -> list Descriptor with
      | TaskCheckpoint _ => fun r =>
          match r with
          | Done response =>
              map (fun d =>
                     {| desc_MediaType := api_MediaType d;
                        desc_Digest := api_Digest d;
                        desc_Size := api_Size d;
                        desc_Platform :=
                          Some {| plat_OS := GOOS; plat_Architecture := GOARCH |};
                        desc_Annotations := api_Annotations d |})
                  (cp_Descriptors response)
          | Failed _ => []
          end
      | ImageGet _ => fun r =>
          match r with
          | Done ir => [img_Target ir]
          | Failed _ => []
          end
      | CreateDiff _ _ _ => fun r =>
          match r with
          | Done rw =>
              [{| desc_MediaType := desc_MediaType rw;
                  desc_Digest := desc_Digest rw;
                  desc_Size := desc_Size rw;
                  desc_Platform :=
                    Some {| plat_OS := GOOS; plat_Architecture := GOARCH |};
                  desc_Annotations := desc_Annotations rw |}]
          | Failed _ => []
          end
      | _ => fun _ => []
      end r
  end.

(** The name of the image, when the event is an image lookup that found
    it. *)
Definition named_image (e : Event) : option string :=
  match e with
  | Ev o r =>
      match o return resp o -> option string with
      | ImageGet name => fun r =>
          match r with Done _ => Some name | Failed _ => None end
      | _ => fun _ => None
      end r
  end.

(** The time, when the event is a reading of the clock. *)
Definition clock_reading (e : Event) : option Time :=
  match e with
  | Ev o r =>
      match o return resp o -> option Time with
      | TimeNow => fun r => Some r
      | _ => fun _ => None
      end r
  end.

(** The event is none of the operations around the capture steps. *)
Definition is_capture (e : Event) : bool := negb (is_bracket (ev_op e)).

(** The operations that end a checkpoint: the resume and the release of
    the lease. *)
Definition is_epilogue (o : Op) : bool := is_TaskResume o || is_LeaseDone o.

(** ** Proof automation *)

(** Case analysis on the answer of the next operation. *)
Ltac step_handle :=
  match goal with
  | |- context [?h ?o ?w] =>
      match type of (h o w) with
      | (resp _ * _)%type =>
          let r := fresh "r" in
          let w' := fresh "w" in
          destruct (h o w) as [r w']; simpl in r; try destruct r; simpl
      end
  end.

(** Case analysis on the answer of the next operation of a run in [Hrun]. *)
Ltac step_in Hrun :=
  match type of Hrun with
  | context [?h ?o ?w] =>
      match type of (h o w) with
      | (resp _ * _)%type =>
          let r := fresh "r" in
          let w' := fresh "w" in
          destruct (h o w) as [r w']; simpl in r; try destruct r; simpl in Hrun
      end
  | context [decide ?P] => destruct (decide P); simpl in Hrun
  end.

(** Case analysis on the place of an event in a trace that is known. *)
Ltac split_trace Hsplit tac :=
  lazymatch type of Hsplit with
  | [] = ?pre ++ _ :: _ => destruct pre; discriminate Hsplit
  | _ :: _ = ?pre ++ _ :: _ =>
      let p := fresh "p" in
      destruct pre as [|p pre]; cbn [app] in Hsplit;
      [ injection Hsplit as <- <-; tac
      | injection Hsplit as <- Hsplit; split_trace Hsplit tac ]
  end.

(** * Properties *)

(** ** The data on small inputs *)

Example ToLower_RUNNING : ToLower (TaskStatus_String RUNNING) = Running.
Proof. reflexivity. Qed.

Example ToLower_keeps_lower_case : ToLower "io.containerd.runc.v2" = "io.containerd.runc.v2".
Proof. reflexivity. Qed.

Example IsNotFound_through_wrap :
  IsNotFound (Errorf_w "no running process found: " (ErrSentinel NotFound)) = true /\
  IsNotFound (ErrTransport 5 "not found") = false /\
  IsNotFound (sampleToNative (ErrTransport 5 "not found")) = true.
Proof. repeat split. Qed.

Example isCheckpointPathExist_examples :
  let path p := Some (DynCheckpointOptions
                        {| co_Exit := false; co_ImagePath := p; co_WorkPath := "" |}) in
  task.isCheckpointPathExist (H := sampleDeps) "io.containerd.runc.v2" (path "/ckpt") = true /\
  task.isCheckpointPathExist (H := sampleDeps) "io.containerd.runc.v2" (path "") = false /\
  task.isCheckpointPathExist (H := sampleDeps) "io.containerd.runc.v2" None = false /\
  task.isCheckpointPathExist (H := sampleDeps) "io.containerd.runhcs.v1" (path "/ckpt") = false /\
  task.isCheckpointPathExist (H := sampleDeps) "io.containerd.runc.v2"
    (Some (DynOther "runhcs.Options" "")) = false.
Proof. repeat split. Qed.

(** ** The semantics of sequencing and of deferred calls *)

Section RunLemmas.
Context {World : Type}.
Variable handle : forall o : Op, World -> resp o * World.

Lemma run_bind {A B : Type} (p : Prog A) (f : A -> Prog B) (w : World) :
  run handle (bind p f) w =
  match run handle p w with
  | (Returned a, w1, tr1) =>
      let '(out, w2, tr2) := run handle (f a) w1 in (out, w2, tr1 ++ tr2)
  | (Panicked, w1, tr1) => (Panicked, w1, tr1)
  end.
Proof.
  revert w. induction p as [a| |o k IH]; intros w; simpl.
  - destruct (run handle (f a) w) as [[out w2] tr2]. reflexivity.
  - reflexivity.
  - destruct (handle o w) as [r w1]. rewrite IH.
    destruct (run handle (k r) w1) as [[[a|] w2] tr1]; [|reflexivity].
    destruct (run handle (f a) w2) as [[out w3] tr2]. reflexivity.
Qed.

Lemma run_defer {A : Type} (d : option A -> Prog unit) (body : Prog A) (w : World) :
  run handle (defer d body) w =
  match run handle body w with
  | (Returned a, w1, tr1) =>
      match run handle (d (Some a)) w1 with
      | (Returned _, w2, tr2) => (Returned a, w2, tr1 ++ tr2)
      | (Panicked, w2, tr2) => (Panicked, w2, tr1 ++ tr2)
      end
  | (Panicked, w1, tr1) =>
      let '(_, w2, tr2) := run handle (d None) w1 in (Panicked, w2, tr1 ++ tr2)
  end.
Proof.
  revert w. induction body as [a| |o k IH]; intros w; simpl.
  - rewrite run_bind.
    destruct (run handle (d (Some a)) w) as [[[u|] w2] tr2]; simpl;
      rewrite ?app_nil_r; reflexivity.
  - rewrite run_bind.
    destruct (run handle (d None) w) as [[[u|] w2] tr2]; simpl;
      rewrite ?app_nil_r; reflexivity.
  - destruct (handle o w) as [r w1]. rewrite IH.
    destruct (run handle (k r) w1) as [[[a|] w2] tr1].
    + destruct (run handle (d (Some a)) w2) as [[[u|] w3] tr2]; reflexivity.
    + destruct (run handle (d None) w2) as [[x w3] tr2]. reflexivity.
Qed.
End RunLemmas.

(** ** task.Delete *)

Section DeleteProps.
Context `{Deps} {World : Type}.
Variable handle : forall o : Op, World -> resp o * World.

(** The status lookup issues one get RPC and builds the status from its
    answer; a failed lookup leaves the zero status. *)
Lemma run_Status (t : task) (w : World) :
  run handle (task.Status t) w =
  match handle (TaskGet (t_id t) "") w with
  | (Done r, w1) =>
      (Returned ({| st_Status := ToLower (TaskStatus_String (pb_Status (get_Process r)));
                    st_ExitStatus := pb_ExitStatus (get_Process r);
                    st_ExitTime := FromTimestamp (pb_ExitedAt (get_Process r)) |},
                 None), w1, [Ev (TaskGet (t_id t) "") (Done r)])
  | (Failed e, w1) =>
      (Returned (zeroStatus, Some (ToNative e)), w1,
       [Ev (TaskGet (t_id t) "") (Failed e)])
  end.
Proof.
  unfold task.Status, call. simpl.
  destruct (handle (TaskGet (t_id t) "") w) as [[r|e] w1]; reflexivity.
Qed.

(** Once the options have run and the lookup has not ended in not-found,
    Delete is [deleteWithStatus] on what the lookup left. *)
Lemma run_Delete_after_status (t : task) (opts : list ProcessDeleteOpts)
      (w0 w1 w2 : World) (tr0 tr1 : list Event) (status : Status)
      (e : option error) :
  run handle (applyDeleteOpts opts t) w0 = (Returned None, w1, tr0) ->
  run handle (task.Status t) w1 = (Returned (status, e), w2, tr1) ->
  nonnil_and IsNotFound e = false ->
  run handle (task.Delete t opts) w0 =
  let '(out, w3, tr) := run handle (task.deleteWithStatus t status) w2 in
  (out, w3, tr0 ++ tr1 ++ tr).
Proof.
  intros Hopts Hst Hnf. unfold task.Delete.
  rewrite run_bind, Hopts, run_bind, Hst, Hnf.
  destruct (run handle (task.deleteWithStatus t status) w2) as [[out w3] tr].
  reflexivity.
Qed.

(** What [deleteWithStatus] does when the runtime name cannot be
    resolved. *)
Lemma run_deleteWithStatus_no_runtime (t : task) (status : Status)
      (w w' : World) (e : error) :
  handle ClientDefaultRuntime w = (Failed e, w') ->
  run handle (task.deleteWithStatus t status) w =
  (Returned (None, Some (Errorf_w "failed to get default runtime: " e)),
   w', [Ev ClientDefaultRuntime (Failed e)]).
Proof. intros Hrt. unfold task.deleteWithStatus, call. simpl. rewrite Hrt. reflexivity. Qed.

(** What [deleteWithStatus] does when it refuses the task. *)
Lemma run_deleteWithStatus_reject (t : task) (status : Status)
      (w w' : World) (runtime : string) :
  handle ClientDefaultRuntime w = (Done runtime, w') ->
  ~ deletable t (st_Status status) runtime ->
  run handle (task.deleteWithStatus t status) w =
  (Returned (None, Some (deleteRejection (st_Status status))),
   w', [Ev ClientDefaultRuntime (Done runtime)]).
Proof.
  intros Hrt Hno. unfold deletable in Hno.
  unfold task.deleteWithStatus, call. simpl. rewrite Hrt.
  destruct (decide _) as [?|_]; [exfalso; tauto|].
  destruct (decide (st_Status status = Created)) as [Hcr|_]; [|reflexivity].
  destruct (decide (runtime = task.windowsRuntime)); [exfalso; tauto|].
  destruct (decide (t_pid t = 0%N)); [exfalso; tauto|]. reflexivity.
Qed.

(** What [deleteWithStatus] does when it goes on: the IO calls before the
    RPC, the RPC, and, only if the RPC succeeded, the closing of the IO. *)
Lemma run_deleteWithStatus_proceed (t : task) (status : Status)
      (w w3 : World) (runtime : string) :
  handle ClientDefaultRuntime w = (Done runtime, w3) ->
  deletable t (st_Status status) runtime ->
  run handle (task.deleteWithStatus t status) w =
  match handle (TaskDelete (t_id t))
               (world_after handle (ioBeforeDelete t runtime) w3) with
  | (Done r, w4) =>
      (Returned (Some {| code := del_ExitStatus r;
                         exitedAt := FromTimestamp (del_ExitedAt r);
                         err := None |}, None),
       world_after handle (ioAfterDelete t) w4,
       Ev ClientDefaultRuntime (Done runtime) :: ioBeforeDelete t runtime
         ++ Ev (TaskDelete (t_id t)) (Done r) :: ioAfterDelete t)
  | (Failed e, w4) =>
      (Returned (None, Some (ToNative e)), w4,
       Ev ClientDefaultRuntime (Done runtime) :: ioBeforeDelete t runtime
         ++ [Ev (TaskDelete (t_id t)) (Failed e)])
  end.
Proof.
  intros Hrt Hok. unfold task.deleteWithStatus, call. simpl. rewrite Hrt.
  assert (Hgo :
    (if decide (st_Status status = Stopped \/ st_Status status = Unknown
                \/ st_Status status = "")
     then true
     else if decide (st_Status status = Created) then
       if decide (runtime = task.windowsRuntime) then true
       else if decide (t_pid t = 0%N) then true else false
     else false) = true).
  { destruct (decide _) as [|Hn]; [reflexivity|].
    destruct Hok as [?|[?|[?|[Hc Hesc]]]]; try (exfalso; apply Hn; tauto).
    destruct (decide (st_Status status = Created)); [|congruence].
    destruct (decide (runtime = task.windowsRuntime)); [reflexivity|].
    destruct (decide (t_pid t = 0%N)); [reflexivity|].
    destruct Hesc; congruence. }
  unfold ioBeforeDelete, ioAfterDelete, world_after, ops.
  repeat (destruct (decide _); try discriminate Hgo);
    destruct (t_io t) as [io|]; simpl;
    repeat (destruct (decide _); try congruence; simpl);
    repeat step_handle; reflexivity.
Qed.

(** The lower-cased names of the three statuses of a live process. *)
Lemma live_status_names (s : TaskStatus) :
  s = RUNNING \/ s = PAUSED \/ s = PAUSING ->
  let status := ToLower (TaskStatus_String s) in
  (status = Running \/ status = Paused \/ status = Pausing) /\
  forall t runtime, ~ deletable t status runtime.
Proof.
  intros [ -> | [ -> | -> ] ]; vm_compute; (split; [tauto|]);
    intros t runtime [?|[?|[?|[? _]]]]; discriminate.
Qed.

Lemma append_assoc (a b c : string) : (a +:+ b) +:+ c = a +:+ (b +:+ c).
Proof.
  induction a as [|x a IH]; [reflexivity|].
  change (String x ((a +:+ b) +:+ c) = String x (a +:+ (b +:+ c))).
  f_equal. exact IH.
Qed.

(** The rejection is a failed-precondition error and its message carries
    the status. *)
Lemma deleteRejection_message (status : ProcessStatus) :
  IsFailedPrecondition (deleteRejection status) = true /\
  Error (deleteRejection status) =
    "task must be stopped before deletion: " +:+ status
    +:+ ": failed precondition".
Proof.
  split; [reflexivity|].
  unfold deleteRejection, Errorf_w. cbn [Error kind_message].
  rewrite !append_assoc. reflexivity.
Qed.

(** C1 (amended). When the get RPC answers that the task is running,
    paused or pausing, Delete issues the get RPC and the runtime-name
    resolution and nothing else: the delete RPC is never issued.  If the
    runtime name is resolved, Delete returns the failed-precondition
    error whose message carries the observed status; if the resolution
    fails, Delete returns that failure wrapped as "failed to get default
    runtime". *)
Theorem Delete_refuses_live_task (t : task) (opts : list ProcessDeleteOpts)
        (w0 w1 w2 : World) (tr0 : list Event) (r : GetResponse) :
  run handle (applyDeleteOpts opts t) w0 = (Returned None, w1, tr0) ->
  handle (TaskGet (t_id t) "") w1 = (Done r, w2) ->
  pb_Status (get_Process r) = RUNNING \/ pb_Status (get_Process r) = PAUSED
    \/ pb_Status (get_Process r) = PAUSING ->
  let status := ToLower (TaskStatus_String (pb_Status (get_Process r))) in
  (status = Running \/ status = Paused \/ status = Pausing) /\
  IsFailedPrecondition (deleteRejection status) = true /\
  Error (deleteRejection status) =
    "task must be stopped before deletion: " +:+ status
    +:+ ": failed precondition" /\
  exists out w3 rt,
    run handle (task.Delete t opts) w0 =
      (out, w3, tr0 ++ [Ev (TaskGet (t_id t) "") (Done r);
                        Ev ClientDefaultRuntime rt]) /\
    never is_TaskDelete [Ev (TaskGet (t_id t) "") (Done r);
                         Ev ClientDefaultRuntime rt] /\
    (forall runtime, rt = Done runtime ->
       out = Returned (None, Some (deleteRejection status))) /\
    (forall e, rt = Failed e ->
       out = Returned (None, Some (Errorf_w "failed to get default runtime: " e))).
Proof.
  intros Hopts Hget Hlive status.
  destruct (live_status_names _ Hlive) as (Hnames & Hno).
  fold status in Hnames, Hno.
  split; [exact Hnames|].
  split; [apply deleteRejection_message|]. split; [apply deleteRejection_message|].
  pose proof (run_Status t w1) as Hst. rewrite Hget in Hst.
  pose proof (run_Delete_after_status t opts w0 w1 w2 tr0 _ _ _ Hopts Hst eq_refl) as Hrun.
  destruct (handle ClientDefaultRuntime w2) as [[runtime|e] w3] eqn:Hrt.
  - rewrite (run_deleteWithStatus_reject t _ w2 w3 runtime Hrt) in Hrun
      by apply Hno.
    eexists _, w3, _. split; [exact Hrun|]. split; [reflexivity|].
    split; [reflexivity|]. intros; discriminate.
  - rewrite (run_deleteWithStatus_no_runtime t _ w2 w3 e Hrt) in Hrun.
    eexists _, w3, _. split; [exact Hrun|]. split; [reflexivity|].
    split; [intros; discriminate|]. intros e' [= <-]. reflexivity.
Qed.

(** C2. For a task that the get RPC reports as created, once the runtime
    name is resolved, Delete goes on to the delete RPC exactly when the
    locally tracked pid is 0 or the resolved name is the windows-variant
    runtime, and then returns what the delete RPC decides; otherwise it
    issues nothing more and returns the failed-precondition error carrying
    "created". *)
Theorem Delete_created_escape_hatches (t : task) (opts : list ProcessDeleteOpts)
        (w0 w1 w2 w3 : World) (tr0 : list Event) (r : GetResponse)
        (runtime : string) :
  run handle (applyDeleteOpts opts t) w0 = (Returned None, w1, tr0) ->
  handle (TaskGet (t_id t) "") w1 = (Done r, w2) ->
  pb_Status (get_Process r) = CREATED ->
  handle ClientDefaultRuntime w2 = (Done runtime, w3) ->
  exists out w4 tr,
    run handle (task.Delete t opts) w0 =
      (out, w4, tr0 ++ Ev (TaskGet (t_id t) "") (Done r)
                    :: Ev ClientDefaultRuntime (Done runtime) :: tr) /\
    (In (TaskDelete (t_id t)) (ops tr) <->
     (t_pid t = 0%N \/ runtime = task.windowsRuntime)) /\
    (t_pid t = 0%N \/ runtime = task.windowsRuntime ->
     exists rd : reply DeleteResponse,
       In (Ev (TaskDelete (t_id t)) rd) tr /\
       (forall d, rd = Done d ->
          out = Returned (Some {| code := del_ExitStatus d;
                                  exitedAt := FromTimestamp (del_ExitedAt d);
                                  err := None |}, None)) /\
       (forall e, rd = Failed e -> out = Returned (None, Some (ToNative e)))) /\
    (~ (t_pid t = 0%N \/ runtime = task.windowsRuntime) ->
     tr = [] /\ out = Returned (None, Some (deleteRejection Created)) /\
     IsFailedPrecondition (deleteRejection Created) = true).
Proof.
  intros Hopts Hget Hcr Hrt.
  pose proof (run_Status t w1) as Hst. rewrite Hget in Hst.
  pose proof (run_Delete_after_status t opts w0 w1 w2 tr0 _ _ _ Hopts Hst eq_refl) as Hrun.
  rewrite Hcr in Hrun at 1.
  change (ToLower (TaskStatus_String CREATED)) with Created in Hrun.
  destruct (decide (t_pid t = 0%N \/ runtime = task.windowsRuntime)) as [Hesc|Hno].
  - rewrite (run_deleteWithStatus_proceed t _ w2 w3 runtime Hrt) in Hrun.
    2:{ right; right; right. simpl. tauto. }
    assert (Hin : forall rd post, In (TaskDelete (t_id t))
                    (ops (ioBeforeDelete t runtime
                          ++ Ev (TaskDelete (t_id t)) rd :: post))).
    { intros. unfold ops. rewrite map_app. apply in_or_app. right. left. reflexivity. }
    assert (Hev : forall (rd : reply DeleteResponse) post,
               In (Ev (TaskDelete (t_id t)) rd)
                  (ioBeforeDelete t runtime
                   ++ Ev (TaskDelete (t_id t)) rd :: post)).
    { intros. apply in_or_app. right. left. reflexivity. }
    destruct (handle (TaskDelete (t_id t)) _) as [[d|e] w4];
      eexists _, _, _; (split; [exact Hrun|]); (split; [split; auto|]);
      (split; [|intros; contradiction]); intros _; eexists;
      (split; [apply Hev|]);
      split; intros x Hx; try discriminate; injection Hx as <-; reflexivity.
  - rewrite (run_deleteWithStatus_reject t _ w2 w3 runtime Hrt) in Hrun.
    2:{ simpl. intros [?|[?|[?|[_ ?]]]]; try discriminate. apply Hno. tauto. }
    exists (Returned (None, Some (deleteRejection Created))), w3, [].
    split; [exact Hrun|]. split; [split; [intros []|contradiction]|].
    split; [contradiction|]. intros _. repeat split.
Qed.

(** C3 (amended). When the status lookup leaves stopped, unknown or the
    empty status and the runtime name is resolved, Delete calls the IO
    handle (when present), then issues the delete RPC.  If the RPC
    succeeds, Delete closes the IO handle after it and returns the exit
    status and exit time of the response; if the RPC fails, Delete
    returns the translated error and makes no further call.  On a runtime
    other than the windows variant the handle is not closed before the
    RPC, so it is closed only after a successful delete; on the
    windows-variant runtime the handle is also closed once before the
    RPC, whatever the RPC answers. *)
Theorem Delete_stopped_returns_exit_status
        (t : task) (opts : list ProcessDeleteOpts)
        (w0 w1 w2 w3 : World) (tr0 tr1 : list Event) (status : Status)
        (e : option error) (runtime : string) :
  run handle (applyDeleteOpts opts t) w0 = (Returned None, w1, tr0) ->
  run handle (task.Status t) w1 = (Returned (status, e), w2, tr1) ->
  nonnil_and IsNotFound e = false ->
  st_Status status = Stopped \/ st_Status status = Unknown
    \/ st_Status status = "" ->
  handle ClientDefaultRuntime w2 = (Done runtime, w3) ->
  let before := ioBeforeDelete t runtime in
  let wk := world_after handle before w3 in
  (forall r w4, handle (TaskDelete (t_id t)) wk = (Done r, w4) ->
     run handle (task.Delete t opts) w0 =
     (Returned (Some {| code := del_ExitStatus r;
                        exitedAt := FromTimestamp (del_ExitedAt r);
                        err := None |}, None),
      world_after handle (ioAfterDelete t) w4,
      tr0 ++ tr1 ++ Ev ClientDefaultRuntime (Done runtime) :: before
        ++ Ev (TaskDelete (t_id t)) (Done r) :: ioAfterDelete t)) /\
  (forall e' w4, handle (TaskDelete (t_id t)) wk = (Failed e', w4) ->
     run handle (task.Delete t opts) w0 =
     (Returned (None, Some (ToNative e')), w4,
      tr0 ++ tr1 ++ Ev ClientDefaultRuntime (Done runtime) :: before
        ++ [Ev (TaskDelete (t_id t)) (Failed e')])) /\
  (forall io, t_io t = Some io -> ioAfterDelete t = [Ev (IOClose io) tt]) /\
  (runtime <> task.windowsRuntime -> never is_IOClose before) /\
  (runtime = task.windowsRuntime -> forall io, t_io t = Some io ->
     before = [Ev (IOClose io) tt; Ev (IOCancel io) tt; Ev (IOWait io) tt]).
Proof.
  intros Hopts Hst Hnf Hok Hrt before wk.
  pose proof (run_Delete_after_status t opts w0 w1 w2 tr0 tr1 _ _ Hopts Hst Hnf) as Hrun.
  rewrite (run_deleteWithStatus_proceed t status w2 w3 runtime Hrt) in Hrun
    by (unfold deletable; tauto).
  fold before in Hrun. fold wk in Hrun.
  split; [|split; [|split; [|split]]].
  - intros r w4 Hd. rewrite Hd in Hrun. exact Hrun.
  - intros e' w4 Hd. rewrite Hd in Hrun. exact Hrun.
  - intros io Hio. unfold ioAfterDelete. rewrite Hio. reflexivity.
  - intros Hnw. unfold before, ioBeforeDelete, never.
    destruct (t_io t); [|reflexivity].
    destruct (decide _); [contradiction|reflexivity].
  - intros Hw io Hio. unfold before, ioBeforeDelete. rewrite Hio.
    destruct (decide _); [reflexivity|contradiction].
Qed.

(** The continuation of Delete reads only the status string. *)
Lemma deleteWithStatus_stopped_like_empty (t : task) (st : Status) :
  st_Status st = Stopped ->
  task.deleteWithStatus t zeroStatus = task.deleteWithStatus t st.
Proof.
  destruct st as [s x ti]. simpl. intros ->. reflexivity.
Qed.

(** C4. When the get RPC of the status lookup fails and the translated
    error is not of the not-found kind, Delete does not return it: it goes
    on exactly as [deleteWithStatus] does on the zero status, whose status
    string is empty and passes the test of the switch; that continuation
    is the one of a stopped task.  When the runtime name is then
    resolved, the calls on the IO handle and the delete RPC are issued;
    when it cannot be resolved, Delete returns the failure of the
    resolution under "failed to get default runtime: " and the run ends
    there, without the delete RPC. *)
Theorem Delete_status_error_not_propagated
        (t : task) (opts : list ProcessDeleteOpts)
        (w0 w1 w2 : World) (tr0 : list Event) (e : error) :
  run handle (applyDeleteOpts opts t) w0 = (Returned None, w1, tr0) ->
  handle (TaskGet (t_id t) "") w1 = (Failed e, w2) ->
  IsNotFound (ToNative e) = false ->
  run handle (task.Delete t opts) w0 =
    (let '(out, w3, tr) := run handle (task.deleteWithStatus t zeroStatus) w2 in
     (out, w3, tr0 ++ Ev (TaskGet (t_id t) "") (Failed e) :: tr)) /\
  st_Status zeroStatus = "" /\
  (forall runtime, deletable t (st_Status zeroStatus) runtime) /\
  (forall st, st_Status st = Stopped ->
     task.deleteWithStatus t zeroStatus = task.deleteWithStatus t st) /\
  (forall runtime w3, handle ClientDefaultRuntime w2 = (Done runtime, w3) ->
     exists out w4 rd tr,
       run handle (task.Delete t opts) w0 =
       (out, w4, tr0 ++ [Ev (TaskGet (t_id t) "") (Failed e);
                         Ev ClientDefaultRuntime (Done runtime)]
                   ++ ioBeforeDelete t runtime
                   ++ Ev (TaskDelete (t_id t)) rd :: tr)) /\
  (forall e' w3, handle ClientDefaultRuntime w2 = (Failed e', w3) ->
     run handle (task.Delete t opts) w0 =
       (Returned (None, Some (Errorf_w "failed to get default runtime: " e')),
        w3,
        tr0 ++ [Ev (TaskGet (t_id t) "") (Failed e);
                Ev ClientDefaultRuntime (Failed e')])).
Proof.
  intros Hopts Hget Hnf.
  pose proof (run_Status t w1) as Hst. rewrite Hget in Hst.
  pose proof (run_Delete_after_status t opts w0 w1 w2 tr0 _ _ _ Hopts Hst Hnf) as Hrun.
  split; [exact Hrun|]. split; [reflexivity|].
  split; [intros; unfold deletable; simpl; tauto|].
  split; [apply deleteWithStatus_stopped_like_empty|].
  split.
  - intros runtime w3 Hrt.
    rewrite (run_deleteWithStatus_proceed t zeroStatus w2 w3 runtime Hrt) in Hrun
      by (unfold deletable; simpl; tauto).
    destruct (handle (TaskDelete (t_id t)) _) as [[d|e'] w4];
      eexists _, _, _, _; exact Hrun.
  - intros e' w3 Hrt.
    rewrite (run_deleteWithStatus_no_runtime t zeroStatus w2 w3 e' Hrt) in Hrun.
    exact Hrun.
Qed.
End DeleteProps.

(** *** Delete on concrete tasks *)

(** The task is running and the runtime name cannot be resolved: Delete
    returns the resolution failure, which is not a failed-precondition
    error and does not carry the status. *)
Lemma Delete_running_unresolved_runtime :
  let s := with_DefaultRuntime (Failed (ErrSentinel Unavailable)) sampleScript in
  let e := ErrWrap "failed to get default runtime: unavailable"
                   (ErrSentinel Unavailable) in
  s_Get s = Done {| get_Process := {| pb_Status := RUNNING; pb_ExitStatus := 0%N;
                                      pb_ExitedAt := None |} |} /\
  (exists w tr,
     run scripted (task.Delete (H := sampleDeps) sampleTask []) s =
       (Returned (None, Some e), w, tr)) /\
  IsFailedPrecondition e = false.
Proof. vm_compute. repeat split. eexists _, _. reflexivity. Qed.

Lemma Delete_refuses_live_task_witness :
  exists w3 tr,
    run scripted (task.Delete (H := sampleDeps) sampleTask []) sampleScript =
      (Returned (None, Some (deleteRejection "running")), w3, tr).
Proof.
  destruct (Delete_refuses_live_task (H := sampleDeps) scripted sampleTask []
              sampleScript sampleScript sampleScript [] _
              eq_refl eq_refl (or_introl eq_refl))
    as (_ & _ & _ & out & w3 & rt & Hrun & _).
  pose proof (f_equal (fun x => fst (fst x)) Hrun) as Hout.
  vm_compute in Hout. subst out.
  eexists _, _. exact Hrun.
Defined.

Lemma Delete_created_escape_hatches_witness :
  exists out w4 tr,
    run scripted (task.Delete (H := sampleDeps) freshTask [])
        (with_Get (Done createdProcess) sampleScript) =
      (out, w4, [] ++ Ev (TaskGet "c2" "") (Done createdProcess)
                  :: Ev ClientDefaultRuntime (Done "io.containerd.runc.v2") :: tr) /\
    In (TaskDelete "c2") (ops tr).
Proof.
  destruct (Delete_created_escape_hatches (H := sampleDeps) scripted freshTask []
              (with_Get (Done createdProcess) sampleScript) _ _ _ [] _
              "io.containerd.runc.v2" eq_refl eq_refl eq_refl eq_refl)
    as (out & w4 & tr & Hrun & Hin & _).
  exists out, w4, tr. split; [exact Hrun|]. apply Hin. left. reflexivity.
Defined.

(** On the windows-variant runtime the IO handle of a stopped task is
    closed before the delete RPC is issued, and stays closed when the RPC
    then fails. *)
Lemma Delete_windows_closes_io_before_failed_rpc :
  let s := with_Get (Done stoppedProcess)
             (with_DefaultRuntime (Done sampleWindows)
                (with_Delete (Failed (ErrTransport 14 "shim unavailable"))
                   sampleScript)) in
  run scripted (task.Delete (H := sampleDeps) sampleTask []) s =
    (Returned (None, Some (ErrWrap "shim unavailable" (ErrSentinel Unavailable))),
     s,
     [Ev (TaskGet "c1" "") (Done stoppedProcess);
      Ev ClientDefaultRuntime (Done sampleWindows);
      Ev (IOClose (mkIO 1)) tt; Ev (IOCancel (mkIO 1)) tt; Ev (IOWait (mkIO 1)) tt;
      Ev (TaskDelete "c1") (Failed (ErrTransport 14 "shim unavailable"))]).
Proof. vm_compute. reflexivity. Qed.

Lemma Delete_stopped_returns_exit_status_witness :
  let s := with_Get (Done stoppedProcess) sampleScript in
  run scripted (task.Delete (H := sampleDeps) sampleTask []) s =
    (Returned (Some {| code := 7%N; exitedAt := 5000000000%Z; err := None |}, None),
     s,
     [Ev (TaskGet "c1" "") (Done stoppedProcess);
      Ev ClientDefaultRuntime (Done "io.containerd.runc.v2");
      Ev (IOCancel (mkIO 1)) tt; Ev (IOWait (mkIO 1)) tt;
      Ev (TaskDelete "c1")
         (Done {| del_ExitStatus := 7%N; del_ExitedAt := Some (5, 0)%Z |});
      Ev (IOClose (mkIO 1)) tt]).
Proof.
  intros s.
  destruct (Delete_stopped_returns_exit_status (H := sampleDeps) scripted
              sampleTask [] s s s s [] [Ev (TaskGet "c1" "") (Done stoppedProcess)]
              {| st_Status := "stopped"; st_ExitStatus := 7%N;
                 st_ExitTime := 5000000000%Z |} None "io.containerd.runc.v2"
              eq_refl eq_refl eq_refl (or_introl eq_refl) eq_refl)
    as (Hok & _).
  exact (Hok {| del_ExitStatus := 7%N; del_ExitedAt := Some (5, 0)%Z |} s eq_refl).
Defined.

Lemma Delete_status_error_not_propagated_witness :
  let s := with_Get (Failed (ErrTransport 14 "shim unavailable")) sampleScript in
  exists out w4 rd tr,
    run scripted (task.Delete (H := sampleDeps) sampleTask []) s =
      (out, w4, [] ++ [Ev (TaskGet "c1" "") (Failed (ErrTransport 14 "shim unavailable"));
                       Ev ClientDefaultRuntime (Done "io.containerd.runc.v2")]
                  ++ ioBeforeDelete (H := sampleDeps) sampleTask "io.containerd.runc.v2"
                  ++ Ev (TaskDelete "c1") rd :: tr).
Proof.
  intros s.
  destruct (Delete_status_error_not_propagated (H := sampleDeps) scripted
              sampleTask [] s s s [] (ErrTransport 14 "shim unavailable")
              eq_refl eq_refl eq_refl)
    as (_ & _ & _ & _ & Hrpc & _).
  exact (Hrpc "io.containerd.runc.v2" s eq_refl).
Defined.

(** The status lookup fails with an unavailable error, which is not of
    the not-found kind, and the runtime name cannot be resolved: Delete
    returns the failure of the resolution after the two lookups, and the
    delete RPC is not issued. *)
Lemma Delete_status_error_unresolved_runtime :
  let s :=
    with_Get (Failed (ErrTransport 14 "shim unavailable"))
      (with_DefaultRuntime (Failed (ErrSentinel Unavailable)) sampleScript) in
  let r := run scripted (task.Delete (H := sampleDeps) sampleTask []) s in
  s_Get s = Failed (ErrTransport 14 "shim unavailable") /\
  IsNotFound (ToNative (Deps := sampleDeps) (ErrTransport 14 "shim unavailable"))
    = false /\
  fst (fst r) =
    Returned (None,
              Some (ErrWrap "failed to get default runtime: unavailable"
                            (ErrSentinel Unavailable))) /\
  ops (snd r) = [TaskGet "c1" ""; ClientDefaultRuntime] /\
  existsb is_TaskDelete (ops (snd r)) = false.
Proof. vm_compute. repeat split. Qed.

(** ** task.Wait *)

Section WaitProps.
Context `{Deps}.
Variable answer : forall o : Op, resp o.
Variable t : task.

Lemma delivers_exists : exists es, delivers answer t es.
Proof.
  unfold delivers. destruct (answer (TaskWait (t_id t))) as [r|e].
  - eexists. split; [discriminate|]. intros r' [= <-]. reflexivity.
  - eexists. split; [|discriminate]. intros e' [= <-]. reflexivity.
Qed.

Lemma start_staged (es : ExitStatus) : staged t es 0 (start (task.Wait t)).
Proof. repeat split. Qed.

(** Before it has finished the goroutine can always take its next step. *)
Lemma producer_step_staged (es : ExitStatus) (n : nat) (s : Sys) :
  delivers answer t es ->
  staged t es n s ->
  (n < 3 -> exists s', producer_step answer s = Moved s' /\ staged t es (S n) s') /\
  (n = 3 -> producer_step answer s = Finished) /\ n <= 3.
Proof.
  destruct s as [p [cap buf closed] rcv]. intros [Hfail Hdone] [[Hcap Hst] H0].
  simpl in *.
  destruct n as [|[|[|[|n]]]]; simpl in *; try contradiction.
  - destruct Hst as (-> & -> & ->). rewrite (H0 eq_refl). subst cap.
    split; [|split; [discriminate|lia]]. intros _.
    eexists. split; [reflexivity|]. split; [|discriminate].
    split; [reflexivity|]. simpl. split; [|repeat split].
    destruct (answer (TaskWait (t_id t))) as [r|e].
    + rewrite (Hdone r eq_refl). reflexivity.
    + rewrite (Hfail e eq_refl). reflexivity.
  - destruct Hst as (-> & -> & -> & ->). subst cap.
    split; [|split; [discriminate|lia]]. intros _.
    eexists. split; [reflexivity|]. split; [|discriminate]. repeat split.
  - destruct Hst as (-> & -> & Hone).
    split; [|split; [discriminate|lia]]. intros _.
    eexists. split; [reflexivity|]. split; [|discriminate]. repeat split; assumption.
  - destruct Hst as (-> & -> & Hone).
    split; [lia|]. split; [reflexivity|lia].
Qed.

(** A receive does not change how far the goroutine has come. *)
Lemma receive_staged (es : ExitStatus) (n : nat) (s s' : Sys) :
  staged t es n s -> receive s = Some s' -> staged t es n s'.
Proof.
  destruct s as [p [cap buf closed] rcv]. intros [[Hcap Hst] H0]. unfold receive. simpl in *.
  destruct buf as [|v rest]; [discriminate|]. intros [= <-].
  destruct n as [|[|[|[|n]]]]; simpl in *; try contradiction.
  - destruct Hst as (? & _); discriminate.
  - destruct Hst as (_ & ? & _); discriminate.
  - destruct Hst as (-> & -> & Hone). split; [|discriminate].
    repeat split; try assumption. simpl. rewrite <- List.app_assoc. exact Hone.
  - destruct Hst as (-> & -> & Hone). split; [|discriminate].
    repeat split; try assumption. simpl. rewrite <- List.app_assoc. exact Hone.
Qed.

(** A schedule advances the goroutine by the number of its turns. *)
Lemma play_staged (es : ExitStatus) (sched : list Turn) :
  delivers answer t es ->
  forall (n : nat) (s s' : Sys),
    staged t es n s -> play answer sched s = Some s' ->
    staged t es (n + count_occ Turn_eq_dec sched Producer) s'.
Proof.
  intros Hes.
  induction sched as [|[|] sched IH]; intros n s s' Hs Hplay; simpl in *.
  - injection Hplay as <-. rewrite Nat.add_0_r. exact Hs.
  - destruct (producer_step_staged es n s Hes Hs) as (Hmove & Hfin & Hle).
    destruct (decide (n < 3)) as [Hlt|Hge].
    + destruct (Hmove Hlt) as (s1 & Hstep & Hs1). rewrite Hstep in Hplay.
      replace (n + S (count_occ Turn_eq_dec sched Producer))
        with (S n + count_occ Turn_eq_dec sched Producer) by lia.
      exact (IH _ _ _ Hs1 Hplay).
    + rewrite Hfin in Hplay by lia. discriminate.
  - destruct (receive s) as [s1|] eqn:Hr; [|discriminate].
    exact (IH _ _ _ (receive_staged _ _ _ _ Hs Hr) Hplay).
Qed.

(** C5. Wait returns at once a channel of capacity 1 and a nil error.  In
    every interleaving of the goroutine with a caller that receives
    whenever it likes, or never: the goroutine is never blocked and never
    panics; it takes exactly three steps, the wait RPC, one send and the
    close; nothing is delivered before the send, exactly one value from
    the send on, and the channel is closed exactly once the goroutine
    has finished.  The value carries the exit status and time of the
    response when the RPC succeeds, and the code 255 with the RPC's error
    when it fails.  With no receive at all the goroutine still finishes,
    leaving the one value in the closed channel. *)
Theorem Wait_delivers_exactly_once (sched : list Turn) (s : Sys) :
  play answer sched (start (task.Wait t)) = Some s ->
  let turns := count_occ Turn_eq_dec sched Producer in
  w_chan (task.Wait t) = make_chan 1 /\
  w_err (task.Wait t) = None /\
  ch_cap (chan s) = 1 /\
  producer_step answer s <> Blocked /\
  producer_step answer s <> Crashed /\
  turns <= 3 /\
  (producer_step answer s = Finished <-> turns = 3) /\
  (ch_closed (chan s) = true <-> turns = 3) /\
  (turns < 2 -> received s ++ ch_buf (chan s) = []) /\
  (exists v,
     (2 <= turns -> received s ++ ch_buf (chan s) = [v]) /\
     (forall e, answer (TaskWait (t_id t)) = Failed e ->
        v = {| code := UnknownExitStatus; exitedAt := zeroTime;
               err := Some e |}) /\
     (forall r, answer (TaskWait (t_id t)) = Done r ->
        v = {| code := wait_ExitStatus r;
               exitedAt := FromTimestamp (wait_ExitedAt r);
               err := None |})) /\
  (exists s3,
     play answer [Producer; Producer; Producer] (start (task.Wait t)) = Some s3 /\
     producer_step answer s3 = Finished /\
     received s3 = [] /\
     ch_closed (chan s3) = true /\
     length (ch_buf (chan s3)) = 1).
Proof.
  intros Hplay turns.
  destruct delivers_exists as [es Hes].
  pose proof (play_staged es sched Hes 0 _ _ (start_staged es) Hplay) as Hs.
  simpl in Hs. fold turns in Hs.
  destruct (producer_step_staged es turns s Hes Hs) as (Hmove & Hfin & Hle).
  destruct Hs as [[Hcap Hst] _].
  split; [reflexivity|]. split; [reflexivity|]. split; [exact Hcap|].
  assert (Hstep : turns < 3 -> exists s', producer_step answer s = Moved s').
  { intros Hlt. destruct (Hmove Hlt) as (s' & Hs' & _). eauto. }
  split.
  { destruct (decide (turns < 3)) as [Hlt|Hge].
    - destruct (Hstep Hlt) as (s' & ->). discriminate.
    - rewrite Hfin by lia. discriminate. }
  split.
  { destruct (decide (turns < 3)) as [Hlt|Hge].
    - destruct (Hstep Hlt) as (s' & ->). discriminate.
    - rewrite Hfin by lia. discriminate. }
  split; [exact Hle|].
  split.
  { split; [|exact Hfin]. intros Hf.
    destruct (decide (turns < 3)) as [Hlt|Hge]; [|lia].
    destruct (Hstep Hlt) as (s' & Hs'). congruence. }
  split.
  { destruct turns as [|[|[|[|n]]]]; simpl in Hst; try contradiction.
    - destruct Hst as (_ & -> & _). split; [discriminate|lia].
    - destruct Hst as (_ & _ & -> & _). split; [discriminate|lia].
    - destruct Hst as (_ & -> & _). split; [discriminate|lia].
    - destruct Hst as (_ & -> & _). split; reflexivity. }
  split.
  { intros Hlt. destruct turns as [|[|n]]; simpl in Hst; [| |lia].
    - destruct Hst as (-> & _ & ->). reflexivity.
    - destruct Hst as (_ & -> & _ & ->). reflexivity. }
  split.
  { exists es. split; [|exact Hes].
    intros Hge. destruct turns as [|[|[|[|n]]]]; simpl in Hst;
      try contradiction; try lia.
    - destruct Hst as (_ & _ & Hone). exact Hone.
    - destruct Hst as (_ & _ & Hone). exact Hone. }
  unfold task.Wait, task.Wait_goroutine, start, play, producer_step. simpl.
  destruct (answer (TaskWait (t_id t))); simpl;
    eexists; (split; [reflexivity|]); repeat split.
Qed.
End WaitProps.

(** The wait RPC fails and the caller receives between the send and the
    close. *)
Lemma Wait_delivers_exactly_once_witness :
  let s := with_Wait (Failed (ErrTransport 14 "shim unavailable")) sampleScript in
  let final :=
    {| producer := Ret tt;
       chan := {| ch_cap := 1; ch_buf := []; ch_closed := true |};
       received := [{| code := 255%N; exitedAt := zeroTime;
                       err := Some (ErrTransport 14 "shim unavailable") |}] |} in
  play (scriptedAnswer s) [Producer; Producer; Consumer; Producer]
       (start (task.Wait (H := sampleDeps) sampleTask)) = Some final /\
  producer_step (scriptedAnswer s) final = Finished /\
  producer_step (scriptedAnswer s) final <> Blocked.
Proof.
  intros s final.
  destruct (Wait_delivers_exactly_once (H := sampleDeps) (scriptedAnswer s) sampleTask
              [Producer; Producer; Consumer; Producer] final eq_refl)
    as (_ & _ & _ & Hnb & _ & _ & Hfin & _).
  split; [reflexivity|]. split; [apply Hfin; reflexivity|exact Hnb].
Defined.

(** ** task.Exec *)

Section ExecProps.
Context `{Deps} {World : Type}.
Variable handle : forall o : Op, World -> resp o * World.

(** C8. Exec with the empty exec id is the program that returns the
    invalid-argument error and does nothing else, whatever the IO
    factory is: the factory is not invoked, and in every world the call
    issues no operation at all. *)
Theorem Exec_empty_id_before_io (t : task) (spec : option ProcessSpec)
        (ioCreate : Creator) (w : World) :
  let e := Errorf_w "exec id must not be empty: " (ErrSentinel InvalidArgument) in
  task.Exec t "" spec ioCreate = Ret (None, Some e) /\
  run handle (task.Exec t "" spec ioCreate) w = (Returned (None, Some e), w, []) /\
  IsInvalidArgument e = true /\
  Error e = "exec id must not be empty: invalid argument".
Proof. repeat split. Qed.

(** C9 (amended). Exec with a non-empty id whose IO factory has returned
    the handle [io].  If the exec RPC fails, the handle is cancelled,
    drained and closed (and then cancelled and closed once more by the
    deferred cleanup) before Exec returns the translated error.  If the
    process spec cannot be marshalled, the deferred cleanup cancels and
    closes the handle before Exec returns the error; it does not drain
    it. *)
Theorem Exec_failure_cleans_io (t : task) (id : string)
        (spec : option ProcessSpec) (ioCreate : Creator)
        (w0 w1 : World) (tr0 : list Event) (io : IO) :
  id <> "" ->
  run handle (ioCreate id) w0 = (Returned (Some io, None), w1, tr0) ->
  (forall e, MarshalAnyToProto (DynProcess spec) = Failed e ->
     let cleanup := [Ev (IOCancel io) tt; Ev (IOClose io) tt] in
     run handle (task.Exec t id spec ioCreate) w0 =
       (Returned (None, Some e), world_after handle cleanup w1, tr0 ++ cleanup) /\
     never is_IOWait cleanup) /\
  (forall pSpec cfg w2 e w3,
     MarshalAnyToProto (DynProcess spec) = Done pSpec ->
     handle (IOConfig io) w1 = (cfg, w2) ->
     let request :=
       {| exec_ContainerID := t_id t; exec_ExecID := id;
          exec_Terminal := cfg_Terminal cfg; exec_Stdin := cfg_Stdin cfg;
          exec_Stdout := cfg_Stdout cfg; exec_Stderr := cfg_Stderr cfg;
          exec_Spec := Some pSpec |} in
     handle (TaskExec request) w2 = (Failed e, w3) ->
     let cleanup :=
       [Ev (IOCancel io) tt; Ev (IOWait io) tt; Ev (IOClose io) tt;
        Ev (IOCancel io) tt; Ev (IOClose io) tt] in
     run handle (task.Exec t id spec ioCreate) w0 =
       (Returned (None, Some (ToNative e)), world_after handle cleanup w3,
        tr0 ++ Ev (IOConfig io) cfg :: Ev (TaskExec request) (Failed e)
            :: cleanup)).
Proof.
  intros Hid Hio. split.
  - intros e Hm cleanup. split; [|reflexivity].
    unfold task.Exec. destruct (decide (id = "")); [contradiction|].
    rewrite run_bind, Hio. rewrite run_defer, Hm. simpl.
    unfold cleanup, world_after, ops. simpl.
    repeat step_handle. rewrite ?app_nil_r. reflexivity.
  - intros pSpec cfg w2 e w3 Hm Hcfg request Hexec cleanup.
    unfold task.Exec. destruct (decide (id = "")); [contradiction|].
    rewrite run_bind, Hio. rewrite run_defer, Hm. simpl.
    rewrite Hcfg. fold request. rewrite Hexec. simpl.
    unfold cleanup, world_after, ops. simpl.
    repeat step_handle. reflexivity.
Qed.
End ExecProps.

(** The process spec cannot be marshalled: the handle made by the factory
    is cancelled and closed, and never drained. *)
Lemma Exec_marshal_failure_no_drain :
  run scripted
      (task.Exec (H := unregisteredDeps) sampleTask "exec1" sampleSpec
                 (creatorOf (mkIO 7)))
      sampleScript =
    (Returned (None, Some (ErrWrap "type specs.Process: not found"
                                   (ErrSentinel NotFound))),
     sampleScript,
     [Ev (IOCancel (mkIO 7)) tt; Ev (IOClose (mkIO 7)) tt]).
Proof. vm_compute. reflexivity. Qed.

(** A factory that returns neither a handle nor an error: Exec panics at
    the call of Config, and the deferred cleanup has nothing to do. *)
Example Exec_nil_io_panics :
  run scripted
      (task.Exec (H := sampleDeps) sampleTask "exec1" sampleSpec
                 (fun _ => Ret (None, None)))
      sampleScript =
    (Panicked, sampleScript, []).
Proof. reflexivity. Qed.

(** A successful exec returns the process with the handle of the factory
    and leaves the handle alone. *)
Example Exec_success_run :
  exists tr,
    run scripted
        (task.Exec (H := sampleDeps) sampleTask "exec1" sampleSpec (creatorOf (mkIO 7)))
        sampleScript =
      (Returned (Some {| p_id := "exec1"; p_task := sampleTask;
                         p_io := Some (mkIO 7) |}, None),
       sampleScript, tr) /\
    map is_IOClose (ops tr) = [false; false].
Proof. eexists. split; reflexivity. Qed.

Lemma Exec_failure_cleans_io_witness :
  let s := with_Exec (Failed (ErrTransport 14 "shim unavailable")) sampleScript in
  run scripted
      (task.Exec (H := sampleDeps) sampleTask "exec1" sampleSpec (creatorOf (mkIO 7)))
      s =
    (Returned (None, Some (ErrWrap "shim unavailable" (ErrSentinel Unavailable))),
     s,
     [Ev (IOConfig (mkIO 7)) (s_Config s);
      Ev (TaskExec {| exec_ContainerID := "c1"; exec_ExecID := "exec1";
                      exec_Terminal := false; exec_Stdin := "in";
                      exec_Stdout := "out"; exec_Stderr := "err";
                      exec_Spec :=
                        Some {| any_TypeUrl :=
                                  "types.containerd.io/opencontainers/runtime-spec/1/Process";
                                any_Value := "/" |} |})
         (Failed (ErrTransport 14 "shim unavailable"));
      Ev (IOCancel (mkIO 7)) tt; Ev (IOWait (mkIO 7)) tt; Ev (IOClose (mkIO 7)) tt;
      Ev (IOCancel (mkIO 7)) tt; Ev (IOClose (mkIO 7)) tt]).
Proof.
  intros s.
  destruct (Exec_failure_cleans_io (H := sampleDeps) scripted sampleTask "exec1"
              sampleSpec (creatorOf (mkIO 7)) s s [] (mkIO 7)
              ltac:(discriminate) eq_refl)
    as (_ & Hrpc).
  exact (Hrpc _ (s_Config s) s (ErrTransport 14 "shim unavailable") s
              eq_refl eq_refl eq_refl).
Defined.

(** ** task.Metrics *)

Section MetricsProps.
Context `{Deps} {World : Type}.
Variable handle : forall o : Op, World -> resp o * World.

(** C10. The metrics RPC succeeds with an empty result.  If the status
    lookup that follows fails with a not-found error, Metrics returns
    that error; if the lookup succeeds, Metrics returns the error "no
    metrics received", which is not a not-found error; and whatever the
    lookup answers, Metrics returns an error and no metric. *)
Theorem Metrics_empty_result (t : task) (w0 w1 : World)
        (response : MetricsResponse) :
  handle (TaskMetrics ["id==" +:+ t_id t]) w0 = (Done response, w1) ->
  Metrics_ response = [] ->
  let first := Ev (TaskMetrics ["id==" +:+ t_id t]) (Done response) in
  (forall e w2,
     handle (TaskGet (t_id t) "") w1 = (Failed e, w2) ->
     IsNotFound (ToNative e) = true ->
     run handle (task.Metrics t) w0 =
       (Returned (None, Some (ToNative e)), w2,
        [first; Ev (TaskGet (t_id t) "") (Failed e)])) /\
  (forall r w2,
     handle (TaskGet (t_id t) "") w1 = (Done r, w2) ->
     run handle (task.Metrics t) w0 =
       (Returned (None, Some (ErrNew "no metrics received")), w2,
        [first; Ev (TaskGet (t_id t) "") (Done r)])) /\
  IsNotFound (ErrNew "no metrics received") = false /\
  (exists e w2 tr,
     run handle (task.Metrics t) w0 = (Returned (None, Some e), w2, tr)).
Proof.
  intros Hm Hempty first.
  assert (Hrun : run handle (task.Metrics t) w0 =
                 let '(out, w2, tr) :=
                   run handle
                     (let* (_, err) := task.Status t in
                      if nonnil_and IsNotFound err then Ret (None, err)
                      else Ret (None, Some (ErrNew "no metrics received"))) w1 in
                 (out, w2, first :: tr)).
  { unfold task.Metrics, call. simpl. rewrite Hm, Hempty. reflexivity. }
  rewrite Hrun, run_bind, run_Status.
  split; [|split; [|split]].
  - intros e w2 Hget Hnf. rewrite Hget. simpl. rewrite Hnf. reflexivity.
  - intros r w2 Hget. rewrite Hget. reflexivity.
  - reflexivity.
  - destruct (handle (TaskGet (t_id t) "") w1) as [[r|e] w2]; simpl.
    + eexists _, _, _. reflexivity.
    + destruct (IsNotFound (ToNative e)); eexists _, _, _; reflexivity.
Qed.
End MetricsProps.

Lemma Metrics_empty_result_witness :
  let s := with_Get (Failed (ErrTransport 5 "task c1 not found")) sampleScript in
  run scripted (task.Metrics (H := sampleDeps) sampleTask) s =
    (Returned (None, Some (ErrWrap "task c1 not found" (ErrSentinel NotFound))), s,
     [Ev (TaskMetrics ["id==c1"]) (Done {| Metrics_ := [] |});
      Ev (TaskGet "c1" "") (Failed (ErrTransport 5 "task c1 not found"))]).
Proof.
  intros s.
  destruct (Metrics_empty_result (H := sampleDeps) scripted sampleTask s s
              {| Metrics_ := [] |} eq_refl eq_refl)
    as (Hnf & _).
  exact (Hnf (ErrTransport 5 "task c1 not found") s eq_refl eq_refl).
Defined.

(** ** task.Checkpoint *)

Section TraceLemmas.
Variable f : Event -> bool.

Lemma after_first_skip (l1 l2 : list Event) :
  forallb (fun e => negb (f e)) l1 = true ->
  after_first f (l1 ++ l2) = after_first f l2.
Proof.
  induction l1 as [|e l1 IH]; simpl; [reflexivity|].
  intros [He Hl]%andb_true_iff. apply negb_true_iff in He. rewrite He. auto.
Qed.

Lemma after_first_none (l : list Event) :
  forallb (fun e => negb (f e)) l = true -> after_first f l = None.
Proof.
  intros Hl. rewrite <- (app_nil_r l). rewrite after_first_skip by exact Hl.
  reflexivity.
Qed.

(** Events that [f] accepts only on operations that [g] accepts are
    absent from a trace without such operations. *)
Lemma calm_skips (g : Op -> bool) (l : list Event) :
  (forall e, f e = true -> g (ev_op e) = true) ->
  existsb g (ops l) = false ->
  forallb (fun e => negb (f e)) l = true.
Proof.
  intros Hfg. induction l as [|e l IH]; simpl; [reflexivity|].
  intros [He Hl]%orb_false_iff. rewrite (IH Hl), andb_true_r.
  destruct (f e) eqn:Hf; [|reflexivity]. rewrite (Hfg e Hf) in He. discriminate.
Qed.

Lemma prologue_skips (l : list Event) :
  (forall e, f e = true -> is_prologue (ev_op e) = false) ->
  forallb is_prologue (ops l) = true ->
  forallb (fun e => negb (f e)) l = true.
Proof.
  intros Hfg. induction l as [|e l IH]; simpl; [reflexivity|].
  intros [He Hl]%andb_true_iff. rewrite (IH Hl), andb_true_r.
  destruct (f e) eqn:Hf; [|reflexivity]. rewrite (Hfg e Hf) in He. discriminate.
Qed.
End TraceLemmas.

Lemma last_two_snoc (l : list Event) (a b : Event) :
  last_two (l ++ [a; b]) = Some (ev_op a, ev_op b).
Proof.
  induction l as [|x l IH]; [reflexivity|].
  simpl. rewrite IH. destruct (l ++ [a; b]) as [|y [|z r]] eqn:E; try reflexivity.
  - destruct l; discriminate.
  - destruct l as [|? [|? ?]]; discriminate.
Qed.

Lemma filter_pause_calm (l : list Event) :
  existsb is_bracket (ops l) = false -> List.filter is_TaskPause (ops l) = [].
Proof.
  induction l as [|e l IH]; simpl; [reflexivity|].
  intros [He Hl]%orb_false_iff. rewrite (IH Hl).
  destruct e as [o r]. simpl in *.
  destruct o; simpl in *; try reflexivity; discriminate.
Qed.

Lemma filter_pause_prologue (l : list Event) :
  forallb is_prologue (ops l) = true -> List.filter is_TaskPause (ops l) = [].
Proof.
  induction l as [|e l IH]; simpl; [reflexivity|].
  intros [He Hl]%andb_true_iff. rewrite (IH Hl).
  destruct e as [o r]. simpl in *.
  destruct o; simpl in *; try reflexivity; discriminate.
Qed.

Lemma pause_succeeded_op (e : Event) :
  pause_succeeded e = true ->
  is_bracket (ev_op e) = true /\ is_prologue (ev_op e) = false.
Proof. destruct e as [o r]; destruct o; simpl; try discriminate; auto. Qed.

Lemma observed_unpaused_op (e : Event) :
  observed_unpaused e = true ->
  is_bracket (ev_op e) = true /\ is_prologue (ev_op e) = false.
Proof. destruct e as [o r]; destruct o; simpl; try discriminate; auto. Qed.

Section CheckpointProps.
Context `{Deps} {World : Type}.
Variable handle : forall o : Op, World -> resp o * World.

(** The capture steps return, and issue none of the operations around
    them. *)
Lemma run_checkpointSteps_calm (t : task) (cr : Container)
      (i : CheckpointTaskInfo) (request : CheckpointTaskRequest)
      (w w' : World) (out : Outcome (option Image * option error))
      (tr : list Event) :
  run handle (task.checkpointSteps t cr i request) w = (out, w', tr) ->
  (exists a, out = Returned a) /\ existsb is_bracket (ops tr) = false.
Proof.
  intros Hrun.
  unfold task.checkpointSteps, task.checkpointTask, task.checkpointImage,
    task.checkpointRWSnapshot, call in Hrun.
  simpl in Hrun.
  destruct (task.isCheckpointPathExist _ _);
    repeat step_in Hrun; injection Hrun as <- <- <-; split; eauto.
Qed.

Lemma run_Pause (t : task) (w : World) :
  run handle (task.Pause t) w =
  let '(r, w1) := handle (TaskPause (t_id t)) w in
  (Returned (ToNative_nilable r), w1, [Ev (TaskPause (t_id t)) r]).
Proof.
  unfold task.Pause, call. simpl.
  destruct (handle (TaskPause (t_id t)) w) as [r w1]. reflexivity.
Qed.

(** The ways the status lookup, the pause and the capture steps can go:
    the lookup fails; the pause fails; the task was paused by the call
    and is resumed after the steps; the task was already paused. *)
Lemma run_checkpointPaused_cases (t : task) (cr : Container)
      (i : CheckpointTaskInfo) (request : CheckpointTaskRequest)
      (w w' : World) (out : Outcome (option Image * option error))
      (tr : list Event) :
  run handle (task.checkpointPaused t cr i request) w = (out, w', tr) ->
  (exists e, tr = [Ev (TaskGet (t_id t) "") (Failed e)] /\
             out = Returned (None, Some (ToNative e))) \/
  (exists r e,
     observed_unpaused (Ev (TaskGet (t_id t) "") (Done r)) = true /\
     tr = [Ev (TaskGet (t_id t) "") (Done r); Ev (TaskPause (t_id t)) (Some e)] /\
     out = Returned (None, Some (ToNative e))) \/
  (exists r steps rr w1 w2,
     observed_unpaused (Ev (TaskGet (t_id t) "") (Done r)) = true /\
     tr = Ev (TaskGet (t_id t) "") (Done r) :: Ev (TaskPause (t_id t)) None
            :: steps ++ [Ev (TaskResume (t_id t)) rr] /\
     run handle (task.checkpointSteps t cr i request) w1 = (out, w2, steps)) \/
  (exists r steps w1,
     observed_unpaused (Ev (TaskGet (t_id t) "") (Done r)) = false /\
     tr = Ev (TaskGet (t_id t) "") (Done r) :: steps /\
     run handle (task.checkpointSteps t cr i request) w1 = (out, w', steps)).
Proof.
  intros Hrun. unfold task.checkpointPaused in Hrun.
  rewrite run_bind, run_Status in Hrun.
  destruct (handle (TaskGet (t_id t) "") w) as [[r|e] w1];
    cbv beta iota zeta in Hrun.
  2:{ simpl in Hrun. injection Hrun as <- <- <-. left. eauto. }
  destruct (decide _) as [Hne|Heq].
  - rewrite run_bind, run_Pause in Hrun.
    destruct (handle (TaskPause (t_id t)) w1) as [[e|] w2];
      cbv beta iota zeta delta [ToNative_nilable] in Hrun.
    + simpl in Hrun. injection Hrun as <- <- <-. right; left. exists r, e.
      split; [|split; reflexivity].
      simpl. rewrite bool_decide_eq_false_2 by exact Hne. reflexivity.
    + rewrite run_defer in Hrun.
      destruct (run handle (task.checkpointSteps t cr i request) w2)
        as [[o w3] steps] eqn:Hsteps.
      destruct (run_checkpointSteps_calm _ _ _ _ _ _ _ _ Hsteps) as [[a ->] _].
      unfold task.Resume, call in Hrun. simpl in Hrun.
      destruct (handle (TaskResume (t_id t)) w3) as [rr w4]; simpl in Hrun.
      injection Hrun as <- <- <-. right; right; left.
      exists r, steps, rr, w2, w3. split; [|split; [reflexivity|exact Hsteps]].
      simpl. rewrite bool_decide_eq_false_2 by exact Hne. reflexivity.
  - destruct (run handle (task.checkpointSteps t cr i request) w1)
      as [[o w3] steps] eqn:Hsteps.
    injection Hrun as <- <- <-. right; right; right.
    exists r, steps, w1. split; [|split; [reflexivity|exact Hsteps]].
    simpl. apply dec_stable in Heq. rewrite bool_decide_eq_true_2 by exact Heq.
    reflexivity.
Qed.

Opaque task.checkpointPaused.

(** The ways a checkpoint can go: the lease is refused; or the prologue
    (lease, container lookup, clock) is followed by the release of the
    lease, with the status lookup, the pause and the capture steps in
    between unless an earlier step failed. *)
Lemma run_Checkpoint_cases (t : task) (opts : list CheckpointTaskOpts)
      (w0 w' : World) (out : Outcome (option Image * option error))
      (tr : list Event) :
  run handle (task.Checkpoint t opts) w0 = (out, w', tr) ->
  (exists e, tr = [Ev ClientWithLease (Failed e)]) \/
  (exists head,
     forallb is_prologue (ops head) = true /\
     (tr = head ++ [Ev LeaseDone tt] \/
      exists cr i request w1 w2 trp,
        tr = head ++ trp ++ [Ev LeaseDone tt] /\
        run handle (task.checkpointPaused t cr i request) w1 = (out, w2, trp))).
Proof.
  intros Hrun. unfold task.Checkpoint, call in Hrun. simpl in Hrun.
  destruct (handle ClientWithLease w0) as [[[]|e] w1]; simpl in Hrun.
  2:{ injection Hrun as <- <- <-. left. eauto. }
  right.
  destruct (handle (ContainerGet (t_id t)) w1) as [[cr|e] w2]; simpl in Hrun.
  2:{ step_in Hrun. injection Hrun as <- <- <-.
      exists [Ev ClientWithLease (Done tt); Ev (ContainerGet (t_id t)) (Failed e)].
      split; [reflexivity|]. left. reflexivity. }
  destruct (applyCheckpointOpts opts _) as [i [e|]]; simpl in Hrun.
  { step_in Hrun. injection Hrun as <- <- <-.
    exists [Ev ClientWithLease (Done tt); Ev (ContainerGet (t_id t)) (Done cr)].
    split; [reflexivity|]. left. reflexivity. }
  assert (Hend : forall (head : list Event) i' request w3 o' w4 tr',
    forallb is_prologue (ops head) = true ->
    run handle
        (defer (fun _ : option (option Image * option error) => Vis LeaseDone Ret)
               (task.checkpointPaused t cr i' request)) w3 = (o', w4, tr') ->
    (o', w4, head ++ tr') = (out, w', tr) ->
    exists head0,
      forallb is_prologue (ops head0) = true /\
      (tr = head0 ++ [Ev LeaseDone tt] \/
       exists cr0 i0 request0 w1' w2' trp,
         tr = head0 ++ trp ++ [Ev LeaseDone tt] /\
         run handle (task.checkpointPaused t cr0 i0 request0) w1' = (out, w2', trp))).
  { intros head i' request w3 o' w4 tr' Hhead Hr Heq. rewrite run_defer in Hr.
    destruct (run handle (task.checkpointPaused t cr i' request) w3)
      as [[o w5] trp] eqn:Hp.
    exists head. split; [exact Hhead|]. right.
    exists cr, i', request, w3, w5, trp.
    destruct o as [a|]; simpl in Hr;
      destruct (handle LeaseDone w5) as [[] w6]; simpl in Hr;
      injection Hr as <- <- <-; injection Heq as <- <- <-;
      (split; [reflexivity|exact Hp]). }
  destruct (decide (cti_Name i = "")) as [Hname|Hname]; simpl in Hrun.
  - destruct (handle TimeNow w2) as [now w3]; simpl in Hrun.
    destruct (cti_Options i) as [o|]; [destruct (MarshalAnyToProto o)|];
      simpl in Hrun.
    + destruct (run handle _ w3) as [[o' w4] tr'] eqn:E; simpl in Hrun.
      exact (Hend [Ev ClientWithLease (Done tt);
                   Ev (ContainerGet (t_id t)) (Done cr); Ev TimeNow now]
                  _ _ _ _ _ _ eq_refl E Hrun).
    + step_in Hrun. injection Hrun as <- <- <-.
      exists [Ev ClientWithLease (Done tt);
              Ev (ContainerGet (t_id t)) (Done cr); Ev TimeNow now].
      split; [reflexivity|]. left. reflexivity.
    + destruct (run handle _ w3) as [[o' w4] tr'] eqn:E; simpl in Hrun.
      exact (Hend [Ev ClientWithLease (Done tt);
                   Ev (ContainerGet (t_id t)) (Done cr); Ev TimeNow now]
                  _ _ _ _ _ _ eq_refl E Hrun).
  - destruct (cti_Options i) as [o|]; [destruct (MarshalAnyToProto o)|];
      simpl in Hrun.
    + destruct (run handle _ w2) as [[o' w4] tr'] eqn:E; simpl in Hrun.
      exact (Hend [Ev ClientWithLease (Done tt);
                   Ev (ContainerGet (t_id t)) (Done cr)]
                  _ _ _ _ _ _ eq_refl E Hrun).
    + step_in Hrun. injection Hrun as <- <- <-.
      exists [Ev ClientWithLease (Done tt);
              Ev (ContainerGet (t_id t)) (Done cr)].
      split; [reflexivity|]. left. reflexivity.
    + destruct (run handle _ w2) as [[o' w4] tr'] eqn:E; simpl in Hrun.
      exact (Hend [Ev ClientWithLease (Done tt);
                   Ev (ContainerGet (t_id t)) (Done cr)]
                  _ _ _ _ _ _ eq_refl E Hrun).
Qed.

Transparent task.checkpointPaused.

(** C6. In every run of Checkpoint, whatever the answers of the services:
    if the pause RPC was issued and answered without error, then the
    last two operations of the run, after the pause, are the resume RPC
    of the task and the release of the lease, whether the capture steps
    in between succeeded or one of them failed.  The pause is issued
    right after a status lookup that reports a status other than paused,
    and at most once. *)
Theorem Checkpoint_resumes_paused_task (t : task)
        (opts : list CheckpointTaskOpts) (w0 w' : World)
        (out : Outcome (option Image * option error)) (tr : list Event) :
  run handle (task.Checkpoint t opts) w0 = (out, w', tr) ->
  (forall post,
     after_first pause_succeeded tr = Some post ->
     last_two post = Some (TaskResume (t_id t), LeaseDone)) /\
  (forall post,
     after_first observed_unpaused tr = Some post ->
     option_map ev_op (head post) = Some (TaskPause (t_id t))) /\
  length (List.filter is_TaskPause (ops tr)) <= 1.
Proof.
  intros Hrun.
  assert (Hskip : forall f head rest,
            (forall e, f e = true ->
               is_bracket (ev_op e) = true /\ is_prologue (ev_op e) = false) ->
            forallb is_prologue (ops head) = true ->
            after_first f (head ++ rest) = after_first f rest).
  { intros f head rest Hf Hhead. apply after_first_skip.
    apply prologue_skips; [|exact Hhead]. intros e He. apply (Hf e He). }
  assert (Hcalm : forall f steps rest,
            (forall e, f e = true ->
               is_bracket (ev_op e) = true /\ is_prologue (ev_op e) = false) ->
            existsb is_bracket (ops steps) = false ->
            after_first f (steps ++ rest) = after_first f rest).
  { intros f steps rest Hf Hsteps. apply after_first_skip.
    apply (calm_skips f is_bracket); [|exact Hsteps]. intros e He. apply (Hf e He). }
  assert (Hcount : forall head rest,
            forallb is_prologue (ops head) = true ->
            List.filter is_TaskPause (ops (head ++ rest)) =
            List.filter is_TaskPause (ops rest)).
  { intros head rest Hhead. unfold ops. rewrite map_app, List.filter_app.
    fold (ops head). rewrite (filter_pause_prologue head Hhead). reflexivity. }
  destruct (run_Checkpoint_cases t opts w0 w' out tr Hrun)
    as [[e ->]|(head & Hhead & [->|(cr & i & request & w1 & w2 & trp & -> & Hp)])].
  - repeat split; try discriminate. simpl. lia.
  - rewrite Hcount by exact Hhead.
    rewrite (Hskip pause_succeeded) by (exact Hhead || exact pause_succeeded_op).
    rewrite (Hskip observed_unpaused)
      by (exact Hhead || exact observed_unpaused_op).
    repeat split; try discriminate. simpl. lia.
  - rewrite Hcount by exact Hhead.
    rewrite (Hskip pause_succeeded) by (exact Hhead || exact pause_succeeded_op).
    rewrite (Hskip observed_unpaused)
      by (exact Hhead || exact observed_unpaused_op).
    destruct (run_checkpointPaused_cases t cr i request w1 w2 out trp Hp)
      as [(e & -> & _)
         |[(r & e & Hobs & -> & _)
          |[(r & steps & rr & wa & wb & Hobs & -> & Hsteps)
           |(r & steps & wa & Hobs & -> & Hsteps)]]].
    + split; [|split].
      * intros post Hpost. simpl in Hpost. discriminate.
      * intros post Hpost. simpl in Hpost. discriminate.
      * simpl. lia.
    + cbn [app after_first]. rewrite Hobs. cbn [pause_succeeded].
      split; [|split].
      * intros post Hpost. simpl in Hpost. discriminate.
      * intros post [= <-]. reflexivity.
      * simpl. lia.
    + destruct (run_checkpointSteps_calm _ _ _ _ _ _ _ _ Hsteps) as [_ Hquiet].
      cbn [app after_first]. rewrite Hobs. cbn [pause_succeeded].
      split; [|split].
      * intros post [= <-]. rewrite <- List.app_assoc. apply last_two_snoc.
      * intros post [= <-]. reflexivity.
      * unfold ops. cbn [map List.filter is_TaskPause ev_op].
        change (map ev_op ((steps ++ [Ev (TaskResume (t_id t)) rr])
                           ++ [Ev LeaseDone tt]))
          with (ops ((steps ++ [Ev (TaskResume (t_id t)) rr])
                     ++ [Ev LeaseDone tt])).
        rewrite <- List.app_assoc. unfold ops. rewrite map_app, List.filter_app.
        fold (ops steps). rewrite (filter_pause_calm steps Hquiet).
        simpl. lia.
    + destruct (run_checkpointSteps_calm _ _ _ _ _ _ _ _ Hsteps) as [_ Hquiet].
      cbn [app after_first]. rewrite Hobs. cbn [pause_succeeded].
      rewrite (Hcalm pause_succeeded)
        by (exact Hquiet || exact pause_succeeded_op).
      rewrite (Hcalm observed_unpaused)
        by (exact Hquiet || exact observed_unpaused_op).
      split; [|split]; try discriminate.
      unfold ops. cbn [map List.filter is_TaskPause ev_op].
      rewrite map_app, List.filter_app.
      fold (ops steps). rewrite (filter_pause_calm steps Hquiet).
      simpl. lia.
Qed.

(** C7 (amended). The lease is granted, the container's runtime is the
    runc-v2 runtime and the options leave CheckpointOptions with a
    non-empty image path.  Then in every run: Checkpoint never looks up
    the source image, computes a diff, publishes an index or registers
    an image; it returns the image with the empty target exactly when
    the checkpoint RPC has been issued and has succeeded; and otherwise
    (an earlier step or the RPC itself failed) it returns an error and no
    image. *)
Theorem Checkpoint_external_path_short_circuit
        (t : task) (opts : list CheckpointTaskOpts) (w0 w1 w2 : World)
        (cr : Container) (i : CheckpointTaskInfo) (o : CheckpointOptions) :
  handle ClientWithLease w0 = (Done tt, w1) ->
  handle (ContainerGet (t_id t)) w1 = (Done cr, w2) ->
  cr_RuntimeName cr = RuntimeRuncV2 ->
  applyCheckpointOpts opts
    {| cti_Name := ""; cti_ParentCheckpoint := ""; cti_Options := None;
       cti_runtime := cr_RuntimeName cr |} = (i, None) ->
  cti_Options i = Some (DynCheckpointOptions o) ->
  co_ImagePath o <> "" ->
  exists out w' tr,
    run handle (task.Checkpoint t opts) w0 = (out, w', tr) /\
    never is_index_step tr /\
    (existsb checkpoint_succeeded tr = true ->
     out = Returned (Some zeroImage, None)) /\
    (existsb checkpoint_succeeded tr = false ->
     exists e, out = Returned (None, Some e)) /\
    (forall im, out = Returned (Some im, None) ->
                existsb checkpoint_succeeded tr = true) /\
    img_Target zeroImage = zeroDescriptor.
Proof.
  intros Hlease Hcr Hrt Hopts Hopt Hpath.
  unfold task.Checkpoint, task.checkpointPaused, task.checkpointSteps,
    task.checkpointTask, task.isCheckpointPathExist, task.Status, task.Pause,
    task.Resume, call.
  simpl. rewrite Hlease. simpl. rewrite Hcr. simpl. rewrite Hopts. simpl.
  rewrite Hrt.
  repeat first
    [ step_handle
    | match goal with
      | |- context [decide ?P] =>
          destruct (decide P); try contradiction; try congruence; simpl
      end
    | rewrite Hopt; simpl
    | match goal with
      | |- context [MarshalAnyToProto ?v] =>
          destruct (MarshalAnyToProto v); simpl
      end ];
    eexists _, _, _; (split; [reflexivity|]);
    (split; [reflexivity|]); repeat split;
    try (intros; discriminate); eauto.
Qed.
End CheckpointProps.

(** *** Checkpoint on concrete tasks *)

(** A failure injected into each step after the pause: the runtime-state
    capture, the image lookup, the diff, the publication of the index, the
    registration of the image.  Every run ends with the resume and the
    release of the lease. *)
Example Checkpoint_failure_injected_runs :
  let ends_resumed s :=
    last_two (snd (run scripted (task.Checkpoint (H := sampleDeps) sampleTask []) s))
    = Some (TaskResume "c1", LeaseDone) in
  ends_resumed (with_Checkpoint (Failed sampleFailure) sampleScript) /\
  ends_resumed (with_ImageGet (Failed sampleFailure) sampleScript) /\
  ends_resumed (with_CreateDiff (Failed sampleFailure) sampleScript) /\
  ends_resumed (with_WriteIndex (Failed sampleFailure) sampleScript) /\
  ends_resumed (with_ImageCreate (Failed sampleFailure) sampleScript) /\
  ends_resumed sampleScript.
Proof. vm_compute. repeat split. Qed.

Example Checkpoint_success_run :
  checkpointOps [] sampleScript =
  [ClientWithLease; ContainerGet "c1"; TimeNow; TaskGet "c1" ""; TaskPause "c1";
   TaskCheckpoint {| cp_ContainerID := "c1"; cp_ParentCheckpoint := "";
                     cp_Options := None |};
   ImageGet "docker.io/library/busybox:latest";
   CreateDiff "overlayfs" "c1" "checkpoint-rw-c1";
   WriteIndex {| idx_SchemaVersion := 2;
                 idx_Manifests :=
                   [zeroDescriptor;
                    {| desc_MediaType := ""; desc_Digest := ""; desc_Size := 0;
                       desc_Platform :=
                         Some {| plat_OS := "linux"; plat_Architecture := "amd64" |};
                       desc_Annotations := ∅ |}];
                 idx_Annotations :=
                   {["image.name" := "docker.io/library/busybox:latest"]} |} "c1";
   ImageCreate {| img_Name := "containerd.io/checkpoint/c1:01-02-2006-15:04:05";
                  img_Target := zeroDescriptor;
                  img_Labels := {["containerd.io/checkpoint" := "true"]} |};
   TaskResume "c1"; LeaseDone].
Proof. vm_compute. reflexivity. Qed.

Lemma Checkpoint_resumes_paused_task_witness :
  let s := with_ImageCreate (Failed sampleFailure) sampleScript in
  exists post,
    after_first pause_succeeded
      (snd (run scripted (task.Checkpoint (H := sampleDeps) sampleTask []) s))
    = Some post /\
    last_two post = Some (TaskResume "c1", LeaseDone).
Proof.
  intros s.
  destruct (Checkpoint_resumes_paused_task (H := sampleDeps) scripted sampleTask []
              s _ _ _ ltac:(vm_compute; reflexivity))
    as (Hresumed & _).
  eexists. split; [vm_compute; reflexivity|].
  apply Hresumed. vm_compute. reflexivity.
Defined.

(** The runtime is runc-v2 and the options carry an image path, but the
    checkpoint RPC fails: Checkpoint returns the error and no image. *)
Lemma Checkpoint_external_path_rpc_failure :
  let s := with_Checkpoint (Failed sampleFailure) sampleScript in
  s_ContainerGet s =
    Done {| cr_Image := "docker.io/library/busybox:latest";
            cr_RuntimeName := RuntimeRuncV2 (Deps := sampleDeps);
            cr_SnapshotKey := "c1"; cr_Snapshotter := "overlayfs" |} /\
  (exists w tr,
     run scripted
         (task.Checkpoint (H := sampleDeps) sampleTask [withImagePath "/ckpt/c1"]) s
     = (Returned (None, Some (ErrWrap "injected failure" (ErrSentinel Internal))),
        w, tr)) /\
  checkpointOps [withImagePath "/ckpt/c1"] s =
  [ClientWithLease; ContainerGet "c1"; TimeNow; TaskGet "c1" ""; TaskPause "c1";
   TaskCheckpoint
     {| cp_ContainerID := "c1"; cp_ParentCheckpoint := "";
        cp_Options := Some {| any_TypeUrl := "containerd.runc.v1.CheckpointOptions";
                              any_Value := "/ckpt/c1" |} |};
   TaskResume "c1"; LeaseDone].
Proof. vm_compute. repeat split. eexists _, _. reflexivity. Qed.

Lemma Checkpoint_external_path_short_circuit_witness :
  exists w tr,
    run scripted
        (task.Checkpoint (H := sampleDeps) sampleTask [withImagePath "/ckpt/c1"])
        sampleScript
    = (Returned (Some zeroImage, None), w, tr).
Proof.
  destruct (Checkpoint_external_path_short_circuit (H := sampleDeps) scripted
              sampleTask [withImagePath "/ckpt/c1"] sampleScript sampleScript
              sampleScript _ _
              {| co_Exit := false; co_ImagePath := "/ckpt/c1"; co_WorkPath := "" |}
              eq_refl eq_refl eq_refl eq_refl eq_refl ltac:(discriminate))
    as (out & w & tr & Hrun & _ & Hok & _).
  assert (Hrpc : existsb checkpoint_succeeded tr = true).
  { pose proof (f_equal snd Hrun) as Htr. vm_compute in Htr. subst tr. reflexivity. }
  rewrite (Hok Hrpc) in Hrun. eexists _, _. exact Hrun.
Defined.

(** * Further properties of the task controller *)

(** ** Delete, Metrics and Exec on their other paths *)

Section MoreTaskProps.
Context `{Deps} {World : Type}.
Variable handle : forall o : Op, World -> resp o * World.

(** The options of Delete run in order up to the first one that fails. *)
Lemma run_applyDeleteOpts_first_failure (t : task)
      (pre post : list ProcessDeleteOpts) (o : ProcessDeleteOpts)
      (w0 w1 w2 : World) (tr0 tr1 : list Event) (e : error) :
  run handle (applyDeleteOpts pre t) w0 = (Returned None, w1, tr0) ->
  run handle (o t) w1 = (Returned (Some e), w2, tr1) ->
  run handle (applyDeleteOpts (pre ++ o :: post) t) w0 =
    (Returned (Some e), w2, tr0 ++ tr1).
Proof.
  revert w0 tr0.
  induction pre as [|p pre IH]; intros w0 tr0 Hpre Ho;
    cbn [applyDeleteOpts app] in *.
  - simpl in Hpre. injection Hpre as <- <-. rewrite run_bind, Ho. simpl.
    rewrite app_nil_r. reflexivity.
  - rewrite run_bind in Hpre |- *.
    destruct (run handle (p t) w0) as [[[[e0|]|] wa] tra]; try discriminate.
    destruct (run handle (applyDeleteOpts pre t) wa) as [[o' wb] trb] eqn:Hrest.
    injection Hpre as -> -> <-.
    rewrite (IH wa trb Hrest Ho). rewrite List.app_assoc. reflexivity.
Qed.

(** X2. Delete runs its options in order; when one of them returns an
    error, the options after it are not run, the status is not looked up,
    and Delete returns that error as it is, with no exit status. *)
Theorem Delete_stops_at_failing_option (t : task)
        (pre post : list ProcessDeleteOpts) (o : ProcessDeleteOpts)
        (w0 w1 w2 : World) (tr0 tr1 : list Event) (e : error) :
  run handle (applyDeleteOpts pre t) w0 = (Returned None, w1, tr0) ->
  run handle (o t) w1 = (Returned (Some e), w2, tr1) ->
  run handle (task.Delete t (pre ++ o :: post)) w0 =
    (Returned (None, Some e), w2, tr0 ++ tr1).
Proof.
  intros Hpre Ho. unfold task.Delete.
  rewrite run_bind, (run_applyDeleteOpts_first_failure t pre post o _ _ _ _ _ _ Hpre Ho).
  simpl. rewrite app_nil_r. reflexivity.
Qed.

(** X3. When the status lookup of Delete fails with a not-found error,
    Delete returns that error and does nothing more: it does not resolve
    the runtime name, does not touch the IO handle and does not issue the
    delete RPC. *)
Theorem Delete_not_found_stops (t : task) (opts : list ProcessDeleteOpts)
        (w0 w1 w2 : World) (tr0 : list Event) (e : error) :
  run handle (applyDeleteOpts opts t) w0 = (Returned None, w1, tr0) ->
  handle (TaskGet (t_id t) "") w1 = (Failed e, w2) ->
  IsNotFound (ToNative e) = true ->
  run handle (task.Delete t opts) w0 =
    (Returned (None, Some (ToNative e)), w2,
     tr0 ++ [Ev (TaskGet (t_id t) "") (Failed e)]).
Proof.
  intros Hopts Hget Hnf. unfold task.Delete.
  rewrite run_bind, Hopts, run_bind, run_Status, Hget. simpl. rewrite Hnf.
  reflexivity.
Qed.

(** X4. Metrics looks the status up only when the result is empty: when
    the metrics RPC fails, Metrics returns the translated error, and when
    the result has an entry, Metrics returns the first one; in both cases
    the metrics RPC is the only operation. *)
Theorem Metrics_first_or_error (t : task) (w0 w1 : World)
        (answer : reply MetricsResponse) :
  handle (TaskMetrics ["id==" +:+ t_id t]) w0 = (answer, w1) ->
  let only := [Ev (TaskMetrics ["id==" +:+ t_id t]) answer] in
  (forall e, answer = Failed e ->
     run handle (task.Metrics t) w0 =
       (Returned (None, Some (ToNative e)), w1, only)) /\
  (forall response m rest,
     answer = Done response -> Metrics_ response = m :: rest ->
     run handle (task.Metrics t) w0 = (Returned (Some m, None), w1, only)).
Proof.
  intros Hm only. unfold task.Metrics, call. simpl. rewrite Hm. split.
  - intros e ->. reflexivity.
  - intros response m rest -> Hne. simpl. rewrite Hne. reflexivity.
Qed.

(** X5. A successful Exec returns the process with the given id, the task
    and the handle of the factory; the exec request carries the stdin,
    stdout, stderr and terminal setting of the handle's configuration and
    the marshalled spec; and the handle is neither cancelled, drained nor
    closed. *)
Theorem Exec_success_keeps_io (t : task) (id : string)
        (spec : option ProcessSpec) (ioCreate : Creator)
        (w0 w1 w2 w3 : World) (tr0 : list Event) (io : IO) (pSpec : Any)
        (cfg : Config) :
  id <> "" ->
  run handle (ioCreate id) w0 = (Returned (Some io, None), w1, tr0) ->
  MarshalAnyToProto (DynProcess spec) = Done pSpec ->
  handle (IOConfig io) w1 = (cfg, w2) ->
  let request :=
    {| exec_ContainerID := t_id t; exec_ExecID := id;
       exec_Terminal := cfg_Terminal cfg; exec_Stdin := cfg_Stdin cfg;
       exec_Stdout := cfg_Stdout cfg; exec_Stderr := cfg_Stderr cfg;
       exec_Spec := Some pSpec |} in
  handle (TaskExec request) w2 = (Done tt, w3) ->
  run handle (task.Exec t id spec ioCreate) w0 =
    (Returned (Some {| p_id := id; p_task := t; p_io := Some io |}, None), w3,
     tr0 ++ [Ev (IOConfig io) cfg; Ev (TaskExec request) (Done tt)]).
Proof.
  intros Hid Hio Hm Hcfg request Hexec.
  unfold task.Exec. destruct (decide (id = "")); [contradiction|].
  rewrite run_bind, Hio. rewrite run_defer, Hm. simpl.
  rewrite Hcfg. fold request. rewrite Hexec. simpl. rewrite ?app_nil_r.
  reflexivity.
Qed.

(** X6. When the IO factory returns an error, Exec returns that error as
    it is and does nothing more: the spec is not marshalled into a
    request, no RPC is issued, and whatever handle came with the error is
    not touched. *)
Theorem Exec_factory_error (t : task) (id : string)
        (spec : option ProcessSpec) (ioCreate : Creator)
        (w0 w1 : World) (tr0 : list Event) (i : option IO) (e : error) :
  id <> "" ->
  run handle (ioCreate id) w0 = (Returned (i, Some e), w1, tr0) ->
  run handle (task.Exec t id spec ioCreate) w0 =
    (Returned (None, Some e), w1, tr0).
Proof.
  intros Hid Hio. unfold task.Exec. destruct (decide (id = "")); [contradiction|].
  rewrite run_bind, Hio. simpl. rewrite app_nil_r. reflexivity.
Qed.
End MoreTaskProps.

(** ** Start, Kill, Pids, CloseIO and Update *)

Section ServiceProps.
Context `{D : Deps} `{C : TasksClient} {World : Type}.
Variable handle : forall o : Op, World -> resp o * World.

(** X7. Start stores a pid only when the start RPC succeeds: the pid of
    the response, with the IO handle left alone.  When the RPC fails, the
    pid stays as it was, the IO handle of the task, if it has one, is
    cancelled and then closed and never drained, and the translated error
    is returned. *)
Theorem Start_pid_or_cleanup (t : task) (w0 w1 : World) (tr0 : list Event)
        (r : reply StartResponse) :
  run handle (svc_Start (t_id t)) w0 = (Returned r, w1, tr0) ->
  match r with
  | Done r =>
      run handle (task.Start t) w0 =
        (Returned ({| t_io := t_io t; t_id := t_id t; t_pid := start_Pid r |},
                   None), w1, tr0)
  | Failed e =>
      exists w2 cleanup,
        run handle (task.Start t) w0 =
          (Returned (t, Some (ToNative e)), w2, tr0 ++ cleanup) /\
        ops cleanup =
          match t_io t with
          | Some io => [IOCancel io; IOClose io]
          | None => []
          end
  end.
Proof.
  intros Hrpc. unfold task.Start. rewrite run_bind, Hrpc.
  destruct r as [r|e].
  - simpl. rewrite app_nil_r. reflexivity.
  - destruct (t_io t) as [io|]; simpl.
    + destruct (handle (IOCancel io) w1) as [[] wa].
      destruct (handle (IOClose io) wa) as [[] wb].
      eexists _, _. split; reflexivity.
    + eexists _, _. split; reflexivity.
Qed.

(** The options of Kill run in order up to the first one that fails, each
    on the info the one before has left. *)
Lemma run_applyKillOpts_first_failure (pre post : list KillOpts) (o : KillOpts)
      (i0 i1 i2 : KillInfo) (w0 w1 w2 : World) (tr0 tr1 : list Event)
      (e : error) :
  run handle (applyKillOpts pre i0) w0 = (Returned (i1, None), w1, tr0) ->
  run handle (o i1) w1 = (Returned (i2, Some e), w2, tr1) ->
  run handle (applyKillOpts (pre ++ o :: post) i0) w0 =
    (Returned (i2, Some e), w2, tr0 ++ tr1).
Proof.
  revert i0 w0 tr0.
  induction pre as [|p pre IH]; intros i0 w0 tr0 Hpre Ho;
    cbn [applyKillOpts app] in *.
  - simpl in Hpre. injection Hpre as <- <- <-. rewrite run_bind, Ho. simpl.
    rewrite app_nil_r. reflexivity.
  - rewrite run_bind in Hpre |- *.
    destruct (run handle (p i0) w0) as [[[[ia [e0|]]|] wa] tra];
      try discriminate.
    destruct (run handle (applyKillOpts pre ia) wa) as [[o' wb] trb] eqn:Hrest.
    injection Hpre as -> -> <-.
    rewrite (IH ia wa trb Hrest Ho). rewrite List.app_assoc. reflexivity.
Qed.

(** X8. Kill runs its options in order; when one of them returns an
    error, the options after it are not run, the kill RPC is not issued,
    and Kill returns that error as it is, without translating it. *)
Theorem Kill_stops_at_failing_option (t : task) (s : Z)
        (pre post : list KillOpts) (o : KillOpts) (i1 i2 : KillInfo)
        (w0 w1 w2 : World) (tr0 tr1 : list Event) (e : error) :
  run handle (applyKillOpts pre {| ki_All := false; ki_ExecID := "" |}) w0 =
    (Returned (i1, None), w1, tr0) ->
  run handle (o i1) w1 = (Returned (i2, Some e), w2, tr1) ->
  run handle (task.Kill t s (pre ++ o :: post)) w0 =
    (Returned (Some e), w2, tr0 ++ tr1).
Proof.
  intros Hpre Ho. unfold task.Kill.
  rewrite run_bind,
    (run_applyKillOpts_first_failure pre post o _ _ _ _ _ _ _ _ _ Hpre Ho).
  simpl. rewrite app_nil_r. reflexivity.
Qed.

(** X9. When its options succeed, Kill issues one kill RPC for the
    container of the task, with the exec id and the all flag the options
    have left (the empty id and false when there is no option) and the
    signal reduced to 32 unsigned bits, which changes no signal that
    already fits; Kill returns nil when the RPC does, and the translated
    error otherwise. *)
Theorem Kill_request_and_result (t : task) (s : Z) (opts : list KillOpts)
        (i : KillInfo) (w0 w1 w2 : World) (tr0 tr1 : list Event)
        (r : option error) :
  run handle (applyKillOpts opts {| ki_All := false; ki_ExecID := "" |}) w0 =
    (Returned (i, None), w1, tr0) ->
  let request :=
    {| kill_Signal := s mod 2 ^ 32; kill_ContainerID := t_id t;
       kill_ExecID := ki_ExecID i; kill_All := ki_All i |} in
  run handle (svc_Kill request) w1 = (Returned r, w2, tr1) ->
  run handle (task.Kill t s opts) w0 =
    (Returned (ToNative_nilable r), w2, tr0 ++ tr1) /\
  (0 <= kill_Signal request < 2 ^ 32)%Z /\
  ((0 <= s < 2 ^ 32)%Z -> kill_Signal request = s) /\
  (opts = [] -> kill_ExecID request = "" /\ kill_All request = false).
Proof.
  intros Hopts request Hrpc. split; [|split; [|split]].
  - unfold task.Kill. rewrite run_bind, Hopts. cbv beta iota zeta.
    fold request. rewrite run_bind, Hrpc.
    destruct r as [e|]; simpl; rewrite app_nil_r; reflexivity.
  - simpl. apply Z.mod_pos_bound. lia.
  - intros Hs. simpl. apply Z.mod_small. exact Hs.
  - intros ->. simpl in Hopts. injection Hopts as <- _ _. split; reflexivity.
Qed.

Lemma fold_left_snoc_map {A B : Type} (f : A -> B) (l : list A) (acc : list B) :
  fold_left (fun acc a => acc ++ [f a]) l acc = acc ++ map f l.
Proof.
  revert acc. induction l as [|a l IH]; intros acc; simpl.
  - rewrite app_nil_r. reflexivity.
  - rewrite IH, <- List.app_assoc. reflexivity.
Qed.

(** X10. Pids returns one entry for each process of the response, in the
    order of the response, with its pid and its info; when the RPC fails
    it returns no entry and the translated error. *)
Theorem Pids_in_response_order (t : task) (w0 w1 : World) (tr0 : list Event)
        (r : reply ListPidsResponse) :
  run handle (svc_ListPids (t_id t)) w0 = (Returned r, w1, tr0) ->
  exists l err,
    run handle (task.Pids t) w0 = (Returned (l, err), w1, tr0) /\
    match r with
    | Done response =>
        err = None /\
        l = map (fun p => {| pi_Pid := pd_Pid p; pi_Info := pd_Info p |})
                (pids_Processes response) /\
        length l = length (pids_Processes response)
    | Failed e => err = Some (ToNative e) /\ l = []
    end.
Proof.
  intros Hrpc. unfold task.Pids. rewrite run_bind, Hrpc.
  destruct r as [response|e]; simpl; rewrite app_nil_r.
  - eexists _, _. split; [reflexivity|].
    rewrite (fold_left_snoc_map
               (fun p => {| pi_Pid := pd_Pid p; pi_Info := pd_Info p |})).
    simpl. split; [reflexivity|]. split; [reflexivity|].
    rewrite length_map. reflexivity.
  - eexists _, _. split; [reflexivity|]. split; reflexivity.
Qed.

(** X11. CloseIO asks for stdin to be closed exactly as its options leave
    it: not at all without options, and certainly when WithStdinCloser is
    the last option, whatever the options before it do. *)
Theorem CloseIO_stdin_flag (t : task) (pre : list IOCloserOpts) :
  task.CloseIO t [] =
    (let* err :=
       svc_CloseIO {| cio_ContainerID := t_id t; cio_Stdin := false |} in
     Ret (ToNative_nilable err)) /\
  task.CloseIO t (pre ++ [WithStdinCloser]) =
    (let* err :=
       svc_CloseIO {| cio_ContainerID := t_id t; cio_Stdin := true |} in
     Ret (ToNative_nilable err)).
Proof.
  split; [reflexivity|].
  unfold task.CloseIO. rewrite fold_left_app. reflexivity.
Qed.

(** X12. When the resources the options have set cannot be marshalled,
    Update returns the marshalling error as it is and does not issue the
    update RPC. *)
Theorem Update_marshal_failure_no_rpc (t : task) (opts : list UpdateTaskOpts)
        (i : UpdateTaskInfo) (w0 w1 : World) (tr0 : list Event)
        (resources : Dyn) (e : error) :
  run handle
      (applyUpdateOpts opts {| uti_Resources := None; uti_Annotations := None |})
      w0 = (Returned (i, None), w1, tr0) ->
  uti_Resources i = Some resources ->
  MarshalAnyToProto resources = Failed e ->
  run handle (task.Update t opts) w0 = (Returned (Some e), w1, tr0).
Proof.
  intros Hopts Hres Hm. unfold task.Update.
  rewrite run_bind, Hopts. cbv beta iota zeta. rewrite Hres, Hm. simpl.
  rewrite app_nil_r. reflexivity.
Qed.

(** X13. When the options and the marshalling succeed, Update issues one
    update RPC for the container of the task; the request has resources
    exactly when the options have set some (their marshalled form), and
    the annotations exactly as the options left them, nil included; the
    result is nil when the RPC answers nil and the translated error
    otherwise. *)
Theorem Update_request_and_result (t : task) (opts : list UpdateTaskOpts)
        (i : UpdateTaskInfo) (w0 w1 w2 : World) (tr0 tr1 : list Event)
        (marshalled : option Any) (r : option error) :
  run handle
      (applyUpdateOpts opts {| uti_Resources := None; uti_Annotations := None |})
      w0 = (Returned (i, None), w1, tr0) ->
  match uti_Resources i with
  | Some resources =>
      exists a, MarshalAnyToProto resources = Done a /\ marshalled = Some a
  | None => marshalled = None
  end ->
  run handle
      (svc_Update {| upd_ContainerID := t_id t; upd_Resources := marshalled;
                     upd_Annotations := uti_Annotations i |}) w1 =
    (Returned r, w2, tr1) ->
  run handle (task.Update t opts) w0 =
    (Returned (ToNative_nilable r), w2, tr0 ++ tr1).
Proof.
  intros Hopts Hm Hrpc. unfold task.Update.
  rewrite run_bind, Hopts. cbv beta iota zeta.
  destruct (uti_Resources i) as [resources|].
  - destruct Hm as (a & -> & ->). cbv beta iota zeta.
    destruct (uti_Annotations i) as [ann|]; simpl upd_ContainerID in *;
      simpl upd_Resources in *; simpl upd_Annotations in *;
      rewrite run_bind, Hrpc; simpl; rewrite app_nil_r; reflexivity.
  - subst marshalled. cbv beta iota zeta.
    destruct (uti_Annotations i) as [ann|]; simpl upd_ContainerID in *;
      simpl upd_Resources in *; simpl upd_Annotations in *;
      rewrite run_bind, Hrpc; simpl; rewrite app_nil_r; reflexivity.
Qed.
End ServiceProps.

(** ** LoadProcess *)

Section LoadProcessProps.
Context `{D : Deps} `{C : TasksClient} {World : Type}.
Variable handle : forall o : Op, World -> resp o * World.

(** X14. LoadProcess returns the task itself, without an RPC, when the id
    is the task's own and no attach function is given; in every other
    case, the task's own id with an attach function included, its first
    operation is the get RPC for the container of the task and the given
    id. *)
Theorem LoadProcess_task_itself_or_get (t : task) (id : string)
        (ioAttach : option Attach) (w : World) :
  (id = t_id t /\ ioAttach = None ->
   run handle (task.LoadProcess t id ioAttach) w =
     (Returned (Some (ProcessTask t), None), w, [])) /\
  (id <> t_id t \/ ioAttach <> None ->
   exists out w1 tr,
     run handle (task.LoadProcess t id ioAttach) w = (out, w1, tr) /\
     head (ops tr) = Some (TaskGet (t_id t) id)).
Proof.
  unfold task.LoadProcess. split.
  - intros [-> ->]. rewrite bool_decide_eq_true_2 by reflexivity. reflexivity.
  - intros Hother.
    assert (bool_decide (id = t_id t) && isNil ioAttach = false) as ->.
    { destruct Hother as [Hid|Hat].
      - rewrite bool_decide_eq_false_2 by exact Hid. reflexivity.
      - destruct ioAttach; [apply andb_false_r|contradiction]. }
    rewrite run_bind. unfold call. simpl.
    destruct (handle (TaskGet (t_id t) id) w) as [r w1].
    match goal with
    | |- context [run handle ?p w1] =>
        destruct (run handle p w1) as [[out w2] tr2]
    end.
    eexists _, _, _. split; reflexivity.
Qed.

(** X15. When the get RPC of LoadProcess fails, LoadProcess returns no
    process and an error, and the attach function is not run.  A
    not-found error comes back under the message prefix
    "no running process found: " and is still a not-found error; any
    other error comes back translated and nothing more. *)
Theorem LoadProcess_get_failure (t : task) (id : string)
        (ioAttach : option Attach) (w w1 : World) (e : error) :
  id <> t_id t \/ ioAttach <> None ->
  handle (TaskGet (t_id t) id) w = (Failed e, w1) ->
  exists err,
    run handle (task.LoadProcess t id ioAttach) w =
      (Returned (None, Some err), w1, [Ev (TaskGet (t_id t) id) (Failed e)]) /\
    IsNotFound err = IsNotFound (ToNative e) /\
    (IsNotFound (ToNative e) = true ->
     Error err = "no running process found: " +:+ Error (ToNative e)) /\
    (IsNotFound (ToNative e) = false -> err = ToNative e).
Proof.
  intros Hother Hget. unfold task.LoadProcess.
  assert (bool_decide (id = t_id t) && isNil ioAttach = false) as ->.
  { destruct Hother as [Hid|Hat].
    - rewrite bool_decide_eq_false_2 by exact Hid. reflexivity.
    - destruct ioAttach; [apply andb_false_r|contradiction]. }
  unfold call. simpl. rewrite Hget. simpl.
  destruct (IsNotFound (ToNative e)) eqn:Hnf; simpl.
  - eexists. split; [reflexivity|]. split; [exact Hnf|].
    split; [reflexivity|discriminate].
  - eexists. split; [reflexivity|]. split; [exact Hnf|].
    split; [discriminate|reflexivity].
Qed.

(** X16. When the get RPC of LoadProcess succeeds, the attach function,
    if there is one, runs once on the response: its error is returned as
    it is with no process, and otherwise the process has the given id,
    the task and the IO the attach function returned, nil included.
    Without an attach function the process has a nil IO and the get RPC
    is the only operation. *)
Theorem LoadProcess_attaches_io (t : task) (id : string)
        (ioAttach : option Attach) (w w1 : World) (response : GetResponse) :
  id <> t_id t \/ ioAttach <> None ->
  handle (TaskGet (t_id t) id) w = (Done response, w1) ->
  let get := Ev (TaskGet (t_id t) id) (Done response) in
  let loaded i :=
    Some (ProcessExec {| p_id := id; p_task := t; p_io := i |}) in
  (ioAttach = None ->
   run handle (task.LoadProcess t id ioAttach) w =
     (Returned (loaded None, None), w1, [get])) /\
  (forall attach i aerr w2 tr1,
     ioAttach = Some attach ->
     run handle (attach response) w1 = (Returned (i, aerr), w2, tr1) ->
     run handle (task.LoadProcess t id ioAttach) w =
       (Returned (match aerr with
                  | Some err => (None, Some err)
                  | None => (loaded i, None)
                  end), w2, get :: tr1)).
Proof.
  intros Hother Hget get loaded. unfold task.LoadProcess.
  assert (bool_decide (id = t_id t) && isNil ioAttach = false) as ->.
  { destruct Hother as [Hid|Hat].
    - rewrite bool_decide_eq_false_2 by exact Hid. reflexivity.
    - destruct ioAttach; [apply andb_false_r|contradiction]. }
  rewrite run_bind. unfold call. simpl. rewrite Hget. split.
  - intros ->. reflexivity.
  - intros attach i aerr w2 tr1 -> Hattach.
    rewrite run_bind, Hattach.
    destruct aerr as [err|]; simpl; rewrite app_nil_r; reflexivity.
Qed.
End LoadProcessProps.

(** ** TaskInfo.getRuncOptions *)

Section RuncOptionsProps.
Context `{U : Typeurl}.

(** X17. When getRuncOptions returns an error it returns a nil pointer
    and changes nothing: the info keeps its Options and no runc options
    are stored.  The error is the one about the options format, when
    Options holds a value that is no pointer to runc options, or wraps
    the error of the unmarshalling under
    "failed to get runtime v2 options: ". *)
Theorem getRuncOptions_error_changes_nothing (i i' : TaskInfo)
        (h h' : gmap nat RuncOptions) (p : option nat) (e : error) :
  TaskInfo.getRuncOptions i h = (p, Some e, i', h') ->
  p = None /\ i' = i /\ h' = h /\
  ((exists d, ti_Options i = Some (OptOther d) /\
              e = ErrNew "invalid runtime v2 options format") \/
   (exists any inner,
      ti_Options i = None /\ ti_runtimeOptions i = Some any /\
      is_Some (ta_Value any) /\
      UnmarshalTo any zeroRuncOptions = Failed inner /\
      e = Errorf_w "failed to get runtime v2 options: " inner)).
Proof.
  unfold TaskInfo.getRuncOptions.
  destruct (ti_Options i) as [[q|d]|] eqn:Hopt.
  - intros [= _ _ _]; discriminate.
  - intros [= <- <- <- <-]. split; [reflexivity|]. split; [reflexivity|].
    split; [reflexivity|]. left. exists d. split; reflexivity.
  - destruct (ti_runtimeOptions i) as [any|] eqn:Hro;
      [destruct (ta_Value any) as [v|] eqn:Hv|]; try discriminate.
    destruct (UnmarshalTo any zeroRuncOptions) as [o|inner] eqn:Hu;
      [discriminate|].
    intros [= <- <- <- <-]. split; [reflexivity|]. split; [reflexivity|].
    split; [reflexivity|]. right. exists any, inner.
    split; [reflexivity|]. split; [reflexivity|]. split; [eauto|].
    split; [exact Hu|reflexivity].
Qed.

(** X18. When Options is nil and getRuncOptions succeeds, the pointer it
    returns is new: it refers to no runc options stored before, every
    pointer that did keeps its options, and the info now holds this
    pointer in Options with its other fields unchanged.  The new options
    are the zero value when the info has no runtime options to copy or
    their value is nil. *)
Theorem getRuncOptions_allocates_fresh (i i' : TaskInfo)
        (h h' : gmap nat RuncOptions) (p : option nat) :
  ti_Options i = None ->
  TaskInfo.getRuncOptions i h = (p, None, i', h') ->
  exists q,
    p = Some q /\ h !! q = None /\ is_Some (h' !! q) /\
    (forall r, r <> q -> h' !! r = h !! r) /\
    ti_Options i' = Some (OptRunc (Some q)) /\
    ti_Checkpoint i' = ti_Checkpoint i /\
    ti_RuntimePath i' = ti_RuntimePath i /\
    TaskInfo.Runtime i' = TaskInfo.Runtime i /\
    ti_runtimeOptions i' = ti_runtimeOptions i /\
    ((ti_runtimeOptions i = None \/
      exists any, ti_runtimeOptions i = Some any /\ ta_Value any = None) ->
     h' !! q = Some zeroRuncOptions).
Proof.
  intros Hnil. unfold TaskInfo.getRuncOptions. rewrite Hnil.
  set (q := fresh (dom h)).
  assert (h !! q = None) as Hfresh.
  { apply not_elem_of_dom. apply is_fresh. }
  destruct (match ti_runtimeOptions i with
            | Some any =>
                match ta_Value any with
                | Some _ => UnmarshalTo any zeroRuncOptions
                | None => Done zeroRuncOptions
                end
            | None => Done zeroRuncOptions
            end) as [o|inner] eqn:Hfill; [|discriminate].
  intros [= <- <- <-]. exists q. simpl.
  split; [reflexivity|]. split; [exact Hfresh|].
  split; [rewrite lookup_insert_eq; eauto|].
  split; [intros r Hr; apply lookup_insert_ne; congruence|].
  repeat (split; [reflexivity|]).
  intros Hzero. rewrite lookup_insert_eq. f_equal.
  destruct Hzero as [Hro|(any & Hro & Hv)]; rewrite Hro in Hfill.
  - congruence.
  - rewrite Hv in Hfill. congruence.
Qed.

(** X19. Once getRuncOptions has succeeded, the info answers every later
    call with the same pointer, whatever has been stored or written in
    between, and without error, allocation or unmarshalling: the caller
    and the info share one set of options. *)
Theorem getRuncOptions_same_pointer_again (i i' : TaskInfo)
        (h h' h2 : gmap nat RuncOptions) (p : option nat) :
  TaskInfo.getRuncOptions i h = (p, None, i', h') ->
  TaskInfo.getRuncOptions i' h2 = (p, None, i', h2).
Proof.
  unfold TaskInfo.getRuncOptions.
  destruct (ti_Options i) as [[q|d]|] eqn:Hopt.
  - intros [= <- <- <-]. rewrite Hopt. reflexivity.
  - discriminate.
  - destruct (match ti_runtimeOptions i with
              | Some any =>
                  match ta_Value any with
                  | Some _ => UnmarshalTo any zeroRuncOptions
                  | None => Done zeroRuncOptions
                  end
              | None => Done zeroRuncOptions
              end) as [o|inner]; [|discriminate].
    intros [= <- <- <-]. reflexivity.
Qed.
End RuncOptionsProps.

(** ** writeContent *)

Section WriteContentProps.
Context {World : Type}.
Variable handle : forall o : Op, World -> resp o * World.

(** X20. When the writer opens, the copy succeeds and the commit returns
    nil or an already-exists error, writeContent returns a nil error and
    the descriptor with the given media type, the digest the writer
    reports after the commit and the number of bytes copied; the writer
    is closed last and the result of the close is dropped. *)
Theorem writeContent_tolerates_already_exists (store : Ingester)
        (ioCopy : Copier) (mediaType ref r : string) (opts : list string)
        (writer : ContentWriter) (size : Z) (cerr cl : option error)
        (digest : string) (w0 w1 w2 w3 w4 w5 : World)
        (t0 t1 t2 t3 t4 : list Event) :
  run handle (store ref) w0 = (Returned (Done writer), w1, t0) ->
  run handle (ioCopy writer r) w1 = (Returned (size, None), w2, t1) ->
  run handle (cw_Commit writer size "" opts) w2 = (Returned cerr, w3, t2) ->
  (forall e, cerr = Some e -> IsAlreadyExists e = true) ->
  run handle (cw_Digest writer) w3 = (Returned digest, w4, t3) ->
  run handle (cw_Close writer) w4 = (Returned cl, w5, t4) ->
  run handle (writeContent store ioCopy mediaType ref r opts) w0 =
    (Returned ({| desc_MediaType := mediaType; desc_Digest := digest;
                  desc_Size := size; desc_Platform := None;
                  desc_Annotations := ∅ |}, None),
     w5, t0 ++ t1 ++ t2 ++ t3 ++ t4).
Proof.
  intros Hopen Hcopy Hcommit Hexists Hdigest Hclose. unfold writeContent.
  rewrite run_bind, Hopen. rewrite run_defer, run_bind, Hcopy.
  cbv beta iota zeta. rewrite run_bind, Hcommit.
  assert (nonnil_and (fun e => negb (IsAlreadyExists e)) cerr = false) as ->.
  { destruct cerr as [e|]; simpl; [|reflexivity].
    rewrite (Hexists e eq_refl). reflexivity. }
  rewrite run_bind, Hdigest. simpl run at 1. cbv beta iota zeta.
  rewrite run_bind, Hclose. simpl.
  rewrite !app_nil_r, <- !List.app_assoc. reflexivity.
Qed.

(** X21. writeContent never returns a descriptor together with an error:
    whenever it returns an error, from the open, the copy or the commit,
    the descriptor is the zero value. *)
Theorem writeContent_error_zero_descriptor (store : Ingester)
        (ioCopy : Copier) (mediaType ref r : string) (opts : list string)
        (d : Descriptor) (e : error) (w0 w1 : World) (tr : list Event) :
  run handle (writeContent store ioCopy mediaType ref r opts) w0 =
    (Returned (d, Some e), w1, tr) ->
  d = zeroDescriptor.
Proof.
  unfold writeContent. rewrite run_bind.
  destruct (run handle (store ref) w0) as [[[[writer|oe]|] wa] ta];
    [| |discriminate].
  - rewrite run_defer.
    match goal with
    | |- context [run handle ?body wa] =>
        destruct (run handle body wa) as [[[a|] wb] tb] eqn:Hbody
    end.
    + rewrite run_bind.
      destruct (run handle (cw_Close writer) wb) as [[[cl|] wc] tc];
        [|discriminate].
      simpl. intros [= -> _ _]. clear cl wc tc.
      rewrite run_bind in Hbody.
      destruct (run handle (ioCopy writer r) wa) as [[[[size [ce|]]|] wc] tc];
        [| |discriminate].
      * simpl in Hbody. injection Hbody as <- _ _ _. reflexivity.
      * rewrite run_bind in Hbody.
        destruct (run handle (cw_Commit writer size "" opts) wc)
          as [[[cerr|] wd] td]; [|discriminate].
        destruct (nonnil_and (fun e0 => negb (IsAlreadyExists e0)) cerr).
        -- simpl in Hbody. injection Hbody as <- _ _ _. reflexivity.
        -- rewrite run_bind in Hbody.
           destruct (run handle (cw_Digest writer) wd) as [[[dg|] we] te];
             simpl in Hbody; discriminate.
    + destruct (run handle _ wb) as [[c wc] tc]. discriminate.
  - simpl. intros [= <- _ _ _]. reflexivity.
Qed.

(** X22. Once the writer has been opened, writeContent closes it on every
    path, as its last operations, whether the copy, the commit or the
    digest succeed, fail or panic; when the open fails, its error is
    returned as it is and nothing more is done. *)
Theorem writeContent_closes_writer (store : Ingester) (ioCopy : Copier)
        (mediaType ref r : string) (opts : list string)
        (opened : reply ContentWriter) (w0 w1 : World) (t0 : list Event) :
  run handle (store ref) w0 = (Returned opened, w1, t0) ->
  match opened with
  | Failed e =>
      run handle (writeContent store ioCopy mediaType ref r opts) w0 =
        (Returned (zeroDescriptor, Some e), w1, t0)
  | Done writer =>
      exists out w2 w3 body closed closing,
        run handle (writeContent store ioCopy mediaType ref r opts) w0 =
          (out, w3, t0 ++ body ++ closing) /\
        run handle (cw_Close writer) w2 = (closed, w3, closing)
  end.
Proof.
  intros Hopen. unfold writeContent. rewrite run_bind, Hopen.
  destruct opened as [writer|e].
  - rewrite run_defer.
    match goal with
    | |- context [run handle ?body w1] =>
        destruct (run handle body w1) as [[[a|] w2] body_tr]
    end.
    + rewrite run_bind.
      destruct (run handle (cw_Close writer) w2) as [[[cl|] w3] closing] eqn:Hc.
      * simpl. rewrite app_nil_r. eexists _, _, _, _, _, _.
        split; [reflexivity|exact Hc].
      * eexists _, _, _, _, _, _. split; [reflexivity|exact Hc].
    + rewrite run_bind.
      destruct (run handle (cw_Close writer) w2) as [[[cl|] w3] closing] eqn:Hc.
      * simpl. rewrite app_nil_r. eexists _, _, _, _, _, _.
        split; [reflexivity|exact Hc].
      * eexists _, _, _, _, _, _. split; [reflexivity|exact Hc].
  - simpl. rewrite app_nil_r. reflexivity.
Qed.
End WriteContentProps.

(** ** More on task.Checkpoint *)

Section ListLemmas.
Context {A : Type}.

(** An element that [f] accepts, found in a list that begins with a part
    [f] rejects, lies after that part. *)
Lemma locate_after (f : A -> bool) (before rest pre post : list A) (e : A) :
  before ++ rest = pre ++ e :: post ->
  f e = true ->
  forallb (fun x => negb (f x)) before = true ->
  exists pre', pre = before ++ pre' /\ rest = pre' ++ e :: post.
Proof.
  revert pre. induction before as [|b before IH]; intros pre Heq He Hb.
  - exists pre. split; [reflexivity|exact Heq].
  - simpl in Hb. apply andb_true_iff in Hb as [Hb1 Hb2].
    destruct pre as [|p pre]; simpl in Heq.
    + injection Heq as -> _. rewrite He in Hb1. discriminate.
    + injection Heq as -> Heq. destruct (IH pre Heq He Hb2) as (pre' & -> & ->).
      exists pre'. split; reflexivity.
Qed.

(** And it lies before a last part that [f] rejects. *)
Lemma locate_before (f : A -> bool) (mid after pre post : list A) (e : A) :
  mid ++ after = pre ++ e :: post ->
  f e = true ->
  forallb (fun x => negb (f x)) after = true ->
  exists post', post = post' ++ after /\ mid = pre ++ e :: post'.
Proof.
  revert mid. induction pre as [|p pre IH]; intros mid Heq He Ha.
  - destruct mid as [|m mid]; simpl in Heq.
    + subst after. simpl in Ha. rewrite He in Ha. discriminate.
    + injection Heq as -> Heq. exists mid. split; [symmetry; exact Heq|reflexivity].
  - destruct mid as [|m mid]; simpl in Heq.
    + subst after. rewrite List.forallb_forall in Ha.
      specialize (Ha e (in_elt e (p :: pre) post)).
      rewrite He in Ha. discriminate.
    + injection Heq as -> Heq. destruct (IH mid Heq He Ha) as (post' & -> & ->).
      exists post'. split; reflexivity.
Qed.
End ListLemmas.

Lemma append_nonempty (a b : string) : a <> "" -> a +:+ b <> "".
Proof.
  destruct a as [|c a]; [contradiction|]. intros _.
  change (String c (a +:+ b) <> ""). discriminate.
Qed.

Section CheckpointShape.
Context `{Deps} {World : Type}.
Variable handle : forall o : Op, World -> resp o * World.

Lemma run_call (o : Op) (w : World) :
  run handle (call o) w =
  let '(r, w1) := handle o w in (Returned r, w1, [Ev o r]).
Proof. unfold call. simpl. destruct (handle o w). reflexivity. Qed.

Opaque task.checkpointPaused.

(** The ways a checkpoint can go, with the lease at the head of the
    trace and the name under which the capture steps run: the lease is
    refused; a step of the prologue fails; or the status lookup, the pause
    and the capture steps run under a name that is not empty, the default
    name when the clock has been read. *)
Lemma run_Checkpoint_shape (t : task) (opts : list CheckpointTaskOpts)
      (w0 w' : World) (out : Outcome (option Image * option error))
      (tr : list Event) :
  run handle (task.Checkpoint t opts) w0 = (out, w', tr) ->
  (exists e, tr = [Ev ClientWithLease (Failed e)] /\
             out = Returned (None, Some e)) \/
  (exists head,
     forallb is_prologue (ops head) = true /\
     existsb is_LeaseDone (ops head) = false /\
     ((tr = Ev ClientWithLease (Done tt) :: head ++ [Ev LeaseDone tt] /\
       exists e, out = Returned (None, Some e)) \/
      exists cr i request w1 w2 trp,
        tr = Ev ClientWithLease (Done tt) :: head ++ trp ++ [Ev LeaseDone tt] /\
        run handle (task.checkpointPaused t cr i request) w1 = (out, w2, trp) /\
        cti_Name i <> "" /\
        forall now,
          In (Some now) (map clock_reading head) ->
          cti_Name i =
            checkpointNamePrefix +:+ t_id t +:+ ":" +:+ FormatTime now)).
Proof.
  intros Hrun. unfold task.Checkpoint, call in Hrun. simpl in Hrun.
  destruct (handle ClientWithLease w0) as [[[]|e] w1]; simpl in Hrun.
  2:{ injection Hrun as <- <- <-. left. eauto. }
  right.
  destruct (handle (ContainerGet (t_id t)) w1) as [[cr|e] w2]; simpl in Hrun.
  2:{ step_in Hrun. injection Hrun as <- <- <-.
      exists [Ev (ContainerGet (t_id t)) (Failed e)].
      split; [reflexivity|]. split; [reflexivity|]. left. split; eauto. }
  destruct (applyCheckpointOpts opts _) as [i [e|]]; simpl in Hrun.
  { step_in Hrun. injection Hrun as <- <- <-.
    exists [Ev (ContainerGet (t_id t)) (Done cr)].
    split; [reflexivity|]. split; [reflexivity|]. left. split; eauto. }
  assert (Hend : forall (head : list Event) i' request w3 o' w4 tr',
    forallb is_prologue (ops head) = true ->
    existsb is_LeaseDone (ops head) = false ->
    cti_Name i' <> "" ->
    (forall now,
       In (Some now) (map clock_reading head) ->
       cti_Name i' =
         checkpointNamePrefix +:+ t_id t +:+ ":" +:+ FormatTime now) ->
    run handle
        (defer (fun _ : option (option Image * option error) => Vis LeaseDone Ret)
               (task.checkpointPaused t cr i' request)) w3 = (o', w4, tr') ->
    (o', w4, Ev ClientWithLease (Done tt) :: head ++ tr') = (out, w', tr) ->
    exists head0,
      forallb is_prologue (ops head0) = true /\
      existsb is_LeaseDone (ops head0) = false /\
      ((tr = Ev ClientWithLease (Done tt) :: head0 ++ [Ev LeaseDone tt] /\
        exists e, out = Returned (None, Some e)) \/
       exists cr0 i0 request0 w1' w2' trp,
         tr = Ev ClientWithLease (Done tt) :: head0 ++ trp ++ [Ev LeaseDone tt] /\
         run handle (task.checkpointPaused t cr0 i0 request0) w1' =
           (out, w2', trp) /\
         cti_Name i0 <> "" /\
         forall now,
           In (Some now) (map clock_reading head0) ->
           cti_Name i0 =
             checkpointNamePrefix +:+ t_id t +:+ ":" +:+ FormatTime now)).
  { intros head i' request w3 o' w4 tr' Hhead Hld Hne Hclock Hr Heq.
    rewrite run_defer in Hr.
    destruct (run handle (task.checkpointPaused t cr i' request) w3)
      as [[o w5] trp] eqn:Hp.
    exists head. split; [exact Hhead|]. split; [exact Hld|]. right.
    exists cr, i', request, w3, w5, trp.
    destruct o as [a|]; simpl in Hr;
      destruct (handle LeaseDone w5) as [[] w6]; simpl in Hr;
      injection Hr as <- <- <-; injection Heq as <- <- <-;
      (split; [reflexivity|split; [exact Hp|split; [exact Hne|exact Hclock]]]). }
  assert (Hdefault : forall now,
    checkpointNamePrefix +:+ t_id t +:+ ":" +:+ FormatTime now <> "").
  { intros now. apply append_nonempty. discriminate. }
  destruct (decide (cti_Name i = "")) as [Hname|Hname]; simpl in Hrun.
  - destruct (handle TimeNow w2) as [now w3]; simpl in Hrun.
    assert (Hclock : forall now',
      In (Some now')
         (map clock_reading
              [Ev (ContainerGet (t_id t)) (Done cr); Ev TimeNow now]) ->
      checkpointNamePrefix +:+ t_id t +:+ ":" +:+ FormatTime now =
      checkpointNamePrefix +:+ t_id t +:+ ":" +:+ FormatTime now').
    { intros now' [Hin|[Hin|[]]]; [discriminate|].
      injection Hin as <-. reflexivity. }
    destruct (cti_Options i) as [o|]; [destruct (MarshalAnyToProto o)|];
      simpl in Hrun.
    + destruct (run handle _ w3) as [[o' w4] tr'] eqn:E; simpl in Hrun.
      refine (Hend [Ev (ContainerGet (t_id t)) (Done cr); Ev TimeNow now]
                   _ _ _ _ _ _ eq_refl eq_refl _ _ E Hrun);
        [exact (Hdefault now)|exact Hclock].
    + step_in Hrun. injection Hrun as <- <- <-.
      exists [Ev (ContainerGet (t_id t)) (Done cr); Ev TimeNow now].
      split; [reflexivity|]. split; [reflexivity|]. left. split; eauto.
    + destruct (run handle _ w3) as [[o' w4] tr'] eqn:E; simpl in Hrun.
      refine (Hend [Ev (ContainerGet (t_id t)) (Done cr); Ev TimeNow now]
                   _ _ _ _ _ _ eq_refl eq_refl _ _ E Hrun);
        [exact (Hdefault now)|exact Hclock].
  - assert (Hclock : forall now',
      In (Some now')
         (map clock_reading [Ev (ContainerGet (t_id t)) (Done cr)]) ->
      cti_Name i =
      checkpointNamePrefix +:+ t_id t +:+ ":" +:+ FormatTime now').
    { intros now' [Hin|[]]. discriminate. }
    destruct (cti_Options i) as [o|]; [destruct (MarshalAnyToProto o)|];
      simpl in Hrun.
    + destruct (run handle _ w2) as [[o' w4] tr'] eqn:E; simpl in Hrun.
      refine (Hend [Ev (ContainerGet (t_id t)) (Done cr)]
                   _ _ _ _ _ _ eq_refl eq_refl _ _ E Hrun);
        [exact Hname|exact Hclock].
    + step_in Hrun. injection Hrun as <- <- <-.
      exists [Ev (ContainerGet (t_id t)) (Done cr)].
      split; [reflexivity|]. split; [reflexivity|]. left. split; eauto.
    + destruct (run handle _ w2) as [[o' w4] tr'] eqn:E; simpl in Hrun.
      refine (Hend [Ev (ContainerGet (t_id t)) (Done cr)]
                   _ _ _ _ _ _ eq_refl eq_refl _ _ E Hrun);
        [exact Hname|exact Hclock].
Qed.

Transparent task.checkpointPaused.
End CheckpointShape.

Section CheckpointIndex.
Context `{Deps} {World : Type}.
Variable handle : forall o : Op, World -> resp o * World.

(** The index the capture steps publish holds what the steps before have
    collected. *)
Lemma checkpointSteps_index (t : task) (cr : Container)
      (i : CheckpointTaskInfo) (request : CheckpointTaskRequest)
      (w w' : World) (out : Outcome (option Image * option error))
      (tr pre post : list Event) (e : Event) (index : Index) (id : string) :
  run handle (task.checkpointSteps t cr i request) w = (out, w', tr) ->
  tr = pre ++ e :: post ->
  ev_op e = WriteIndex index id ->
  id = t_id t /\
  idx_SchemaVersion index = 2%Z /\
  idx_Manifests index = flat_map contribution pre /\
  idx_Annotations index =
    match omap named_image pre with
    | name :: _ => <["image.name" := name]> ∅
    | [] => ∅
    end.
Proof.
  intros Hrun Hsplit Hop.
  unfold task.checkpointSteps, task.checkpointTask, task.checkpointImage,
    task.checkpointRWSnapshot, call in Hrun.
  simpl in Hrun.
  destruct (task.isCheckpointPathExist _ _);
    repeat step_in Hrun; injection Hrun as <- <- <-;
    split_trace Hsplit
      ltac:(simpl in Hop; try discriminate Hop; injection Hop as <- <-;
            simpl; rewrite ?app_nil_r, <- ?List.app_assoc;
            repeat split; reflexivity).
Qed.

(** The image the capture steps register is the last operation of the
    steps and follows the publication of the index, whose descriptor is
    its target. *)
Lemma checkpointSteps_registration (t : task) (cr : Container)
      (i : CheckpointTaskInfo) (request : CheckpointTaskRequest)
      (w w' : World) (out : Outcome (option Image * option error))
      (tr pre post : list Event) (e : Event) (im : Image) :
  run handle (task.checkpointSteps t cr i request) w = (out, w', tr) ->
  tr = pre ++ e :: post ->
  ev_op e = ImageCreate im ->
  post = [] /\
  img_Name im = cti_Name i /\
  img_Labels im = {["containerd.io/checkpoint" := "true"]} /\
  exists pre' index desc,
    pre = pre' ++ [Ev (WriteIndex index (t_id t)) (Done desc)] /\
    img_Target im = desc.
Proof.
  intros Hrun Hsplit Hop.
  unfold task.checkpointSteps, task.checkpointTask, task.checkpointImage,
    task.checkpointRWSnapshot, call in Hrun.
  simpl in Hrun.
  destruct (task.isCheckpointPathExist _ _);
    repeat step_in Hrun; injection Hrun as <- <- <-;
    split_trace Hsplit
      ltac:(simpl in Hop; try discriminate Hop; injection Hop as <-;
            repeat (split; [reflexivity|]);
            first [ eexists [], _, _; split; reflexivity
                  | eexists [_], _, _; split; reflexivity
                  | eexists [_; _], _, _; split; reflexivity
                  | eexists [_; _; _], _, _; split; reflexivity ]).
Qed.

(** ** The shape of a trace of Checkpoint *)

Lemma ops_app (l1 l2 : list Event) : ops (l1 ++ l2) = ops l1 ++ ops l2.
Proof. unfold ops. apply List.map_app. Qed.

Lemma prologue_is_bracket (l : list Event) :
  forallb is_prologue (ops l) = true -> forallb is_bracket (ops l) = true.
Proof.
  induction l as [|[o r] l IH]; simpl; [reflexivity|].
  intros [Ho Hl]%andb_true_iff. rewrite (IH Hl), andb_true_r.
  destruct o; simpl in *; try reflexivity; discriminate.
Qed.

Lemma epilogue_is_bracket (l : list Event) :
  forallb is_epilogue (ops l) = true -> forallb is_bracket (ops l) = true.
Proof.
  induction l as [|[o r] l IH]; simpl; [reflexivity|].
  intros [Ho Hl]%andb_true_iff. rewrite (IH Hl), andb_true_r.
  destruct o; simpl in *; try reflexivity; discriminate.
Qed.

Lemma bracket_not_capture (l : list Event) :
  forallb is_bracket (ops l) = true ->
  forallb (fun x => negb (is_capture x)) l = true.
Proof.
  induction l as [|x l IH]; simpl; [reflexivity|].
  intros [Ho Hl]%andb_true_iff. rewrite (IH Hl), andb_true_r.
  unfold is_capture. rewrite Ho. reflexivity.
Qed.

Lemma bracket_contributes_nothing (l : list Event) :
  forallb is_bracket (ops l) = true ->
  flat_map contribution l = [] /\ omap named_image l = [].
Proof.
  induction l as [|[o r] l IH]; simpl; [split; reflexivity|].
  intros [Ho Hl]%andb_true_iff. destruct (IH Hl) as [-> Hn].
  destruct o; simpl in *; try discriminate; (split; [reflexivity|exact Hn]).
Qed.

Lemma bracket_absent (g : Op -> bool) (l : list Event) :
  (forall o, g o = true -> is_bracket o = true) ->
  existsb is_bracket (ops l) = false -> existsb g (ops l) = false.
Proof.
  intros Hg. induction l as [|x l IH]; simpl; [reflexivity|].
  intros [Ho Hl]%orb_false_iff. rewrite (IH Hl), orb_false_r.
  destruct (g (ev_op x)) eqn:E; [|reflexivity].
  rewrite (Hg _ E) in Ho. discriminate.
Qed.

Lemma prologue_absent (g : Op -> bool) (l : list Event) :
  (forall o, g o = true -> is_prologue o = false) ->
  forallb is_prologue (ops l) = true -> existsb g (ops l) = false.
Proof.
  intros Hg. induction l as [|x l IH]; simpl; [reflexivity|].
  intros [Ho Hl]%andb_true_iff. rewrite (IH Hl), orb_false_r.
  destruct (g (ev_op x)) eqn:E; [|reflexivity].
  rewrite (Hg _ E) in Ho. discriminate.
Qed.

Lemma none_accepted (f : Event -> bool) (l : list Event) :
  forallb (fun x => negb (f x)) l = true -> existsb f l = false.
Proof.
  induction l as [|x l IH]; simpl; [reflexivity|].
  intros [Hx Hl]%andb_true_iff. rewrite (IH Hl), orb_false_r.
  apply negb_true_iff. exact Hx.
Qed.

(** In every trace of Checkpoint the capture steps, when they run, lie
    between operations that are none of theirs; they run under a name
    that is not empty, the default name when the clock has been read. *)
Lemma run_Checkpoint_sandwich (t : task) (opts : list CheckpointTaskOpts)
      (w0 w' : World) (out : Outcome (option Image * option error))
      (tr : list Event) :
  run handle (task.Checkpoint t opts) w0 = (out, w', tr) ->
  exists before steps after,
    tr = before ++ steps ++ after /\
    forallb is_bracket (ops before) = true /\
    forallb is_epilogue (ops after) = true /\
    (steps = [] \/
     exists cr i request w1 w2,
       run handle (task.checkpointSteps t cr i request) w1 = (out, w2, steps) /\
       cti_Name i <> "" /\
       forall now,
         In (Some now) (map clock_reading before) ->
         cti_Name i =
           checkpointNamePrefix +:+ t_id t +:+ ":" +:+ FormatTime now).
Proof.
  intros Hrun.
  destruct (run_Checkpoint_shape handle _ _ _ _ _ _ Hrun)
    as [(e & -> & _)|(head & Hhead & _ & Hcases)].
  { exists [Ev ClientWithLease (Failed e)], [], [].
    repeat (split; [reflexivity|]). left. reflexivity. }
  apply prologue_is_bracket in Hhead as Hbr.
  destruct Hcases as [(-> & _)|(cr & i & request & w1 & w2 & trp & -> & Hp & Hne & Hclock)].
  { exists (Ev ClientWithLease (Done tt) :: head ++ [Ev LeaseDone tt]), [], [].
    split; [rewrite !app_nil_r; reflexivity|].
    split; [|split; [reflexivity|left; reflexivity]].
    simpl. rewrite ops_app, forallb_app, Hbr. reflexivity. }
  destruct (run_checkpointPaused_cases handle _ _ _ _ _ _ _ _ Hp)
    as [(e & -> & _)|[(r & e & _ & -> & _)
       |[(r & steps & rr & wa & wb & _ & -> & Hsteps)
        |(r & steps & wa & _ & -> & Hsteps)]]].
  - exists (Ev ClientWithLease (Done tt)
            :: head ++ [Ev (TaskGet (t_id t) "") (Failed e)] ++ [Ev LeaseDone tt]),
      [], [].
    split; [rewrite !app_nil_r; reflexivity|].
    split; [|split; [reflexivity|left; reflexivity]].
    simpl. rewrite ops_app, forallb_app, Hbr. reflexivity.
  - exists (Ev ClientWithLease (Done tt)
            :: head ++ [Ev (TaskGet (t_id t) "") (Done r);
                        Ev (TaskPause (t_id t)) (Some e)] ++ [Ev LeaseDone tt]),
      [], [].
    split; [rewrite !app_nil_r; reflexivity|].
    split; [|split; [reflexivity|left; reflexivity]].
    simpl. rewrite ops_app, forallb_app, Hbr. reflexivity.
  - exists (Ev ClientWithLease (Done tt)
            :: head ++ [Ev (TaskGet (t_id t) "") (Done r);
                        Ev (TaskPause (t_id t)) None]),
      steps, [Ev (TaskResume (t_id t)) rr; Ev LeaseDone tt].
    split.
    { simpl. f_equal. rewrite <- ?List.app_assoc. simpl.
      rewrite <- ?List.app_assoc. reflexivity. }
    split; [simpl; rewrite ops_app, forallb_app, Hbr; reflexivity|].
    split; [reflexivity|]. right. exists cr, i, request, wa, wb.
    split; [exact Hsteps|]. split; [exact Hne|].
    intros now Hin. apply Hclock. simpl in Hin. destruct Hin as [Hin|Hin];
      [discriminate|].
    rewrite List.map_app in Hin. apply in_app_or in Hin as [Hin|Hin];
      [exact Hin|].
    simpl in Hin. destruct Hin as [Hin|[Hin|[]]]; discriminate.
  - exists (Ev ClientWithLease (Done tt)
            :: head ++ [Ev (TaskGet (t_id t) "") (Done r)]),
      steps, [Ev LeaseDone tt].
    split.
    { simpl. f_equal. rewrite <- ?List.app_assoc. reflexivity. }
    split; [simpl; rewrite ops_app, forallb_app, Hbr; reflexivity|].
    split; [reflexivity|]. right. exists cr, i, request, wa, w2.
    split; [exact Hsteps|]. split; [exact Hne|].
    intros now Hin. apply Hclock. simpl in Hin. destruct Hin as [Hin|Hin];
      [discriminate|].
    rewrite List.map_app in Hin. apply in_app_or in Hin as [Hin|Hin];
      [exact Hin|].
    simpl in Hin. destruct Hin as [Hin|[]]; discriminate.
Qed.
End CheckpointIndex.

Section MoreCheckpointProps.
Context `{Deps} {World : Type}.
Variable handle : forall o : Op, World -> resp o * World.

Lemma capture_of_WriteIndex (e : Event) (index : Index) (id : string) :
  ev_op e = WriteIndex index id -> is_capture e = true.
Proof. unfold is_capture. intros ->. reflexivity. Qed.

Lemma capture_of_ImageCreate (e : Event) (im : Image) :
  ev_op e = ImageCreate im -> is_capture e = true.
Proof. unfold is_capture. intros ->. reflexivity. Qed.

(** An operation of the capture steps, found in a trace of Checkpoint,
    lies in the part of the trace that the capture steps have written. *)
Lemma capture_event_in_steps (t : task) (opts : list CheckpointTaskOpts)
      (w0 w' : World) (out : Outcome (option Image * option error))
      (tr pre post : list Event) (e : Event) :
  run handle (task.Checkpoint t opts) w0 = (out, w', tr) ->
  tr = pre ++ e :: post ->
  is_capture e = true ->
  exists before pre' post' after cr i request w1 w2,
    pre = before ++ pre' /\ post = post' ++ after /\
    forallb is_bracket (ops before) = true /\
    forallb is_epilogue (ops after) = true /\
    run handle (task.checkpointSteps t cr i request) w1 =
      (out, w2, pre' ++ e :: post') /\
    cti_Name i <> "" /\
    forall now,
      In (Some now) (map clock_reading before) ->
      cti_Name i = checkpointNamePrefix +:+ t_id t +:+ ":" +:+ FormatTime now.
Proof.
  intros Hrun Hsplit He.
  destruct (run_Checkpoint_sandwich handle _ _ _ _ _ _ Hrun)
    as (before & steps & after & -> & Hb & Ha & Hsteps).
  destruct (locate_after is_capture _ _ _ _ _ Hsplit He
              (bracket_not_capture _ Hb)) as (pre' & -> & Hrest).
  destruct (locate_before is_capture _ _ _ _ _ Hrest He
              (bracket_not_capture _ (epilogue_is_bracket _ Ha)))
    as (post' & -> & ->).
  destruct Hsteps as [Hnil|(cr & i & request & w1 & w2 & Hs & Hne & Hclock)].
  { destruct pre'; discriminate. }
  exists before, pre', post', after, cr, i, request, w1, w2.
  repeat (split; [reflexivity || assumption|]). exact Hclock.
Qed.

(** X23. In every run of Checkpoint, whatever the answers of the
    services, the index that is published for the container of the task
    has schema version 2 and lists, in the order of the operations before
    it, the descriptors the checkpoint RPC returned and the diff of the
    snapshot, both with the platform of the build, and the target of the
    image that was looked up; its only annotation is the name of that
    image, when one was looked up. *)
Theorem Checkpoint_index_collects_earlier_steps (t : task)
        (opts : list CheckpointTaskOpts) (w0 w' : World)
        (out : Outcome (option Image * option error))
        (tr pre post : list Event) (e : Event) (index : Index) (id : string) :
  run handle (task.Checkpoint t opts) w0 = (out, w', tr) ->
  tr = pre ++ e :: post ->
  ev_op e = WriteIndex index id ->
  id = t_id t /\
  idx_SchemaVersion index = 2%Z /\
  idx_Manifests index = flat_map contribution pre /\
  idx_Annotations index =
    match omap named_image pre with
    | name :: _ => <["image.name" := name]> ∅
    | [] => ∅
    end.
Proof.
  intros Hrun Hsplit Hop.
  destruct (capture_event_in_steps _ _ _ _ _ _ _ _ _ Hrun Hsplit
              (capture_of_WriteIndex _ _ _ Hop))
    as (before & pre' & post' & after & cr & i & request & w1 & w2
        & -> & _ & Hb & _ & Hs & _).
  destruct (checkpointSteps_index handle _ _ _ _ _ _ _ _ _ _ _ _ _
              Hs eq_refl Hop) as (Hid & Hv & Hm & Hann).
  destruct (bracket_contributes_nothing _ Hb) as [Hc Hn].
  split; [exact Hid|]. split; [exact Hv|].
  rewrite flat_map_app, Hc, omap_app, Hn. split; [exact Hm|exact Hann].
Qed.

(** X24. In every run of Checkpoint, the image is registered right after
    the index has been published for the container of the task without
    error, with the descriptor of the published index as its target and
    the label containerd.io/checkpoint=true; after the registration,
    only the resume and the release of the lease follow. *)
Theorem Checkpoint_registers_published_index (t : task)
        (opts : list CheckpointTaskOpts) (w0 w' : World)
        (out : Outcome (option Image * option error))
        (tr pre post : list Event) (e : Event) (im : Image) :
  run handle (task.Checkpoint t opts) w0 = (out, w', tr) ->
  tr = pre ++ e :: post ->
  ev_op e = ImageCreate im ->
  (exists pre' index desc,
     pre = pre' ++ [Ev (WriteIndex index (t_id t)) (Done desc)] /\
     img_Target im = desc) /\
  img_Labels im = {["containerd.io/checkpoint" := "true"]} /\
  forallb is_epilogue (ops post) = true.
Proof.
  intros Hrun Hsplit Hop.
  destruct (capture_event_in_steps _ _ _ _ _ _ _ _ _ Hrun Hsplit
              (capture_of_ImageCreate _ _ Hop))
    as (before & pre' & post' & after & cr & i & request & w1 & w2
        & -> & -> & Hb & Ha & Hs & Hne & Hclock).
  destruct (checkpointSteps_registration handle _ _ _ _ _ _ _ _ _ _ _ _
              Hs eq_refl Hop)
    as (-> & Hname & Hlabels & pre'' & index & desc & -> & Htarget).
  split; [|split; [exact Hlabels|exact Ha]].
  exists (before ++ pre''), index, desc.
  rewrite <- List.app_assoc. split; [reflexivity|exact Htarget].
Qed.
End MoreCheckpointProps.

Section CheckpointBrackets.
Context `{Deps} {World : Type}.
Variable handle : forall o : Op, World -> resp o * World.

Lemma prologue_quiet (head : list Event) :
  forallb is_prologue (ops head) = true ->
  existsb is_TaskPause (ops head) = false /\
  existsb is_TaskResume (ops head) = false /\
  existsb pause_succeeded head = false /\
  existsb observed_unpaused head = false.
Proof.
  intros Hhead. repeat split.
  - apply prologue_absent; [|exact Hhead]. intros []; simpl; congruence.
  - apply prologue_absent; [|exact Hhead]. intros []; simpl; congruence.
  - apply none_accepted, prologue_skips; [|exact Hhead].
    intros e He. apply (pause_succeeded_op e He).
  - apply none_accepted, prologue_skips; [|exact Hhead].
    intros e He. apply (observed_unpaused_op e He).
Qed.

Lemma calm_quiet (steps : list Event) :
  existsb is_bracket (ops steps) = false ->
  existsb is_TaskPause (ops steps) = false /\
  existsb is_TaskResume (ops steps) = false /\
  existsb is_LeaseDone (ops steps) = false /\
  existsb pause_succeeded steps = false /\
  existsb observed_unpaused steps = false.
Proof.
  intros Hcalm. repeat split.
  - apply bracket_absent; [|exact Hcalm]. intros []; simpl; congruence.
  - apply bracket_absent; [|exact Hcalm]. intros []; simpl; congruence.
  - apply bracket_absent; [|exact Hcalm]. intros []; simpl; congruence.
  - apply none_accepted, (calm_skips _ is_bracket); [|exact Hcalm].
    intros e He. apply (pause_succeeded_op e He).
  - apply none_accepted, (calm_skips _ is_bracket); [|exact Hcalm].
    intros e He. apply (observed_unpaused_op e He).
Qed.

(** X25. Checkpoint resumes only what it has paused: in every run,
    whatever the answers of the services, a resume RPC is issued only
    after a pause RPC of the same run that returned no error; and when no
    status lookup reported a status other than paused - the task was
    already paused, or the lookup failed or was never reached - the run
    issues neither a pause nor a resume, so a task that was paused before
    the call is still paused after it. *)
Theorem Checkpoint_resumes_only_its_own_pause (t : task)
        (opts : list CheckpointTaskOpts) (w0 w' : World)
        (out : Outcome (option Image * option error)) (tr : list Event) :
  run handle (task.Checkpoint t opts) w0 = (out, w', tr) ->
  (existsb is_TaskResume (ops tr) = true ->
   exists before after,
     tr = before ++ Ev (TaskPause (t_id t)) None :: after /\
     existsb is_TaskResume (ops before) = false) /\
  (existsb observed_unpaused tr = false ->
   existsb is_TaskPause (ops tr) = false /\
   existsb is_TaskResume (ops tr) = false).
Proof.
  intros Hrun.
  destruct (run_Checkpoint_shape handle _ _ _ _ _ _ Hrun)
    as [(e & -> & _)|(head & Hhead & _ & Hcases)].
  { split; [discriminate|]. intros _. split; reflexivity. }
  destruct (prologue_quiet _ Hhead) as (Hhp & Hhr & Hhs & Hhu).
  destruct Hcases
    as [(-> & _)|(cr & i & request & w1 & w2 & trp & -> & Hp & _)].
  { split.
    - simpl. rewrite ops_app, existsb_app, Hhr. discriminate.
    - intros _. simpl. rewrite ops_app, !existsb_app, Hhp, Hhr.
      split; reflexivity. }
  destruct (run_checkpointPaused_cases handle _ _ _ _ _ _ _ _ Hp)
    as [(e & -> & _)|[(r & e & Hobs & -> & _)
       |[(r & steps & rr & wa & wb & Hobs & -> & Hsteps)
        |(r & steps & wa & Hobs & -> & Hsteps)]]].
  - split.
    + simpl. rewrite !ops_app, !existsb_app, Hhr. discriminate.
    + intros _. simpl. rewrite !ops_app, !existsb_app, Hhp, Hhr.
      split; reflexivity.
  - split.
    + simpl. rewrite !ops_app, !existsb_app, Hhr. discriminate.
    + intros Hnone. exfalso.
      apply not_true_iff_false in Hnone. apply Hnone.
      apply existsb_exists. exists (Ev (TaskGet (t_id t) "") (Done r)).
      split; [|exact Hobs]. right. apply in_or_app. right.
      left. reflexivity.
  - split.
    + intros _.
      exists (Ev ClientWithLease (Done tt)
              :: head ++ [Ev (TaskGet (t_id t) "") (Done r)]),
        (steps ++ [Ev (TaskResume (t_id t)) rr; Ev LeaseDone tt]).
      split.
      * simpl. f_equal. rewrite <- ?List.app_assoc. simpl.
        rewrite <- ?List.app_assoc. reflexivity.
      * simpl. rewrite ops_app, existsb_app, Hhr. reflexivity.
    + intros Hnone. exfalso.
      apply not_true_iff_false in Hnone. apply Hnone.
      apply existsb_exists. exists (Ev (TaskGet (t_id t) "") (Done r)).
      split; [|exact Hobs]. right. apply in_or_app. right.
      left. reflexivity.
  - destruct (run_checkpointSteps_calm handle _ _ _ _ _ _ _ _ Hsteps)
      as [_ Hcalm].
    destruct (calm_quiet _ Hcalm) as (Hsp & Hsr & _ & _ & _).
    split.
    + simpl. rewrite !ops_app, !existsb_app, Hhr. simpl.
      rewrite !ops_app, !existsb_app, Hsr. discriminate.
    + intros _. simpl. rewrite !ops_app, !existsb_app, Hhp, Hhr. simpl.
      rewrite !ops_app, !existsb_app, Hsp, Hsr. split; reflexivity.
Qed.

(** X26. Checkpoint releases the lease it was granted exactly once, as
    the last operation of the run, on every path; when the lease is
    refused, Checkpoint returns that error as it is and issues no other
    operation. *)
Theorem Checkpoint_releases_lease_last (t : task)
        (opts : list CheckpointTaskOpts) (w0 w' : World)
        (out : Outcome (option Image * option error)) (tr : list Event) :
  run handle (task.Checkpoint t opts) w0 = (out, w', tr) ->
  (exists e, tr = [Ev ClientWithLease (Failed e)] /\
             out = Returned (None, Some e)) \/
  (exists body,
     tr = Ev ClientWithLease (Done tt) :: body ++ [Ev LeaseDone tt] /\
     existsb is_LeaseDone (ops body) = false).
Proof.
  intros Hrun.
  destruct (run_Checkpoint_shape handle _ _ _ _ _ _ Hrun)
    as [Hrefused|(head & Hhead & Hld & Hcases)]; [left; exact Hrefused|].
  right.
  destruct Hcases
    as [(-> & _)|(cr & i & request & w1 & w2 & trp & -> & Hp & _)].
  { exists head. split; [reflexivity|exact Hld]. }
  exists (head ++ trp). split; [rewrite <- List.app_assoc; reflexivity|].
  rewrite ops_app, existsb_app, Hld. simpl.
  destruct (run_checkpointPaused_cases handle _ _ _ _ _ _ _ _ Hp)
    as [(e & -> & _)|[(r & e & _ & -> & _)
       |[(r & steps & rr & wa & wb & _ & -> & Hsteps)
        |(r & steps & wa & _ & -> & Hsteps)]]]; try reflexivity.
  - destruct (run_checkpointSteps_calm handle _ _ _ _ _ _ _ _ Hsteps)
      as [_ Hcalm].
    destruct (calm_quiet _ Hcalm) as (_ & _ & Hsl & _).
    simpl. rewrite ops_app, existsb_app, Hsl. reflexivity.
  - destruct (run_checkpointSteps_calm handle _ _ _ _ _ _ _ _ Hsteps)
      as [_ Hcalm].
    destruct (calm_quiet _ Hcalm) as (_ & _ & Hsl & _).
    simpl. fold (ops steps). exact Hsl.
Qed.
End CheckpointBrackets.

(** ** The further properties on sample runs *)

Lemma Delete_stops_at_failing_option_witness :
  run scripted
      (task.Delete (H := sampleDeps) sampleTask
         [passingDeleteOpt; failingDeleteOpt (ErrNew "first");
          failingDeleteOpt (ErrNew "second")])
      sampleScript =
    (Returned (None, Some (ErrNew "first")), sampleScript, []).
Proof.
  exact (Delete_stops_at_failing_option (H := sampleDeps) scripted sampleTask
           [passingDeleteOpt] [failingDeleteOpt (ErrNew "second")]
           (failingDeleteOpt (ErrNew "first"))
           sampleScript sampleScript sampleScript [] [] (ErrNew "first")
           eq_refl eq_refl).
Defined.

Lemma Delete_not_found_stops_witness :
  let s := with_Get (Failed (ErrTransport 5 "task c1 not found")) sampleScript in
  run scripted (task.Delete (H := sampleDeps) sampleTask []) s =
    (Returned (None, Some (ErrWrap "task c1 not found" (ErrSentinel NotFound))),
     s, [Ev (TaskGet "c1" "") (Failed (ErrTransport 5 "task c1 not found"))]).
Proof.
  intros s.
  exact (Delete_not_found_stops (H := sampleDeps) scripted sampleTask [] s s s []
           (ErrTransport 5 "task c1 not found") eq_refl eq_refl eq_refl).
Defined.

Lemma Metrics_first_or_error_witness :
  let m := {| metric_ID := "c1"; metric_Data := None |} in
  let answer := Done {| Metrics_ := [m; {| metric_ID := "c9"; metric_Data := None |}] |} in
  let s := with_Metrics answer sampleScript in
  run scripted (task.Metrics (H := sampleDeps) sampleTask) s =
    (Returned (Some m, None), s, [Ev (TaskMetrics ["id==c1"]) answer]).
Proof.
  intros m answer s.
  destruct (Metrics_first_or_error (H := sampleDeps) scripted sampleTask s s
              answer eq_refl) as [_ Hfirst].
  exact (Hfirst _ m _ eq_refl eq_refl).
Defined.

Lemma Exec_success_keeps_io_witness :
  let request :=
    {| exec_ContainerID := "c1"; exec_ExecID := "exec1";
       exec_Terminal := false; exec_Stdin := "in"; exec_Stdout := "out";
       exec_Stderr := "err";
       exec_Spec :=
         Some {| any_TypeUrl :=
                   "types.containerd.io/opencontainers/runtime-spec/1/Process";
                 any_Value := "/" |} |} in
  run scripted
      (task.Exec (H := sampleDeps) sampleTask "exec1" sampleSpec
         (creatorOf (mkIO 7)))
      sampleScript =
    (Returned (Some {| p_id := "exec1"; p_task := sampleTask;
                       p_io := Some (mkIO 7) |}, None),
     sampleScript,
     [Ev (IOConfig (mkIO 7)) (s_Config sampleScript);
      Ev (TaskExec request) (Done tt)]).
Proof.
  intros request.
  exact (Exec_success_keeps_io (H := sampleDeps) scripted sampleTask "exec1"
           sampleSpec (creatorOf (mkIO 7))
           sampleScript sampleScript sampleScript sampleScript [] (mkIO 7)
           _ (s_Config sampleScript)
           ltac:(discriminate) eq_refl eq_refl eq_refl eq_refl).
Defined.

Lemma Exec_factory_error_witness :
  run scripted
      (task.Exec (H := sampleDeps) sampleTask "exec1" sampleSpec
         (failingCreator (ErrNew "mkfifo: permission denied")))
      sampleScript =
    (Returned (None, Some (ErrNew "mkfifo: permission denied")), sampleScript, []).
Proof.
  exact (Exec_factory_error (H := sampleDeps) scripted sampleTask "exec1"
           sampleSpec (failingCreator (ErrNew "mkfifo: permission denied"))
           sampleScript sampleScript [] None _
           ltac:(discriminate) eq_refl).
Defined.

Lemma Start_pid_or_cleanup_witness :
  let e := ErrTransport 5 "container c1 not found" in
  exists w2 cleanup,
    run scripted
        (task.Start (H := sampleDeps) (H0 := refusingClient e) sampleTask)
        sampleScript =
      (Returned (sampleTask,
                 Some (ErrWrap "container c1 not found" (ErrSentinel NotFound))),
       w2, cleanup) /\
    ops cleanup = [IOCancel (mkIO 1); IOClose (mkIO 1)].
Proof.
  intros e.
  exact (Start_pid_or_cleanup (D := sampleDeps) (C := refusingClient e) scripted
           sampleTask sampleScript sampleScript [] (Failed e) eq_refl).
Defined.

Lemma Kill_stops_at_failing_option_witness :
  run scripted
      (task.Kill (H := sampleDeps) (H0 := acceptingClient 7 []) sampleTask 9
         [killAllOpt; failingKillOpt (ErrNew "no such exec");
          killExecOpt "exec1"])
      sampleScript =
    (Returned (Some (ErrNew "no such exec")), sampleScript, []).
Proof.
  exact (Kill_stops_at_failing_option (D := sampleDeps)
           (C := acceptingClient 7 []) scripted sampleTask 9
           [killAllOpt] [killExecOpt "exec1"]
           (failingKillOpt (ErrNew "no such exec")) _ _
           sampleScript sampleScript sampleScript [] [] (ErrNew "no such exec")
           eq_refl eq_refl).
Defined.

Lemma Kill_request_and_result_witness :
  let e := ErrTransport 5 "process exec1 not found" in
  let request :=
    {| kill_Signal := (2 ^ 32 + 9) mod 2 ^ 32; kill_ContainerID := "c1";
       kill_ExecID := "exec1"; kill_All := true |} in
  run scripted
      (task.Kill (H := sampleDeps) (H0 := refusingClient e) sampleTask
         (2 ^ 32 + 9) [killExecOpt "exec1"; killAllOpt])
      sampleScript =
    (Returned (Some (ErrWrap "process exec1 not found" (ErrSentinel NotFound))),
     sampleScript, []) /\
  (0 <= kill_Signal request < 2 ^ 32)%Z.
Proof.
  intros e request.
  destruct (Kill_request_and_result (D := sampleDeps) (C := refusingClient e)
              scripted sampleTask (2 ^ 32 + 9) [killExecOpt "exec1"; killAllOpt]
              {| ki_All := true; ki_ExecID := "exec1" |}
              sampleScript sampleScript sampleScript [] [] (Some e)
              eq_refl eq_refl) as (Hrun & Hrange & _).
  split; [exact Hrun|exact Hrange].
Defined.

Lemma Pids_in_response_order_witness :
  let procs :=
    [{| pd_Pid := 42%N; pd_Info := None |};
     {| pd_Pid := 43%N; pd_Info := None |}] in
  exists l err,
    run scripted
        (task.Pids (H := sampleDeps) (H0 := acceptingClient 42 procs) sampleTask)
        sampleScript = (Returned (l, err), sampleScript, []) /\
    err = None /\
    l = [{| pi_Pid := 42%N; pi_Info := None |};
         {| pi_Pid := 43%N; pi_Info := None |}].
Proof.
  intros procs.
  destruct (Pids_in_response_order (D := sampleDeps)
              (C := acceptingClient 42 procs) scripted sampleTask
              sampleScript sampleScript [] (Done {| pids_Processes := procs |})
              eq_refl) as (l & err & Hrun & Herr & Hl & _).
  exists l, err. split; [exact Hrun|]. split; [exact Herr|exact Hl].
Defined.

Lemma Update_marshal_failure_no_rpc_witness :
  run scripted
      (task.Update (H := sampleDeps) (H0 := acceptingClient 42 []) sampleTask
         [resourcesOpt (DynProcess None)])
      sampleScript =
    (Returned (Some (ErrNew "nil process spec")), sampleScript, []).
Proof.
  exact (Update_marshal_failure_no_rpc (D := sampleDeps)
           (C := acceptingClient 42 []) scripted sampleTask
           [resourcesOpt (DynProcess None)] _ sampleScript sampleScript []
           (DynProcess None) (ErrNew "nil process spec")
           eq_refl eq_refl eq_refl).
Defined.

Lemma Update_request_and_result_witness :
  let e := ErrTransport 3 "cpu shares out of range" in
  run scripted
      (task.Update (H := sampleDeps) (H0 := refusingClient e) sampleTask
         [resourcesOpt (DynOther "specs.LinuxResources" "cpu.shares=0")])
      sampleScript =
    (Returned (Some (ErrWrap "cpu shares out of range"
                             (ErrSentinel InvalidArgument))),
     sampleScript, []).
Proof.
  intros e.
  exact (Update_request_and_result (D := sampleDeps) (C := refusingClient e)
           scripted sampleTask
           [resourcesOpt (DynOther "specs.LinuxResources" "cpu.shares=0")]
           {| uti_Resources := Some (DynOther "specs.LinuxResources" "cpu.shares=0");
              uti_Annotations := None |}
           sampleScript sampleScript sampleScript [] []
           (Some {| any_TypeUrl := "specs.LinuxResources";
                    any_Value := "cpu.shares=0" |})
           (Some e) eq_refl
           (ex_intro _ _ (conj eq_refl eq_refl)) eq_refl).
Defined.

Lemma LoadProcess_get_failure_witness :
  let e := ErrTransport 5 "exec exec1 not found" in
  let s := with_Get (Failed e) sampleScript in
  exists err,
    run scripted
        (task.LoadProcess (H := sampleDeps) sampleTask "exec1" None) s =
      (Returned (None, Some err), s, [Ev (TaskGet "c1" "exec1") (Failed e)]) /\
    Error err = "no running process found: exec exec1 not found" /\
    IsNotFound err = true.
Proof.
  intros e s.
  assert ("exec1" <> t_id sampleTask \/ (None : option Attach) <> None)
    as Hother by (left; discriminate).
  destruct (LoadProcess_get_failure (D := sampleDeps) scripted sampleTask
              "exec1" None s s e Hother eq_refl)
    as (err & Hrun & Hnf & Hmsg & _).
  exists err. split; [exact Hrun|]. split; [exact (Hmsg eq_refl)|].
  rewrite Hnf. reflexivity.
Defined.

Lemma LoadProcess_attaches_io_witness :
  run scripted
      (task.LoadProcess (H := sampleDeps) sampleTask "c1"
         (Some (attachOf (mkIO 3))))
      sampleScript =
    (Returned (Some (ProcessExec {| p_id := "c1"; p_task := sampleTask;
                                    p_io := Some (mkIO 3) |}), None),
     sampleScript, [Ev (TaskGet "c1" "c1") (s_Get sampleScript)]).
Proof.
  assert ("c1" <> t_id sampleTask \/ Some (attachOf (mkIO 3)) <> None)
    as Hother by (right; discriminate).
  destruct (LoadProcess_attaches_io (D := sampleDeps) scripted sampleTask "c1"
              (Some (attachOf (mkIO 3))) sampleScript sampleScript _
              Hother eq_refl) as [_ Hattach].
  exact (Hattach (attachOf (mkIO 3)) (Some (mkIO 3)) None sampleScript []
                 eq_refl eq_refl).
Defined.

Lemma getRuncOptions_error_changes_nothing_witness :
  exists p i' h',
    TaskInfo.getRuncOptions (H := sampleTypeurl) (infoWith (Some "bad")) ∅ =
      (p,
       Some (ErrWrap "failed to get runtime v2 options: proto: cannot parse"
                     (ErrNew "proto: cannot parse")),
       i', h') /\
    p = None /\ i' = infoWith (Some "bad") /\ h' = ∅.
Proof.
  eexists _, _, _. split; [reflexivity|].
  destruct (getRuncOptions_error_changes_nothing (U := sampleTypeurl)
              (infoWith (Some "bad")) _ ∅ _ _ _ eq_refl)
    as (Hp & Hi & Hh & _).
  split; [exact Hp|]. split; [exact Hi|exact Hh].
Defined.

Lemma getRuncOptions_allocates_fresh_witness :
  let h : gmap nat RuncOptions := {[0 := zeroRuncOptions]} in
  exists q i' h',
    TaskInfo.getRuncOptions (H := sampleTypeurl) (infoWith (Some "runc")) h =
      (Some q, None, i', h') /\
    h !! q = None /\
    ti_Options i' = Some (OptRunc (Some q)) /\
    h' !! 0 = Some zeroRuncOptions.
Proof.
  intros h.
  destruct (getRuncOptions_allocates_fresh (U := sampleTypeurl)
              (infoWith (Some "runc")) _ h _ _ eq_refl eq_refl)
    as (q & Hp & Hfresh & _ & Hkept & Hopt & _).
  eexists q, _, _. split; [injection Hp as <-; reflexivity|].
  split; [exact Hfresh|]. split; [exact Hopt|].
  rewrite Hkept; [reflexivity|]. intros <-. discriminate Hfresh.
Defined.

Lemma getRuncOptions_same_pointer_again_witness :
  let crun :=
    {| ro_NoPivotRoot := false; ro_NoNewKeyring := false;
       ro_BinaryName := "crun"; ro_Root := ""; ro_SystemdCgroup := true |} in
  exists p i' h',
    TaskInfo.getRuncOptions (H := sampleTypeurl) (infoWith None) ∅ =
      (Some p, None, i', h') /\
    TaskInfo.getRuncOptions (H := sampleTypeurl) i' (<[p := crun]> h') =
      (Some p, None, i', <[p := crun]> h').
Proof.
  intros crun. eexists _, _, _. split; [reflexivity|].
  exact (getRuncOptions_same_pointer_again (U := sampleTypeurl)
           (infoWith None) _ ∅ _ _ _ eq_refl).
Defined.

Lemma writeContent_tolerates_already_exists_witness :
  let writer := writerOf (Some (ErrSentinel AlreadyExists)) "sha256:config" in
  run scripted
      (writeContent (storeOf writer) countingCopy
         "application/vnd.oci.image.config.v1+json" "checkpoint-c1" "hello" [])
      sampleScript =
    (Returned ({| desc_MediaType := "application/vnd.oci.image.config.v1+json";
                  desc_Digest := "sha256:config"; desc_Size := 5;
                  desc_Platform := None; desc_Annotations := ∅ |}, None),
     sampleScript, []).
Proof.
  intros writer.
  exact (writeContent_tolerates_already_exists scripted (storeOf writer)
           countingCopy "application/vnd.oci.image.config.v1+json"
           "checkpoint-c1" "hello" [] writer 5
           (Some (ErrSentinel AlreadyExists)) None "sha256:config"
           sampleScript sampleScript sampleScript sampleScript sampleScript
           sampleScript [] [] [] [] []
           eq_refl eq_refl eq_refl
           ltac:(intros e0 [= <-]; reflexivity) eq_refl eq_refl).
Defined.

Lemma writeContent_error_zero_descriptor_witness :
  let writer := writerOf (Some (ErrSentinel Unavailable)) "sha256:config" in
  exists d,
    run scripted
        (writeContent (storeOf writer) countingCopy
           "application/vnd.oci.image.config.v1+json" "checkpoint-c1" "hello" [])
        sampleScript =
      (Returned (d, Some (ErrSentinel Unavailable)), sampleScript, []) /\
    d = zeroDescriptor.
Proof.
  intros writer. eexists. split; [reflexivity|].
  exact (writeContent_error_zero_descriptor scripted (storeOf writer)
           countingCopy "application/vnd.oci.image.config.v1+json"
           "checkpoint-c1" "hello" [] _ _ sampleScript sampleScript []
           eq_refl).
Defined.

Lemma writeContent_closes_writer_witness :
  let writer := closingWriter (mkIO 9) None "sha256:config" in
  exists out w3 body,
    run scripted
        (writeContent (storeOf writer) countingCopy
           "application/vnd.oci.image.config.v1+json" "checkpoint-c1" "hello" [])
        sampleScript = (out, w3, body ++ [Ev (IOClose (mkIO 9)) tt]).
Proof.
  intros writer.
  destruct (writeContent_closes_writer scripted (storeOf writer) countingCopy
              "application/vnd.oci.image.config.v1+json" "checkpoint-c1" "hello"
              [] (Done writer) sampleScript sampleScript [] eq_refl)
    as (out & w2 & w3 & body & closed & closing & Hrun & Hclose).
  simpl in Hclose. injection Hclose as <- <- <-.
  exists out, w2, body. exact Hrun.
Defined.

Lemma Checkpoint_index_collects_earlier_steps_witness :
  let tr :=
    snd (run scripted (task.Checkpoint (H := sampleDeps) sampleTask [])
             capturingScript) in
  let linux := Some {| plat_OS := "linux"; plat_Architecture := "amd64" |} in
  exists index,
    ev_op (nth 8 tr (Ev LeaseDone tt)) = WriteIndex index "c1" /\
    idx_Manifests index =
      [{| desc_MediaType :=
            "application/vnd.containerd.container.criu.checkpoint.criu.tar";
          desc_Digest := "sha256:criu"; desc_Size := 100;
          desc_Platform := linux; desc_Annotations := ∅ |};
       {| desc_MediaType := "application/vnd.oci.image.manifest.v1+json";
          desc_Digest := "sha256:busybox"; desc_Size := 200;
          desc_Platform := None; desc_Annotations := ∅ |};
       {| desc_MediaType := "application/vnd.oci.image.layer.v1.tar+gzip";
          desc_Digest := "sha256:rw"; desc_Size := 300;
          desc_Platform := linux; desc_Annotations := ∅ |}] /\
    idx_Annotations index =
      <["image.name" := "docker.io/library/busybox:latest"]> ∅.
Proof.
  intros tr linux. eexists. split; [vm_compute; reflexivity|].
  destruct (Checkpoint_index_collects_earlier_steps (H := sampleDeps) scripted
              sampleTask [] capturingScript _ _ tr
              (firstn 8 tr) (skipn 9 tr) (nth 8 tr (Ev LeaseDone tt)) _ "c1"
              ltac:(vm_compute; reflexivity) ltac:(vm_compute; reflexivity)
              ltac:(vm_compute; reflexivity))
    as (_ & _ & Hm & Ha).
  split; [rewrite Hm|rewrite Ha]; vm_compute; reflexivity.
Defined.

Lemma Checkpoint_registers_published_index_witness :
  let tr :=
    snd (run scripted (task.Checkpoint (H := sampleDeps) sampleTask [])
             capturingScript) in
  exists im index desc,
    ev_op (nth 9 tr (Ev LeaseDone tt)) = ImageCreate im /\
    nth 8 tr (Ev LeaseDone tt) = Ev (WriteIndex index "c1") (Done desc) /\
    img_Target im = desc /\
    desc_Digest desc = "sha256:index" /\
    forallb is_epilogue (ops (skipn 10 tr)) = true.
Proof.
  intros tr. eexists _, _, _. split; [vm_compute; reflexivity|].
  split; [vm_compute; reflexivity|].
  destruct (Checkpoint_registers_published_index (H := sampleDeps) scripted
              sampleTask [] capturingScript _ _ tr
              (firstn 9 tr) (skipn 10 tr) (nth 9 tr (Ev LeaseDone tt)) _
              ltac:(vm_compute; reflexivity) ltac:(vm_compute; reflexivity)
              ltac:(vm_compute; reflexivity))
    as (_ & _ & Hpost).
  split; [vm_compute; reflexivity|].
  split; [vm_compute; reflexivity|exact Hpost].
Defined.

Lemma Checkpoint_resumes_only_its_own_pause_witness :
  let s := with_Get (Done pausedProcess) sampleScript in
  let tr :=
    snd (run scripted (task.Checkpoint (H := sampleDeps) sampleTask []) s) in
  In (TaskCheckpoint {| cp_ContainerID := "c1"; cp_ParentCheckpoint := "";
                        cp_Options := None |}) (ops tr) /\
  existsb is_TaskPause (ops tr) = false /\
  existsb is_TaskResume (ops tr) = false.
Proof.
  intros s tr. split; [vm_compute; tauto|].
  destruct (Checkpoint_resumes_only_its_own_pause (H := sampleDeps) scripted
              sampleTask [] s _ _ tr ltac:(vm_compute; reflexivity))
    as [_ Hnone].
  apply Hnone. vm_compute. reflexivity.
Defined.

Lemma Checkpoint_releases_lease_last_witness :
  let s := with_Checkpoint (Failed sampleFailure) sampleScript in
  let tr :=
    snd (run scripted (task.Checkpoint (H := sampleDeps) sampleTask []) s) in
  exists body,
    tr = Ev ClientWithLease (Done tt) :: body ++ [Ev LeaseDone tt] /\
    existsb is_LeaseDone (ops body) = false.
Proof.
  intros s tr.
  destruct (Checkpoint_releases_lease_last (H := sampleDeps) scripted
              sampleTask [] s _ _ tr ltac:(vm_compute; reflexivity))
    as [(e & Htr & _)|Hbody]; [|exact Hbody].
  exfalso. apply (f_equal (@length Event)) in Htr. vm_compute in Htr.
  discriminate Htr.
Defined.
